(** * Release tracking of the MangaDex Discord bot (bot.py)

    A shallow embedding of [bot.py]: the MangaDex helpers ([parse_iso],
    [fetch_latest_for_series]), the background task [check_releases], the
    storage functions ([load_data], [save_data]), the commands ([!track]
    with [extract_mangadex_id], [!untrack], [!set_announce_channel],
    [!list_tracked], [!test_release]) and the permission check
    [is_staff_or_owner].

    Conventions of the embedding.
    - A Python [str] is a Rocq [string]; its characters range over [ascii].
    - The value returned by [resp.json()] is a [json]; its numbers are the
      integers, fractional numbers are left out.
    - A Python [dict] is an association list in insertion order.  The nested
      dictionaries of [data] are the records [series_data], [guild_data] and
      [Data]; a field that may hold [None] has an option type.
    - An exception is the [Raise] outcome of a [result].
    - [datetime.fromisoformat] and the text an f-string produces for a value
      belong to the Python runtime: they are the two members of the class
      [Runtime].
    - The file [bot_data.json] holds a text: [json.dump] and [json.load] are
      [JsonText.dumps] and [JsonText.loads], which write and read the text
      of a document as the [json] module does with [indent=2].
    - The network, the chat channel and the file system are an environment
      [Env] that answers each effect; every effect is recorded in the [log]
      of the [World], and its position in the log is the clock that the
      environment reads.  Console output ([print]) is not recorded. *)

From Stdlib Require Import List String Ascii ZArith NArith Nnat Bool Lia.
From Stdlib Require Import Permutation Sorted.
Import ListNotations.
Local Open Scope string_scope.
Local Open Scope Z_scope.

Set Implicit Arguments.

(** ** Outcomes *)

Inductive exn : Type :=
| AttributeError
| TypeError
| ValueError
| ClientError
| OSError.

Inductive result (A : Type) : Type :=
| Ok (a : A)
| Raise (e : exn).

Arguments Ok {A} a.
Arguments Raise {A} e.

Definition rbind {A B} (r : result A) (k : A -> result B) : result B :=
  match r with
  | Ok a => k a
  | Raise e => Raise e
  end.

Declare Scope result_scope.
Delimit Scope result_scope with result.
Notation "x <- r ;; k" := (rbind r (fun x => k))
  (at level 61, r at next level, right associativity) : result_scope.

(** ** Python strings *)

Module PyStr.

(** [s.startswith(p)] *)
Fixpoint startswith (p s : string) : bool :=
  match p, s with
  | EmptyString, _ => true
  | String _ _, EmptyString => false
  | String a p', String b s' => Ascii.eqb a b && startswith p' s'
  end.

(** [sub in s] *)
Fixpoint contains (sub s : string) : bool :=
  startswith sub s ||
  match s with
  | EmptyString => false
  | String _ s' => contains sub s'
  end.

(** [s.endswith(suf)] *)
Fixpoint endswith (suf s : string) : bool :=
  String.eqb s suf ||
  match s with
  | EmptyString => false
  | String _ s' => endswith suf s'
  end.

(** [s[:-1]] *)
Fixpoint drop_last (s : string) : string :=
  match s with
  | EmptyString => EmptyString
  | String _ EmptyString => EmptyString
  | String a s' => String a (drop_last s')
  end.

(** [s.lstrip(c)] and [s.rstrip(c)] for a one-character [c] *)
Fixpoint lstrip (c : ascii) (s : string) : string :=
  match s with
  | EmptyString => EmptyString
  | String a s' => if Ascii.eqb a c then lstrip c s' else s
  end.

Fixpoint rstrip (c : ascii) (s : string) : string :=
  match s with
  | EmptyString => EmptyString
  | String a s' =>
      match rstrip c s' with
      | EmptyString => if Ascii.eqb a c then EmptyString else String a EmptyString
      | r => String a r
      end
  end.

(** [s.strip(c)] *)
Definition strip (c : ascii) (s : string) : string := rstrip c (lstrip c s).

(** [s.split(c)]: never empty, [""] splits into [[""]] *)
Fixpoint split (c : ascii) (s : string) : list string :=
  match s with
  | EmptyString => [EmptyString]
  | String a s' =>
      if Ascii.eqb a c then EmptyString :: split c s'
      else match split c s' with
           | [] => [String a EmptyString]
           | p :: ps => String a p :: ps
           end
  end.

(** [len(s)] *)
Definition len (s : string) : Z := Z.of_nat (String.length s).

(** the decimal digits of a natural number, most significant first; the
    fuel bounds the number of digits *)
Fixpoint digits_of (fuel : nat) (n : N) : string :=
  match fuel with
  | O => EmptyString
  | S fuel' =>
      let d := String (ascii_of_N (48 + n mod 10)) EmptyString in
      if (n <? 10)%N then d else digits_of fuel' (n / 10) ++ d
  end.

(** [str(n)] for an integer, which is also its JSON text *)
Definition of_int (n : Z) : string :=
  match n with
  | Z0 => "0"
  | Zpos p => digits_of (Pos.size_nat p) (Npos p)
  | Zneg p => String "-" (digits_of (Pos.size_nat p) (Npos p))
  end.

(** the characters of [s], one string each, as iteration over [s] yields *)
Fixpoint chars (s : string) : list string :=
  match s with
  | EmptyString => []
  | String a s' => String a EmptyString :: chars s'
  end.

Definition nonempty (s : string) : bool :=
  match s with
  | EmptyString => false
  | String _ _ => true
  end.

(** lexical order, the order of [<] on strings *)
Fixpoint ltb (s t : string) : bool :=
  match s, t with
  | _, EmptyString => false
  | EmptyString, String _ _ => true
  | String a s', String b t' =>
      (nat_of_ascii a <? nat_of_ascii b)%nat ||
      (Ascii.eqb a b && ltb s' t')
  end.

Definition newline : string := String "010"%char EmptyString.

End PyStr.

(** ** Python dictionaries, in insertion order *)

Definition dict (V : Type) : Type := list (string * V).

Fixpoint dict_get {V} (k : string) (d : dict V) : option V :=
  match d with
  | [] => None
  | (k', v) :: d' => if String.eqb k k' then Some v else dict_get k d'
  end.

(** [d[k] = v]: a present key keeps its place, a new key goes last *)
Fixpoint dict_set {V} (k : string) (v : V) (d : dict V) : dict V :=
  match d with
  | [] => [(k, v)]
  | (k', v') :: d' =>
      if String.eqb k k' then (k', v) :: d' else (k', v') :: dict_set k v d'
  end.

Definition dict_keys {V} (d : dict V) : list string := map fst d.

(** the keys of a dictionary are distinct *)
Fixpoint distinct (l : list string) : bool :=
  match l with
  | [] => true
  | k :: l' => negb (existsb (String.eqb k) l') && distinct l'
  end.

(** ** JSON values, as [resp.json()] and [json.load] return them *)

#[warnings="-register-all"]
Inductive json : Type :=
| JNull
| JBool (b : bool)
| JNum (n : Z)
| JStr (s : string)
| JArr (items : list json)
| JObj (fields : list (string * json)).

(** truth value of [v] in a condition *)
Definition truthy (v : json) : bool :=
  match v with
  | JNull => false
  | JBool b => b
  | JNum n => negb (n =? 0)
  | JStr s => PyStr.nonempty s
  | JArr l => match l with [] => false | _ => true end
  | JObj l => match l with [] => false | _ => true end
  end.

(** [v.get(k, default)]: only a dictionary has [get] *)
Definition py_get (v : json) (k : string) (default : json) : result json :=
  match v with
  | JObj fields =>
      match dict_get k fields with
      | Some x => Ok x
      | None => Ok default
      end
  | _ => Raise AttributeError
  end.

(** [for x in v]: a list yields its elements, a dictionary its keys, a
    string its characters; nothing else can be iterated *)
Definition py_iter (v : json) : result (list json) :=
  match v with
  | JArr l => Ok l
  | JObj fields => Ok (map (fun kv => JStr (fst kv)) fields)
  | JStr s => Ok (map JStr (PyStr.chars s))
  | _ => Raise TypeError
  end.

(** ** The text of a JSON document: [json.dumps] and [json.loads] *)

Module JsonText.

Definition quote : ascii := "034"%char.
Definition backslash : ascii := "092"%char.

Definition hex_char (n : N) : ascii :=
  if (n <? 10)%N then ascii_of_N (48 + n) else ascii_of_N (87 + n).

(** one character of a string, as [json.dumps] writes it with its default
    [ensure_ascii] *)
Definition escape_char (c : ascii) : string :=
  let n := N_of_ascii c in
  if Ascii.eqb c quote then String backslash (String quote EmptyString)
  else if Ascii.eqb c backslash then String backslash (String backslash EmptyString)
  else if (n =? 8)%N then String backslash "b"
  else if (n =? 12)%N then String backslash "f"
  else if (n =? 10)%N then String backslash "n"
  else if (n =? 13)%N then String backslash "r"
  else if (n =? 9)%N then String backslash "t"
  else if (32 <=? n)%N && (n <=? 126)%N then String c EmptyString
  else String backslash
         (String "u" (String "0" (String "0"
            (String (hex_char (n / 16)) (String (hex_char (n mod 16)) EmptyString))))).

Fixpoint escape (s : string) : string :=
  match s with
  | EmptyString => EmptyString
  | String c s' => escape_char c ++ escape s'
  end.

Definition encode_string (s : string) : string :=
  String quote (escape s ++ String quote EmptyString).

Fixpoint spaces (n : nat) : string :=
  match n with
  | O => EmptyString
  | S n' => String " " (spaces n')
  end.

(** the line break before an item that is [level] containers deep *)
Definition newline_indent (level : nat) : string :=
  String "010"%char (spaces (2 * level)).

(** [json.dumps(v, indent=2)], for a value that is [level] containers deep *)
Fixpoint dumps_at (level : nat) (v : json) : string :=
  match v with
  | JNull => "null"
  | JBool true => "true"
  | JBool false => "false"
  | JNum n => PyStr.of_int n
  | JStr s => encode_string s
  | JArr [] => "[]"
  | JArr (x :: xs) =>
      "[" ++ newline_indent (S level) ++ dumps_at (S level) x ++
      fold_right
        (fun y more => "," ++ newline_indent (S level) ++ dumps_at (S level) y ++ more)
        EmptyString xs ++
      newline_indent level ++ "]"
  | JObj [] => "{}"
  | JObj ((k, x) :: kvs) =>
      "{" ++ newline_indent (S level) ++ encode_string k ++ ": " ++
      dumps_at (S level) x ++
      fold_right
        (fun (kv : string * json) more =>
           let (k', y) := kv in
           "," ++ newline_indent (S level) ++ encode_string k' ++ ": " ++
           dumps_at (S level) y ++ more)
        EmptyString kvs ++
      newline_indent level ++ "}"
  end.

Definition dumps (v : json) : string := dumps_at 0 v.

(** *** Reading *)

Definition is_space (c : ascii) : bool :=
  let n := N_of_ascii c in
  (n =? 32)%N || (n =? 9)%N || (n =? 10)%N || (n =? 13)%N.

Fixpoint skip_spaces (s : string) : string :=
  match s with
  | EmptyString => EmptyString
  | String c s' => if is_space c then skip_spaces s' else s
  end.

Definition digit_value (c : ascii) : option Z :=
  let n := Z.of_N (N_of_ascii c) in
  if (48 <=? n) && (n <=? 57) then Some (n - 48) else None.

Definition hex_value (c : ascii) : option N :=
  let n := N_of_ascii c in
  if (48 <=? n)%N && (n <=? 57)%N then Some (n - 48)%N
  else if (97 <=? n)%N && (n <=? 102)%N then Some (n - 87)%N
  else if (65 <=? n)%N && (n <=? 70)%N then Some (n - 55)%N
  else None.

(** the character that stands after a backslash *)
Definition unescape (e : ascii) : option ascii :=
  if Ascii.eqb e quote then Some quote
  else if Ascii.eqb e backslash then Some backslash
  else if Ascii.eqb e "/" then Some "/"%char
  else if Ascii.eqb e "b" then Some "008"%char
  else if Ascii.eqb e "f" then Some "012"%char
  else if Ascii.eqb e "n" then Some "010"%char
  else if Ascii.eqb e "r" then Some "013"%char
  else if Ascii.eqb e "t" then Some "009"%char
  else None.

(** A string from after its opening quote to its closing quote, and the
    text that follows.  A character above 255 has no counterpart here. *)
Fixpoint scan_string (s : string) : option (string * string) :=
  match s with
  | EmptyString => None
  | String c s' =>
      if Ascii.eqb c quote then Some (EmptyString, s')
      else if Ascii.eqb c backslash then
        match s' with
        | String "u" (String h1 (String h2 (String h3 (String h4 s'')))) =>
            match hex_value h1, hex_value h2, hex_value h3, hex_value h4 with
            | Some 0%N, Some 0%N, Some a, Some b =>
                match scan_string s'' with
                | Some (t, rest) => Some (String (ascii_of_N (16 * a + b)) t, rest)
                | None => None
                end
            | _, _, _, _ => None
            end
        | String e s'' =>
            match unescape e, scan_string s'' with
            | Some c', Some (t, rest) => Some (String c' t, rest)
            | _, _ => None
            end
        | EmptyString => None
        end
      else if (N_of_ascii c <? 32)%N then None
      else match scan_string s' with
           | Some (t, rest) => Some (String c t, rest)
           | None => None
           end
  end.

Fixpoint scan_digits (acc : Z) (s : string) : Z * string :=
  match s with
  | EmptyString => (acc, EmptyString)
  | String c s' =>
      match digit_value c with
      | Some d => scan_digits (10 * acc + d) s'
      | None => (acc, s)
      end
  end.

(** what may not follow the digits of an integer: a further digit, or the
    start of a fraction or of an exponent *)
Definition number_goes_on (s : string) : bool :=
  match s with
  | EmptyString => false
  | String c _ =>
      match digit_value c with
      | Some _ => true
      | None => Ascii.eqb c "." || Ascii.eqb c "e" || Ascii.eqb c "E"
      end
  end.

(** digits: 0, or digits that do not start with 0 *)
Definition scan_natural (s : string) : option (Z * string) :=
  match s with
  | EmptyString => None
  | String c s' =>
      match digit_value c with
      | Some d => Some (if d =? 0 then (0, s') else scan_digits d s')
      | None => None
      end
  end.

(** an integer: an optional minus, then the digits; a fraction or an
    exponent has no counterpart here *)
Definition scan_number (s : string) : option (Z * string) :=
  match s with
  | EmptyString => None
  | String c s' =>
      match (if Ascii.eqb c "-" then scan_natural s' else scan_natural s) with
      | Some (n, rest) =>
          if number_goes_on rest then None
          else Some (if Ascii.eqb c "-" then - n else n, rest)
      | None => None
      end
  end.

Fixpoint drop (n : nat) (s : string) : string :=
  match n, s with
  | S n', String _ s' => drop n' s'
  | _, _ => s
  end.

(** the word [word] for the value [v] *)
Definition literal (word : string) (v : json) (s : string) : option (json * string) :=
  if PyStr.startswith word s
  then Some (v, drop (String.length word) s)
  else None.

(** [dict(pairs)]: a key that comes again keeps its place and takes the
    later value *)
Definition dict_of_pairs {V} (pairs : list (string * V)) : dict V :=
  fold_left (fun d kv => dict_set (fst kv) (snd kv) d) pairs [].

(** the text starts with the character [c] *)
Definition starts_with (c : ascii) (s : string) : bool :=
  match s with
  | EmptyString => false
  | String c' _ => Ascii.eqb c' c
  end.

Definition tail (s : string) : string :=
  match s with
  | EmptyString => EmptyString
  | String _ s' => s'
  end.

Fixpoint scan_value (fuel : nat) (s : string) : option (json * string) :=
  match fuel with
  | O => None
  | S fuel' =>
      if starts_with quote s then
        match scan_string (tail s) with
        | Some (t, rest) => Some (JStr t, rest)
        | None => None
        end
      else if starts_with "[" s then
        let s' := skip_spaces (tail s) in
        if starts_with "]" s' then Some (JArr [], tail s')
        else
          match scan_items fuel' s' with
          | Some (l, rest) => Some (JArr l, rest)
          | None => None
          end
      else if starts_with "{" s then
        let s' := skip_spaces (tail s) in
        if starts_with "}" s' then Some (JObj [], tail s')
        else
          match scan_members fuel' s' with
          | Some (l, rest) => Some (JObj (dict_of_pairs l), rest)
          | None => None
          end
      else if starts_with "n" s then literal "null" JNull s
      else if starts_with "t" s then literal "true" (JBool true) s
      else if starts_with "f" s then literal "false" (JBool false) s
      else
        match scan_number s with
        | Some (n, rest) => Some (JNum n, rest)
        | None => None
        end
  end

with scan_items (fuel : nat) (s : string) : option (list json * string) :=
  match fuel with
  | O => None
  | S fuel' =>
      match scan_value fuel' s with
      | Some (v, rest) =>
          let rest := skip_spaces rest in
          if starts_with "]" rest then Some ([v], tail rest)
          else if starts_with "," rest then
            match scan_items fuel' (skip_spaces (tail rest)) with
            | Some (l, rest') => Some (v :: l, rest')
            | None => None
            end
          else None
      | None => None
      end
  end

with scan_members (fuel : nat) (s : string)
  : option (list (string * json) * string) :=
  match fuel with
  | O => None
  | S fuel' =>
      if starts_with quote s then
        match scan_string (tail s) with
        | Some (k, rest) =>
            let rest := skip_spaces rest in
            if starts_with ":" rest then
              match scan_value fuel' (skip_spaces (tail rest)) with
              | Some (v, rest') =>
                  let rest' := skip_spaces rest' in
                  if starts_with "}" rest' then Some ([(k, v)], tail rest')
                  else if starts_with "," rest' then
                    match scan_members fuel' (skip_spaces (tail rest')) with
                    | Some (l, rest'') => Some ((k, v) :: l, rest'')
                    | None => None
                    end
                  else None
              | None => None
              end
            else None
        | None => None
        end
      else None
  end.

(** [json.loads(s)]; [None] stands for its [JSONDecodeError].  A text
    with a number that is not an integer or with an escape above 00ff has
    no counterpart among the values [json]: [json.loads] reads it, here it
    gives [None] as well, and nothing is concluded from [None] for such a
    text. *)
Definition loads (s : string) : option json :=
  match scan_value (S (String.length s)) (skip_spaces s) with
  | Some (v, rest) =>
      match skip_spaces rest with
      | EmptyString => Some v
      | _ => None
      end
  | None => None
  end.

(** *** Measures of a document *)

(** no dictionary of the value has a key twice *)
Fixpoint json_wf (v : json) : bool :=
  match v with
  | JArr l => forallb json_wf l
  | JObj fields =>
      distinct (map fst fields) &&
      forallb (fun kv : string * json => let (_, x) := kv in json_wf x) fields
  | _ => true
  end.

(** the number of values in [v], [v] and containers' items included *)
Fixpoint json_size (v : json) : nat :=
  match v with
  | JArr l => S (fold_right (fun x n => S (json_size x + n)) O l)
  | JObj fields =>
      S (fold_right
           (fun (kv : string * json) n => let (_, x) := kv in S (json_size x + n))
           O fields)
  | _ => 1
  end.

(** the text of the items after the first, and of the members after the
    first, as [dumps_at] writes them *)
Definition items_text (level : nat) (xs : list json) : string :=
  fold_right
    (fun y more => "," ++ newline_indent level ++ dumps_at level y ++ more)
    EmptyString xs.

Definition members_text (level : nat) (kvs : list (string * json)) : string :=
  fold_right
    (fun (kv : string * json) more =>
       let (k, y) := kv in
       "," ++ newline_indent level ++ encode_string k ++ ": " ++
       dumps_at level y ++ more)
    EmptyString kvs.

Definition size_items (xs : list json) : nat :=
  fold_right (fun x n => S (json_size x + n)) O xs.

Definition size_members (kvs : list (string * json)) : nat :=
  fold_right (fun (kv : string * json) n => let (_, x) := kv in S (json_size x + n))
    O kvs.

(** [v] is read back from its text, whatever follows *)
Definition reads_back (v : json) : Prop :=
  json_wf v = true ->
  forall fuel level rest,
    (json_size v <= fuel)%nat ->
    number_goes_on rest = false ->
    scan_value fuel (dumps_at level v ++ rest) = Some (v, rest).

End JsonText.

(** ** Dates *)

(** A [datetime] is naive (no offset) or aware (with one).  [us] is its
    position on the time line in microseconds: local for a naive value, UTC
    for an aware one. *)
Inductive datetime : Type :=
| Naive (us : Z)
| Aware (us : Z).

(** [a <= b] and [a < b]; a naive and an aware value cannot be ordered *)
Definition dt_le (a b : datetime) : result bool :=
  match a, b with
  | Naive x, Naive y => Ok (x <=? y)
  | Aware x, Aware y => Ok (x <=? y)
  | _, _ => Raise TypeError
  end.

Definition dt_lt (a b : datetime) : result bool :=
  match a, b with
  | Naive x, Naive y => Ok (x <? y)
  | Aware x, Aware y => Ok (x <? y)
  | _, _ => Raise TypeError
  end.

(** What the code takes from the Python runtime. *)
Class Runtime : Type := {
  (** [datetime.fromisoformat]; [None] stands for its [ValueError] *)
  fromisoformat : string -> option datetime;
  (** the text of a value inside an f-string *)
  format_value : json -> string
}.

(** ** MangaDex helpers *)

Section Helpers.

Context {rt : Runtime}.

(** [parse_iso], lines 88-92 *)
Definition parse_iso (dt_str : string) : result datetime :=
  let dt_str :=
    if PyStr.endswith "Z" dt_str
    then PyStr.drop_last dt_str ++ "+00:00"
    else dt_str in
  match fromisoformat dt_str with
  | Some d => Ok d
  | None => Raise ValueError
  end.

(** the argument of [parse_iso] must be a string: nothing else has
    [endswith] *)
Definition as_str (v : json) : result string :=
  match v with
  | JStr s => Ok s
  | _ => Raise AttributeError
  end.

(** One entry of the list [fetch_latest_for_series] returns: the
    dictionary with the keys "id", "chapter", "url" and "readableAt".
    The last one went through [parse_iso], so it is a string. *)
Record chapter : Type := Chapter {
  c_id : json;
  c_chapter : json;
  c_url : string;
  c_readableAt : string
}.

(** The loop of lines 133-154 over the items of the response. *)
Fixpoint collect_chapters (since_dt : option datetime) (items : list json)
  : result (list chapter) :=
  match items with
  | [] => Ok []
  | ch :: rest =>
      (ch_id <- py_get ch "id" JNull ;;
       attr <- py_get ch "attributes" (JObj []) ;;
       chapter_field <- py_get attr "chapter" JNull ;;
       let chapter_num :=
         if truthy chapter_field then chapter_field else JStr "?" in
       readable_at <- py_get attr "readableAt" JNull ;;
       if negb (truthy ch_id) || negb (truthy readable_at)
       then collect_chapters since_dt rest
       else
         readable_at <- as_str readable_at ;;
         ch_dt <- parse_iso readable_at ;;
         old <- match since_dt with
                | Some since => dt_le ch_dt since
                | None => Ok false
                end ;;
         if (old : bool) then collect_chapters since_dt rest
         else
           chapters <- collect_chapters since_dt rest ;;
           Ok ({| c_id := ch_id;
                  c_chapter := chapter_num;
                  c_url := "https://mangadex.org/chapter/" ++ format_value ch_id;
                  c_readableAt := readable_at |}
               :: chapters))%result
  end.

(** [list.sort(key=...)]: the keys are computed first, then the list is
    sorted with [<] on the keys, and elements with equal keys keep their
    order.  Insertion from the right is such a sort; like the built-in
    one it raises when two keys cannot be compared, which happens for any
    list that mixes naive and aware keys. *)
Fixpoint insert_by_key {A} (k : datetime) (x : A) (l : list (datetime * A))
  : result (list (datetime * A)) :=
  match l with
  | [] => Ok [(k, x)]
  | (k', y) :: l' =>
      (before <- dt_lt k' k ;;
       if (before : bool)
       then (r <- insert_by_key k x l' ;; Ok ((k', y) :: r))
       else Ok ((k, x) :: (k', y) :: l'))%result
  end.

Fixpoint sort_keyed {A} (l : list (datetime * A)) : result (list (datetime * A)) :=
  match l with
  | [] => Ok []
  | (k, x) :: l' => (s <- sort_keyed l' ;; insert_by_key k x s)%result
  end.

Fixpoint with_keys {A} (key : A -> result datetime) (l : list A)
  : result (list (datetime * A)) :=
  match l with
  | [] => Ok []
  | x :: l' => (k <- key x ;; r <- with_keys key l' ;; Ok ((k, x) :: r))%result
  end.

Definition sort_by_key {A} (key : A -> result datetime) (l : list A)
  : result (list A) :=
  (keyed <- with_keys key l ;;
   sorted <- sort_keyed keyed ;;
   Ok (map snd sorted))%result.

(** [since_dt], lines 129-131: an empty [since_ts] counts as absent *)
Definition since_datetime (since_ts : option string) : result (option datetime) :=
  match since_ts with
  | Some s =>
      if PyStr.nonempty s
      then (d <- parse_iso s ;; Ok (Some d))%result
      else Ok None
  | None => Ok None
  end.

(** Lines 126-154 of [fetch_latest_for_series]: the chapters kept from the
    response, in the order of the response. *)
Definition kept_chapters (payload : json) (since_ts : option string)
  : result (list chapter) :=
  (items <- py_get payload "data" (JArr []) ;;
   since_dt <- since_datetime since_ts ;;
   items <- py_iter items ;;
   collect_chapters since_dt items)%result.

(** Lines 126-158 of [fetch_latest_for_series]: what it returns for the
    decoded response [payload]. *)
Definition chapters_of_payload (payload : json) (since_ts : option string)
  : result (list chapter) :=
  (chapters <- kept_chapters payload since_ts ;;
   sort_by_key (fun x => parse_iso (c_readableAt x)) chapters)%result.

End Helpers.

(** ** The tracking state *)

(** [data["guilds"][gid]["tracked_series"][series_id]] *)
Record series_data : Type := SeriesData {
  name : string;
  last_seen_ts : option string;
  role_id : option Z
}.

(** [data["guilds"][gid]] *)
Record guild_data : Type := GuildData {
  announce_channel_id : option Z;
  tracked_series : dict series_data
}.

(** [data] *)
Record Data : Type := MkData {
  guilds : dict guild_data
}.

Definition with_last_seen_ts (ts : option string) (sdata : series_data) : series_data :=
  {| name := name sdata; last_seen_ts := ts; role_id := role_id sdata |}.

(** [gdata["tracked_series"][series_id] = sdata] for the [gdata] of [gid] *)
Definition set_tracked (gid series_id : string) (sdata : series_data) (d : Data) : Data :=
  match dict_get gid (guilds d) with
  | Some gdata =>
      {| guilds :=
           dict_set gid
             {| announce_channel_id := announce_channel_id gdata;
                tracked_series := dict_set series_id sdata (tracked_series gdata) |}
             (guilds d) |}
  | None => d
  end.

(** the record of a tracked series and its watermark *)
Definition tracked_record (gid series_id : string) (d : Data) : option series_data :=
  match dict_get gid (guilds d) with
  | Some gdata => dict_get series_id (tracked_series gdata)
  | None => None
  end.

Definition watermark (gid series_id : string) (d : Data) : option string :=
  match tracked_record gid series_id d with
  | Some sdata => last_seen_ts sdata
  | None => None
  end.

(** truth value of an optional string *)
Definition truthy_str (o : option string) : bool :=
  match o with
  | Some s => PyStr.nonempty s
  | None => false
  end.

(** [l[-1]] of a list that is not empty *)
Fixpoint last_item {A} (l : list A) : option A :=
  match l with
  | [] => None
  | [x] => Some x
  | _ :: l' => last_item l'
  end.

(** ** The persisted document *)

Definition json_of_option {A} (f : A -> json) (o : option A) : json :=
  match o with
  | Some a => f a
  | None => JNull
  end.

(** What [json.dump] writes for [data]: the document of its nested
    dictionaries, keys in insertion order. *)
Definition dump_series (sdata : series_data) : json :=
  JObj [("name", JStr (name sdata));
        ("last_seen_ts", json_of_option JStr (last_seen_ts sdata));
        ("role_id", json_of_option JNum (role_id sdata))].

Definition dump_guild (gdata : guild_data) : json :=
  JObj [("announce_channel_id", json_of_option JNum (announce_channel_id gdata));
        ("tracked_series",
         JObj (map (fun kv => (fst kv, dump_series (snd kv))) (tracked_series gdata)))].

Definition dump_data (d : Data) : json :=
  JObj [("guilds", JObj (map (fun kv => (fst kv, dump_guild (snd kv))) (guilds d)))].

(** Reading a document as the nested dictionaries of [data]; [None] when
    the records of the state cannot hold it. *)
Definition option_of_json {A} (f : json -> option A) (v : json) : option (option A) :=
  match v with
  | JNull => Some None
  | _ => match f v with
         | Some a => Some (Some a)
         | None => None
         end
  end.

Definition str_of_json (v : json) : option string :=
  match v with JStr s => Some s | _ => None end.

Definition int_of_json (v : json) : option Z :=
  match v with JNum n => Some n | _ => None end.

Fixpoint read_dict {V} (f : json -> option V) (fields : list (string * json))
  : option (dict V) :=
  match fields with
  | [] => Some []
  | (k, v) :: rest =>
      match f v, read_dict f rest with
      | Some x, Some d => Some ((k, x) :: d)
      | _, _ => None
      end
  end.

(** [d.get(k)] *)
Definition get_or_null (k : string) (fields : list (string * json)) : json :=
  match dict_get k fields with
  | Some v => v
  | None => JNull
  end.

(** The code reads "last_seen_ts" with [get] only, so the key may be
    absent; "name" is read with [['name']] as well (lines 310, 340, 360),
    and an absent "role_id" does not read as [None] everywhere
    ([get('role_id', 0)], line 311), so these two must be there. *)
Definition read_series (v : json) : option series_data :=
  match v with
  | JObj fields =>
      match dict_get "name" fields, dict_get "role_id" fields with
      | Some n, Some r =>
          match str_of_json n,
                option_of_json str_of_json (get_or_null "last_seen_ts" fields),
                option_of_json int_of_json r with
          | Some n, Some t, Some r =>
              Some {| name := n; last_seen_ts := t; role_id := r |}
          | _, _, _ => None
          end
      | _, _ => None
      end
  | _ => None
  end.

(** "announce_channel_id" is read with [get] and "tracked_series" with
    [get("tracked_series", {})] or [setdefault("tracked_series", {})]:
    either may be absent. *)
Definition read_guild (v : json) : option guild_data :=
  match v with
  | JObj fields =>
      match option_of_json int_of_json (get_or_null "announce_channel_id" fields),
            match dict_get "tracked_series" fields with
            | Some (JObj series) => read_dict read_series series
            | Some _ => None
            | None => Some []
            end with
      | Some c, Some t => Some {| announce_channel_id := c; tracked_series := t |}
      | _, _ => None
      end
  | _ => None
  end.

(** [get_guild_data] puts "guilds" in when it is absent (lines 58-59). *)
Definition read_data (v : json) : option Data :=
  match v with
  | JObj fields =>
      match dict_get "guilds" fields with
      | Some (JObj gs) =>
          match read_dict read_guild gs with
          | Some g => Some {| guilds := g |}
          | None => None
          end
      | Some _ => None
      | None => Some {| guilds := [] |}
      end
  | _ => None
  end.

(** ** The world around the bot *)

(** how [channel.send] ends: normally, with [discord.Forbidden], or with
    another exception *)
Inductive send_result : Type :=
| Sent
| Forbidden
| SendFailed.

(** how [save_data] ends: the file is written; [open] fails and the file is
    as before; or the write fails after [open] emptied the file, with
    [written] characters of the text in it *)
Inductive write_result : Type :=
| Written
| OpenFailed
| WriteFailed (written : nat).

Inductive event : Type :=
| Requested (manga_id : string)
| SendAttempt (channel_id : Z) (msg : string) (r : send_result)
| WriteAttempt (r : write_result).

(** [bot_data.json]: absent, or holding a text *)
Inductive disk_state : Type :=
| NoFile
| File (text : string).

(** The environment of one run of [check_releases].  The [nat] is the clock:
    the number of effects recorded so far. *)
Record Env : Type := MkEnv {
  (** [bot.guilds], as guild ids *)
  bot_guilds : list Z;
  (** whether [bot.get_channel] or else [bot.fetch_channel] gives a channel *)
  find_channel : Z -> bool;
  (** the decoded response of the GET request; [None] when the request,
      [raise_for_status] or the decoding raises *)
  session_get : nat -> string -> option json;
  channel_send : nat -> Z -> string -> send_result;
  file_write : nat -> write_result
}.

Record World : Type := MkWorld {
  data : Data;
  disk : disk_state;
  log : list event
}.

Definition clock (w : World) : nat := List.length (log w).

Definition record_event (e : event) (w : World) : World :=
  {| data := data w; disk := disk w; log := (log w ++ [e])%list |}.

Definition with_data (d : Data) (w : World) : World :=
  {| data := d; disk := disk w; log := log w |}.

Definition with_disk (f : disk_state) (w : World) : World :=
  {| data := data w; disk := f; log := log w |}.

(** the messages that reached a channel, oldest first *)
Fixpoint delivered (l : list event) : list (Z * string) :=
  match l with
  | [] => []
  | SendAttempt c m Sent :: l' => (c, m) :: delivered l'
  | _ :: l' => delivered l'
  end.

(** the number of calls of [channel.send] *)
Fixpoint send_attempts (l : list event) : nat :=
  match l with
  | [] => O
  | SendAttempt _ _ _ :: l' => S (send_attempts l')
  | _ :: l' => send_attempts l'
  end.

(** Computations: they read the environment, change the world, and end
    normally or with an exception. *)
Definition M (A : Type) : Type := Env -> World -> result A * World.

Definition ret {A} (a : A) : M A := fun _ w => (Ok a, w).

Definition bind {A B} (m : M A) (k : A -> M B) : M B :=
  fun env w =>
    match m env w with
    | (Ok a, w') => k a env w'
    | (Raise e, w') => (Raise e, w')
    end.

(** [try: m / except Exception: ...]: the exception becomes a value *)
Definition try {A} (m : M A) : M (result A) :=
  fun env w => let (r, w') := m env w in (Ok r, w').

Definition modify_data (f : Data -> Data) : M unit :=
  fun _ w => (Ok tt, with_data (f (data w)) w).

Declare Scope M_scope.
Delimit Scope M_scope with M.
Notation "x <- m ;; k" := (bind m (fun x => k))
  (at level 61, m at next level, right associativity) : M_scope.
Notation "m ;; k" := (bind m (fun _ => k))
  (at level 61, right associativity) : M_scope.

(** [for x in l: body(x)] *)
Fixpoint for_each {A} (l : list A) (body : A -> M unit) : M unit :=
  match l with
  | [] => ret tt
  | x :: l' => (body x ;; for_each l' body)%M
  end.

(** ** Storage *)

(** [load_data], lines 23-27.  [json.load] raises a [ValueError] for a text
    it cannot read.  The code returns the document as [json.load] gives
    it; here it is read into the records of the state, in which a key that
    the code reads with [get] or puts in itself may be absent.  Any other
    document (one that is not a dictionary, a series without "name", a
    value of another type) has no counterpart in the records: the code
    goes on with it until a use fails, if one does, while [load_data] ends
    here with [TypeError] at once, and nothing is concluded from that
    outcome.  Keys that the code never reads are not kept. *)
Definition load_data (f : disk_state) : result Data :=
  match f with
  | NoFile => Ok {| guilds := [] |}
  | File text =>
      match JsonText.loads text with
      | Some doc =>
          match read_data doc with
          | Some d => Ok d
          | None => Raise TypeError
          end
      | None => Raise ValueError
      end
  end.

(** [save_data(data)], lines 30-32 *)
Definition save_data : M unit :=
  fun env w =>
    let r := file_write env (clock w) in
    let w' := record_event (WriteAttempt r) w in
    let text := JsonText.dumps (dump_data (data w)) in
    match r with
    | Written => (Ok tt, with_disk (File text) w')
    | OpenFailed => (Raise OSError, w')
    | WriteFailed written =>
        (Raise OSError, with_disk (File (String.substring 0 written text)) w')
    end.

(** [get_guild_data], lines 56-65: the entry of the guild, made on first
    use.  The key is the text of the id. *)
Definition get_guild_data (guild_id : Z) : M guild_data :=
  fun _ w =>
    let gid := PyStr.of_int guild_id in
    match dict_get gid (guilds (data w)) with
    | Some gdata => (Ok gdata, w)
    | None =>
        let gdata := {| announce_channel_id := None; tracked_series := [] |} in
        (Ok gdata,
         with_data {| guilds := dict_set gid gdata (guilds (data w)) |} w)
    end.

(** ** The background task *)

Section Task.

Context {rt : Runtime}.

(** [fetch_latest_for_series], lines 95-158 *)
Definition fetch_latest_for_series (manga_id : string) (since_ts : option string)
  : M (list chapter) :=
  fun env w =>
    let w' := record_event (Requested manga_id) w in
    match session_get env (clock w) manga_id with
    | Some payload => (chapters_of_payload payload since_ts, w')
    | None => (Raise ClientError, w')
    end.

(** [bot.get_channel(channel_id)], and [bot.fetch_channel] when that
    gives nothing: whether a channel was found *)
Definition get_channel (channel_id : Z) : M bool :=
  fun env w => (Ok (find_channel env channel_id), w).

(** [await channel.send(msg)] *)
Definition send (channel_id : Z) (msg : string) : M send_result :=
  fun env w =>
    let r := channel_send env (clock w) channel_id msg in
    (Ok r, record_event (SendAttempt channel_id msg r) w).

(** the message of lines 221-228 *)
Definition release_message (sdata : series_data) (series_name : string) (ch : chapter)
  : string :=
  let role_mention :=
    match role_id sdata with
    | Some r => if r =? 0 then "" else "<@&" ++ PyStr.of_int r ++ ">"
    | None => ""
    end in
  role_mention ++ " New chapter released!" ++ PyStr.newline ++
  "**" ++ series_name ++ "** - Chapter " ++ format_value (c_chapter ch) ++
  PyStr.newline ++ "Link: " ++ c_url ch.

(** the loop of lines 220-238; it gives the final [latest_ts_for_series] *)
Fixpoint send_new_chapters (channel_id : Z) (sdata : series_data)
    (series_name : string) (new_chapters : list chapter)
    (latest_ts_for_series : option string) : M (option string) :=
  match new_chapters with
  | [] => ret latest_ts_for_series
  | ch :: rest =>
      (r <- send channel_id (release_message sdata series_name ch) ;;
       match r with
       | Sent =>
           send_new_chapters channel_id sdata series_name rest
             (Some (c_readableAt ch))
       | Forbidden => ret latest_ts_for_series
       | SendFailed => ret latest_ts_for_series
       end)%M
  end.

(** the body of the loop over the tracked series, lines 186-242 *)
Definition process_series (gid : string) (channel_id : Z)
    (series_id : string) (sdata : series_data) : M unit :=
  let last_seen_ts := last_seen_ts sdata in
  let series_name := name sdata in
  if negb (truthy_str last_seen_ts) then
    (fetched <- try (fetch_latest_for_series series_id None) ;;
     match fetched with
     | Raise _ => ret tt
     | Ok all_recent =>
         match last_item all_recent with
         | Some latest =>
             modify_data
               (set_tracked gid series_id
                  (with_last_seen_ts (Some (c_readableAt latest)) sdata)) ;;
             save_data
         | None => ret tt
         end
     end)%M
  else
    (fetched <- try (fetch_latest_for_series series_id last_seen_ts) ;;
     match fetched with
     | Raise _ => ret tt
     | Ok [] => ret tt
     | Ok new_chapters =>
         latest_ts_for_series <-
           send_new_chapters channel_id sdata series_name new_chapters
             last_seen_ts ;;
         if truthy_str latest_ts_for_series
         then modify_data
                (set_tracked gid series_id
                   (with_last_seen_ts latest_ts_for_series sdata))
         else ret tt
     end)%M.

(** the body of the loop over the guilds, lines 169-243 *)
Definition process_guild (guild_id : Z) : M unit :=
  (gdata <- get_guild_data guild_id ;;
   match announce_channel_id gdata with
   | None => ret tt
   | Some channel_id =>
       if channel_id =? 0 then ret tt
       else
         found <- get_channel channel_id ;;
         if negb (found : bool) then ret tt
         else
           match tracked_series gdata with
           | [] => ret tt
           | tracked =>
               for_each tracked
                 (fun item =>
                    process_series (PyStr.of_int guild_id) channel_id
                      (fst item) (snd item)) ;;
               save_data
           end
   end)%M.

(** [check_releases], lines 163-243: one run of the task *)
Definition check_releases : M unit :=
  fun env => for_each (bot_guilds env) process_guild env.

(** Runs of the task, one environment each.  A run that ends with an
    exception leaves the world as it was at that point. *)
Fixpoint run_cycles (envs : list Env) (w : World) : World :=
  match envs with
  | [] => w
  | env :: envs' => run_cycles envs' (snd (check_releases env w))
  end.

End Task.

(** ** The [!track] command *)

(** [extract_mangadex_id], lines 271-283 *)
Definition extract_mangadex_id (series_arg : string) : string :=
  if PyStr.contains "mangadex.org" series_arg then
    match find (fun part => PyStr.contains "-" part && (8 <=? PyStr.len part))
               (PyStr.split "/" (PyStr.strip "/" series_arg)) with
    | Some part => part
    | None => series_arg
    end
  else series_arg.

(** what the command answers with [ctx.send] *)
Inductive track_reply : Type :=
| AlreadyTracking (series_id series_name : string) (role : option Z)
| NowTracking (series_name series_id : string) (role : Z).

Definition reply_text (r : track_reply) : string :=
  match r with
  | AlreadyTracking series_id series_name role =>
      "Already tracking `" ++ series_id ++ "` as **" ++ series_name ++
      "** with role <@&" ++
      match role with Some n => PyStr.of_int n | None => "None" end ++ ">."
  | NowTracking series_name series_id role =>
      "Now tracking **" ++ series_name ++ "** (MangaDex ID: `" ++ series_id ++
      "`), pinging role <@&" ++ PyStr.of_int role ++ ">."
  end.

(** [track_series], lines 288-323, for a command sent in guild [guild_id] by
    a member who passed the permission check; [role] is [role.id]. *)
Definition track_series (guild_id : Z) (series_id_or_url : string) (role : Z)
    (series_name : string) : M track_reply :=
  let series_id := extract_mangadex_id series_id_or_url in
  (gdata <- get_guild_data guild_id ;;
   let tracked := tracked_series gdata in
   match dict_get series_id tracked with
   | Some existing =>
       ret (AlreadyTracking series_id (name existing) (role_id existing))
   | None =>
       modify_data
         (set_tracked (PyStr.of_int guild_id) series_id
            {| name := series_name; last_seen_ts := None; role_id := Some role |}) ;;
       save_data ;;
       ret (NowTracking series_name series_id role)
   end)%M.

(** ** Notions of the specification *)

Definition dt_ltb (a b : datetime) : bool :=
  match dt_lt a b with
  | Ok r => r
  | Raise _ => false
  end.

Definition dt_leb (a b : datetime) : bool :=
  match dt_le a b with
  | Ok r => r
  | Raise _ => false
  end.

(** [a == b]: a naive and an aware value are never equal *)
Definition dt_eqb (a b : datetime) : bool :=
  match a, b with
  | Naive x, Naive y => x =? y
  | Aware x, Aware y => x =? y
  | _, _ => false
  end.

(** whether two dates can be ordered *)
Definition same_kind (a b : datetime) : bool :=
  match a, b with
  | Naive _, Naive _ => true
  | Aware _, Aware _ => true
  | _, _ => false
  end.

Section Notions.

Context {rt : Runtime}.

(** [a] was published no later than [b] *)
Definition chapter_leb (a b : chapter) : bool :=
  match parse_iso (c_readableAt a), parse_iso (c_readableAt b) with
  | Ok x, Ok y => dt_leb x y
  | _, _ => false
  end.

(** [c] was published strictly after the date [since], and strictly
    after the time [ts] *)
Definition published_after (since : datetime) (c : chapter) : bool :=
  match parse_iso (c_readableAt c) with
  | Ok y => dt_ltb since y
  | Raise _ => false
  end.

Definition newer_than (ts : string) (c : chapter) : bool :=
  match parse_iso ts with
  | Ok x => published_after x c
  | Raise _ => false
  end.

(** [c] was published at the time [d] *)
Definition published_at (d : datetime) (c : chapter) : bool :=
  match parse_iso (c_readableAt c) with
  | Ok y => dt_eqb d y
  | Raise _ => false
  end.

(** The time [t'] is not earlier than the time [t]: the same text, or a
    strictly later date. *)
Definition ts_leb (t t' : string) : bool :=
  String.eqb t t' ||
  match parse_iso t, parse_iso t' with
  | Ok x, Ok y => dt_ltb x y
  | _, _ => false
  end.

(** The watermark [new] is not earlier than the watermark [old]: a
    watermark that is set stays set, at a time that is not earlier.  An
    empty text counts as not set, as it does for the code. *)
Definition wm_leb (old new : option string) : bool :=
  if truthy_str old then
    match old, new with
    | Some t, Some t' => PyStr.nonempty t' && ts_leb t t'
    | _, _ => false
    end
  else true.

End Notions.

(** the identifier and the publish timestamp of an item of the response *)
Definition item_id (item : json) : json :=
  match item with
  | JObj fields =>
      match dict_get "id" fields with
      | Some v => v
      | None => JNull
      end
  | _ => JNull
  end.

Definition item_readableAt (item : json) : json :=
  match item with
  | JObj fields =>
      match dict_get "attributes" fields with
      | Some (JObj attr) =>
          match dict_get "readableAt" attr with
          | Some v => v
          | None => JNull
          end
      | _ => JNull
      end
  | _ => JNull
  end.

(** the chapter label of an item, [None] when it has none *)
Definition item_chapter (item : json) : json :=
  match item with
  | JObj fields =>
      match dict_get "attributes" fields with
      | Some (JObj attr) =>
          match dict_get "chapter" attr with
          | Some v => v
          | None => JNull
          end
      | _ => JNull
      end
  | _ => JNull
  end.

(** an item that lacks neither *)
Definition usable (item : json) : bool :=
  truthy (item_id item) && truthy (item_readableAt item).

(** an item that lacks one of them and can be dropped on its own: a
    dictionary whose "attributes", when present, is a dictionary *)
Definition droppable (item : json) : bool :=
  match item with
  | JObj fields =>
      match dict_get "attributes" fields with
      | None => true
      | Some (JObj _) => negb (usable item)
      | Some _ => false
      end
  | _ => false
  end.

(** the items of a response: [payload.get("data", [])], iterated *)
Definition response_items (payload : json) : result (list json) :=
  (items <- py_get payload "data" (JArr []) ;; py_iter items)%result.

Section KeptFrom.

Context {rt : Runtime}.

(** what holds of a chapter kept from [items] with the bound [since_dt] *)
Definition kept_from (since_dt : option datetime) (items : list json) (c : chapter)
  : Prop :=
  PyStr.nonempty (c_readableAt c) = true /\
  (exists d, parse_iso (c_readableAt c) = Ok d /\
             match since_dt with
             | Some since => dt_le d since = Ok false
             | None => True
             end) /\
  (exists item, In item items /\ usable item = true /\
                c_id c = item_id item /\
                JStr (c_readableAt c) = item_readableAt item).

End KeptFrom.

(** the order of the keyed list that [list.sort] works on *)
Definition key_le {A} (p q : datetime * A) : Prop := dt_leb (fst p) (fst q) = true.

(** the dictionaries of [data] are dictionaries: no guild and no series of
    a guild is there twice *)
Definition wf_data (d : Data) : bool :=
  distinct (dict_keys (guilds d)) &&
  forallb (fun g => distinct (dict_keys (tracked_series (snd g)))) (guilds d).

(** [d'] comes after [d]: no watermark of [d'] is earlier than it is in
    [d], and [d'] tracks no series twice *)
Definition advances {rt : Runtime} (d d' : Data) : Prop :=
  wf_data d' = true /\
  forall gid series_id,
    wm_leb (watermark gid series_id d) (watermark gid series_id d') = true.

(** The run from [w] to [w'] stopped at a write that failed: that write is
    the last effect recorded. *)
Definition ends_at_failed_write (env : Env) (w w' : World) : Prop :=
  exists l,
    log w' =
      (log w ++ l ++ [WriteAttempt (file_write env (clock w + List.length l))])%list /\
    file_write env (clock w + List.length l) <> Written.

(** [m] only adds to the log, and raises nothing but the [OSError] of a
    failed write, at once *)
Definition raises_only_at_write {A} (m : M A) : Prop :=
  forall env w,
    (exists l, log (snd (m env w)) = (log w ++ l)%list) /\
    forall e, fst (m env w) = Raise e ->
              e = OSError /\ ends_at_failed_write env w (snd (m env w)).






(** ** A runtime for the examples *)

Module Example.

Definition digit (c : ascii) : option Z :=
let n := Z.of_nat (nat_of_ascii c) in
if (48 <=? n) && (n <=? 57) then Some (n - 48) else None.

Fixpoint number_from (acc : Z) (s : string) : option Z :=
match s with
| EmptyString => Some acc
| String c s' =>
match digit c with
| Some d => number_from (10 * acc + d) s'
| None => None
end
end.

(** the number written with [n] digits at position [i] of [s] *)
Definition field (i n : nat) (s : string) : option Z :=
let t := String.substring i n s in
if Nat.eqb (String.length t) n then number_from 0 t else None.

Definition is_leap (y : Z) : bool :=
((y mod 4 =? 0) && negb (y mod 100 =? 0)) || (y mod 400 =? 0).

Definition days_in_month (y m : Z) : Z :=
if m =? 2 then (if is_leap y then 29 else 28)
else if (m =? 4) || (m =? 6) || (m =? 9) || (m =? 11) then 30
else 31.

(** days from 1970-01-01 to the given day of the Gregorian calendar *)
Definition days_from_civil (y m d : Z) : Z :=
let y' := if m <=? 2 then y - 1 else y in
let era := y' / 400 in
let yoe := y' - era * 400 in
let mp := if 2 <? m then m - 3 else m + 9 in
let doy := (153 * mp + 2) / 5 + d - 1 in
let doe := yoe * 365 + yoe / 4 - yoe / 100 + doy in
era * 146097 + doe - 719468.

Definition in_range (lo hi x : Z) : bool := (lo <=? x) && (x <=? hi).

Definition separator (i : nat) (c : string) (s : string) : bool :=
String.eqb (String.substring i 1 s) c.

(** the seconds of "YYYY-MM-DDTHH:MM:SS" at the start of [s] *)
Definition local_seconds (s : string) : option Z :=
match field 0 4 s, field 5 2 s, field 8 2 s,
  field 11 2 s, field 14 2 s, field 17 2 s with
| Some y, Some m, Some d, Some hh, Some mm, Some ss =>
if separator 4 "-" s && separator 7 "-" s && separator 10 "T" s &&
   separator 13 ":" s && separator 16 ":" s &&
   in_range 1 9999 y && in_range 1 12 m &&
   in_range 1 (days_in_month y m) d &&
   in_range 0 23 hh && in_range 0 59 mm && in_range 0 59 ss
then Some (days_from_civil y m d * 86400 + hh * 3600 + mm * 60 + ss)
else None
| _, _, _, _, _, _ => None
end.

(** the seconds of the offset "+HH:MM" or "-HH:MM" at position 19 *)
Definition offset_seconds (s : string) : option Z :=
match field 20 2 s, field 23 2 s with
| Some hh, Some mm =>
if separator 22 ":" s && in_range 0 23 hh && in_range 0 59 mm then
  if separator 19 "+" s then Some (hh * 3600 + mm * 60)
  else if separator 19 "-" s then Some (- (hh * 3600 + mm * 60))
  else None
else None
| _, _ => None
end.

(** [datetime.fromisoformat] on the two forms "YYYY-MM-DDTHH:MM:SS" and
"YYYY-MM-DDTHH:MM:SS+HH:MM" (or "-HH:MM"); every other text is
refused. *)
Definition iso_datetime (s : string) : option datetime :=
match local_seconds s with
| Some t =>
if Nat.eqb (String.length s) 19 then Some (Naive (t * 1000000))
else if Nat.eqb (String.length s) 25 then
  match offset_seconds s with
  | Some off => Some (Aware ((t - off) * 1000000))
  | None => None
  end
else None
| None => None
end.

(** [str] of a value: a string is its own text, an integer its decimal
digits, [None], [True] and [False] their names.  The text of a list
or of a dictionary is not needed in the examples. *)
Definition text_of (v : json) : string :=
match v with
| JNull => "None"
| JBool true => "True"
| JBool false => "False"
| JNum n => PyStr.of_int n
| JStr s => s
| JArr _ => "[...]"
| JObj _ => "{...}"
end.

#[export] Instance runtime : Runtime :=
{| fromisoformat := iso_datetime;
 format_value := text_of |}.

(** *** Responses of the index *)

Definition item (id readable_at chapter_num : string) : json :=
JObj [("id", JStr id);
  ("attributes",
   JObj [("chapter", JStr chapter_num); ("readableAt", JStr readable_at)])].

Definition chapter_of (id readable_at chapter_num : string) : chapter :=
{| c_id := JStr id;
 c_chapter := JStr chapter_num;
 c_url := "https://mangadex.org/chapter/" ++ id;
 c_readableAt := readable_at |}.

Definition response (items : list json) : json :=
JObj [("result", JStr "ok"); ("data", JArr items)].

Definition may_1 : string := "2024-05-01T00:00:00Z".

(** newest first apart from one swap, with one chapter published at the
watermark [may_1] and one before it *)
Definition unordered : json :=
response [item "c" "2024-05-04T00:00:00+00:00" "12";
      item "a" "2024-05-02T00:00:00+00:00" "10";
      item "b" "2024-05-03T00:00:00+00:00" "11";
      item "w" "2024-05-01T00:00:00+00:00" "9";
      item "v" "2024-04-30T00:00:00+00:00" "8"].

(** the chapters of [unordered], oldest first *)
Definition unordered_sorted : list chapter :=
[chapter_of "v" "2024-04-30T00:00:00+00:00" "8";
 chapter_of "w" "2024-05-01T00:00:00+00:00" "9";
 chapter_of "a" "2024-05-02T00:00:00+00:00" "10";
 chapter_of "b" "2024-05-03T00:00:00+00:00" "11";
 chapter_of "c" "2024-05-04T00:00:00+00:00" "12"].

(** two chapters published at the same time, in both orders *)
Definition tie_b_a : json :=
response [item "b" "2024-05-02T00:00:00+00:00" "10.5";
      item "a" "2024-05-02T00:00:00+00:00" "10"].

Definition tie_a_b : json :=
response [item "a" "2024-05-02T00:00:00+00:00" "10";
      item "b" "2024-05-02T00:00:00+00:00" "10.5"].

(** a response with items that lack the identifier, the attributes or the
timestamp *)
Definition items_with_gaps : list json :=
[JObj [("attributes", JObj [("readableAt", JStr "2024-05-05T00:00:00+00:00")])];
 item "a" "2024-05-02T00:00:00+00:00" "10";
 JObj [("id", JStr "x")];
 JObj [("id", JStr "y"); ("attributes", JObj [("readableAt", JNull)])]].

Definition with_gaps : json := response items_with_gaps.

(** *** Worlds *)

Definition series (series_name : string) (ts : option string) (role : Z)
: series_data :=
{| name := series_name; last_seen_ts := ts; role_id := Some role |}.

(** guild 1 announces in channel 50 and tracks S1, primed at [may_1] *)
Definition one_guild : Data :=
{| guilds :=
 [("1", {| announce_channel_id := Some 50;
           tracked_series := [("S1", series "Series One" (Some may_1) 7)] |})] |}.

Definition world_of (d : Data) : World :=
{| data := d; disk := NoFile; log := [] |}.

(** an environment in which every request is answered by [payload], every
message is delivered and every write succeeds *)
Definition calm (gs : list Z) (payload : json) : Env :=
{| bot_guilds := gs;
 find_channel := fun _ => true;
 session_get := fun _ _ => Some payload;
 channel_send := fun _ _ _ => Sent;
 file_write := fun _ => Written |}.

(** two chapters after [may_1], newest first as the index lists them *)
Definition two_new : json :=
response [item "b" "2024-05-03T00:00:00+00:00" "11";
        item "a" "2024-05-02T00:00:00+00:00" "10"].

(** the first message is delivered, the second one is forbidden *)
Definition second_forbidden : Env :=
{| bot_guilds := [1];
 find_channel := fun _ => true;
 session_get := fun _ _ => Some two_new;
 channel_send := fun n _ _ => if (n <=? 1)%nat then Sent else Forbidden;
 file_write := fun _ => Written |}.

(** guild 1 tracks S1, not primed yet *)
Definition unprimed_guild : Data :=
{| guilds :=
   [("1", {| announce_channel_id := Some 50;
             tracked_series := [("S1", series "Series One" None 7)] |})] |}.



End Example.

(** ** The other commands *)

(** [d.pop(k)] for a key [k] of [d]: the dictionary without it *)
Fixpoint dict_pop {V} (k : string) (d : dict V) : dict V :=
  match d with
  | [] => []
  | (k', v) :: d' => if String.eqb k k' then d' else (k', v) :: dict_pop k d'
  end.

(** [gdata["tracked_series"].pop(series_id)] for the [gdata] of [gid] *)
Definition pop_tracked (gid series_id : string) (d : Data) : Data :=
  match dict_get gid (guilds d) with
  | Some gdata =>
      {| guilds :=
           dict_set gid
             {| announce_channel_id := announce_channel_id gdata;
                tracked_series := dict_pop series_id (tracked_series gdata) |}
             (guilds d) |}
  | None => d
  end.

(** [gdata["announce_channel_id"] = channel] for the [gdata] of [gid] *)
Definition set_channel (gid : string) (channel : Z) (d : Data) : Data :=
  match dict_get gid (guilds d) with
  | Some gdata =>
      {| guilds :=
           dict_set gid
             {| announce_channel_id := Some channel;
                tracked_series := tracked_series gdata |}
             (guilds d) |}
  | None => d
  end.

(** what [!set_announce_channel] answers; [channel.mention] is the text
    of the channel id between "<#" and ">" *)
Inductive channel_reply : Type :=
| ChannelSet (channel : Z).

Definition channel_reply_text (r : channel_reply) : string :=
  match r with
  | ChannelSet channel =>
      "Announcement channel set to <#" ++ PyStr.of_int channel ++ ">."
  end.

(** [ctx.guild.id]: [guild] is the id of [ctx.guild], [None] in a direct
    message, where [ctx.guild] is [None] and has no [id].  The check
    [is_staff_or_owner] lets the owner of the application through in a
    direct message, so the commands are reached there. *)
Definition guild_id_of (guild : option Z) : M Z :=
  fun _ w =>
    match guild with
    | Some guild_id => (Ok guild_id, w)
    | None => (Raise AttributeError, w)
    end.

(** [set_announce_channel], lines 262-268, for an author who passed the
    permission check; [channel] is [channel.id]. *)
Definition set_announce_channel (guild : option Z) (channel : Z)
  : M channel_reply :=
  (guild_id <- guild_id_of guild ;;
   get_guild_data guild_id ;;
   modify_data (set_channel (PyStr.of_int guild_id) channel) ;;
   save_data ;;
   ret (ChannelSet channel))%M.

(** what [!untrack] answers *)
Inductive untrack_reply : Type :=
| NotTracked (series_id : string)
| StoppedTracking (series_name series_id : string).

Definition untrack_reply_text (r : untrack_reply) : string :=
  match r with
  | NotTracked series_id =>
      "Series `" ++ series_id ++ "` is not currently being tracked."
  | StoppedTracking series_name series_id =>
      "Stopped tracking **" ++ series_name ++ "** (ID: `" ++ series_id ++ "`)."
  end.

(** [untrack_series], lines 326-340 *)
Definition untrack_series (guild : option Z) (series_id_or_url : string)
  : M untrack_reply :=
  let series_id := extract_mangadex_id series_id_or_url in
  (guild_id <- guild_id_of guild ;;
   gdata <- get_guild_data guild_id ;;
   let tracked := tracked_series gdata in
   match dict_get series_id tracked with
   | None => ret (NotTracked series_id)
   | Some removed =>
       modify_data (pop_tracked (PyStr.of_int guild_id) series_id) ;;
       save_data ;;
       ret (StoppedTracking (name removed) series_id)
   end)%M.

(** [sep.join(l)] *)
Fixpoint join (sep : string) (l : list string) : string :=
  match l with
  | [] => ""
  | [x] => x
  | x :: l' => x ++ sep ++ join sep l'
  end.

(** One line of [!list_tracked], lines 355-361.  [get_role] gives the
    mention of the role of the guild with the given id, or [None] when the
    guild has no such role. *)
Definition tracked_line (get_role : Z -> option string) (sid : string)
    (sdata : series_data) : string :=
  let last_seen :=
    match last_seen_ts sdata with
    | Some t => if PyStr.nonempty t then t else "none yet"
    | None => "none yet"
    end in
  let role :=
    match role_id sdata with
    | Some r => if r =? 0 then None else get_role r
    | None => None
    end in
  let role_text :=
    match role with
    | Some mention => mention
    | None => "no role"
    end in
  "- **" ++ name sdata ++ "** (ID: `" ++ sid ++ "`, role: " ++ role_text ++
  ", last seen: `" ++ last_seen ++ "`)".

(** what [!list_tracked] answers *)
Inductive list_reply : Type :=
| NoneTracked
| TrackedSeries (lines : list string).

Definition list_reply_text (r : list_reply) : string :=
  match r with
  | NoneTracked => "No series are currently being tracked."
  | TrackedSeries lines =>
      "Tracked series:" ++ PyStr.newline ++ join PyStr.newline lines
  end.

(** [list_tracked], lines 343-363 *)
Definition list_tracked (get_role : Z -> option string) (guild : option Z)
  : M list_reply :=
  (guild_id <- guild_id_of guild ;;
   gdata <- get_guild_data guild_id ;;
   match tracked_series gdata with
   | [] => ret NoneTracked
   | tracked =>
       ret (TrackedSeries
              (map (fun item => tracked_line get_role (fst item) (snd item))
                   tracked))
   end)%M.

(** the message of lines 396-404 *)
Definition test_message (sdata : series_data) (series_name : string) : string :=
  let role_mention :=
    match role_id sdata with
    | Some r => if r =? 0 then "" else "<@&" ++ PyStr.of_int r ++ ">"
    | None => ""
    end in
  role_mention ++ " Test: New chapter released!" ++ PyStr.newline ++
  "**" ++ series_name ++ "** - Chapter 1 (test)" ++ PyStr.newline ++
  "Link: https://example.com".

(** what [!test_release] answers *)
Inductive test_reply : Type :=
| NotInServer
| ChannelNotSet
| ChannelNotFetched
| NothingTracked
| TestSent (series_name : string) (channel_id : Z)
| TestForbidden
| TestFailed.

(** [test_release], lines 366-412; [guild] is the id of [ctx.guild], [None]
    in a direct message *)
Definition test_release (guild : option Z) : M test_reply :=
  match guild with
  | None => ret NotInServer
  | Some guild_id =>
      (gdata <- get_guild_data guild_id ;;
       match announce_channel_id gdata with
       | None => ret ChannelNotSet
       | Some channel_id =>
           if channel_id =? 0 then ret ChannelNotSet
           else
             found <- get_channel channel_id ;;
             if negb (found : bool) then ret ChannelNotFetched
             else
               match tracked_series gdata with
               | [] => ret NothingTracked
               | (series_id, sdata) :: _ =>
                   let series_name := name sdata in
                   r <- send channel_id (test_message sdata series_name) ;;
                   match r with
                   | Sent => ret (TestSent series_name channel_id)
                   | Forbidden => ret TestForbidden
                   | SendFailed => ret TestFailed
                   end
               end
       end)%M
  end.

(** ** The permission check *)

(** [ALLOWED_ROLE_NAMES], line 16 *)
Definition ALLOWED_ROLE_NAMES : list string := ["Admin"; "Moderator"; "Staff"].

(** What the check reads of [ctx]: [ctx.guild.owner_id] when the command
    comes from a guild (the owner may be unknown), [ctx.author.id], and the
    names of the roles of the author when the author is a
    [discord.Member]. *)
Record context : Type := Context {
  guild_owner : option (option Z);
  author_id : Z;
  member_roles : option (list string)
}.

Inductive check_exn : Type :=
| CheckFailure
| HTTPException.

Inductive check_result : Type :=
| Returns (b : bool)
| Fails (e : check_exn).

(** [predicate] of [is_staff_or_owner], lines 69-82.  [application_owner]
    is [app_info.owner.id], [None] when [bot.application_info()] raises. *)
Definition predicate (application_owner : option Z) (ctx : context)
  : check_result :=
  if match guild_owner ctx with
     | Some (Some owner_id) => author_id ctx =? owner_id
     | _ => false
     end
  then Returns true
  else
    match guild_owner ctx with
    | None =>
        match application_owner with
        | Some owner => Returns (author_id ctx =? owner)
        | None => Fails HTTPException
        end
    | Some _ =>
        if match member_roles ctx with
           | Some role_names =>
               existsb (fun allowed => existsb (String.eqb allowed) role_names)
                 ALLOWED_ROLE_NAMES
           | None => false
           end
        then Returns true
        else Fails CheckFailure
    end.

(** ** Further notions *)

(** the series asked of the index, oldest request first *)
Fixpoint requests (l : list event) : list string :=
  match l with
  | [] => []
  | Requested manga_id :: l' => manga_id :: requests l'
  | _ :: l' => requests l'
  end.

(** the channels of the calls of [channel.send] *)
Fixpoint send_channels (l : list event) : list Z :=
  match l with
  | [] => []
  | SendAttempt channel_id _ _ :: l' => channel_id :: send_channels l'
  | _ :: l' => send_channels l'
  end.

(** the number of attempts to write the file *)
Fixpoint write_attempts (l : list event) : nat :=
  match l with
  | [] => O
  | WriteAttempt _ :: l' => S (write_attempts l')
  | _ :: l' => write_attempts l'
  end.

(** what the commands set: for each guild its channel and, for each of
    its series, the name and the role; the watermarks are left out *)
Definition series_settings (tracked : dict series_data)
  : list (string * string * option Z) :=
  map (fun kv => (fst kv, name (snd kv), role_id (snd kv))) tracked.

Definition settings (d : Data)
  : list (string * option Z * list (string * string * option Z)) :=
  map (fun g => (fst g, announce_channel_id (snd g),
                 series_settings (tracked_series (snd g))))
      (guilds d).

(** No beginning of the text of [v] that stops before its end is read as
    a document: nothing is read from it, or, when [v] is a number, a
    number with nothing left over. *)
Definition cut_fails (v : json) : Prop :=
  forall level p c q fuel,
    JsonText.dumps_at level v = p ++ String c q ->
    JsonText.scan_value fuel p = None \/
    exists n n',
      v = JNum n /\ JsonText.scan_value fuel p = Some (JNum n', EmptyString).

(** ** Further examples *)

Module Sample.

(** guild 1 tracks S1 and has no channel *)
Definition no_channel : Data :=
{| guilds :=
   [("1", {| announce_channel_id := None;
             tracked_series :=
               [("S1", Example.series "Series One" (Some Example.may_1) 7)] |})] |}.

(** the index cannot be reached *)
Definition offline (gs : list Z) : Env :=
{| bot_guilds := gs;
 find_channel := fun _ => true;
 session_get := fun _ _ => None;
 channel_send := fun _ _ _ => Sent;
 file_write := fun _ => Written |}.

(** the write of the file stops after [written] characters *)
Definition cut_off (gs : list Z) (written : nat) : Env :=
{| bot_guilds := gs;
 find_channel := fun _ => true;
 session_get := fun _ _ => None;
 channel_send := fun _ _ _ => Sent;
 file_write := fun _ => WriteFailed written |}.

(** a response whose one item has no chapter label *)
Definition unnumbered : json :=
Example.response
  [JObj [("id", JStr "n");
         ("attributes", JObj [("readableAt", JStr "2024-05-02T00:00:00+00:00")])]].

(** an item whose "attributes" is [null]: it has no timestamp *)
Definition null_attributes : json :=
JObj [("id", JStr "q"); ("attributes", JNull)].

(** the two chapters of [Example.two_new], oldest first *)
Definition two_new_sorted : list chapter :=
[Example.chapter_of "a" "2024-05-02T00:00:00+00:00" "10";
 Example.chapter_of "b" "2024-05-03T00:00:00+00:00" "11"].

(** a series whose watermark is not a time *)
Definition stuck : series_data :=
{| name := "Series One"; last_seen_ts := Some "soon"; role_id := Some 7 |}.

(** the address of a title page and the id in it *)
Definition title_id : string := "9a414441-bbad-43f1-a3a7-dc262ca790a3".

Definition title_url : string :=
"https://mangadex.org/title/9a414441-bbad-43f1-a3a7-dc262ca790a3/a-name".

(** the entry of guild 1 in [Example.one_guild] *)
Definition guild_one : guild_data :=
{| announce_channel_id := Some 50;
 tracked_series := [("S1", Example.series "Series One" (Some Example.may_1) 7)] |}.

(** a member of a guild who is not its owner, with the given roles *)
Definition member (roles : list string) : context :=
{| guild_owner := Some (Some 1); author_id := 2; member_roles := Some roles |}.

End Sample.

(** * Verification *)

Unset Implicit Arguments.

(** ** The text of a document is read back *)

Section JsonRoundTrip.

Import JsonText.

Lemma json_induction (P : json -> Prop) :
  P JNull -> (forall b, P (JBool b)) -> (forall n, P (JNum n)) ->
  (forall s, P (JStr s)) ->
  (forall l, Forall P l -> P (JArr l)) ->
  (forall fields, Forall (fun kv => P (snd kv)) fields -> P (JObj fields)) ->
  forall v, P v.
Proof.
  intros Hnull Hbool Hnum Hstr Harr Hobj.
  fix IH 1. intros [| b | n | s | l | fields].
  - apply Hnull.
  - apply Hbool.
  - apply Hnum.
  - apply Hstr.
  - apply Harr. induction l as [|x l IHl]; constructor; [apply IH | exact IHl].
  - apply Hobj. induction fields as [|[k x] fields IHf]; constructor;
      [apply IH | exact IHf].
Qed.

Lemma append_cons c s t : String c s ++ t = String c (s ++ t).
Proof. reflexivity. Qed.

Lemma append_nil_l s : EmptyString ++ s = s.
Proof. reflexivity. Qed.

Lemma append_assoc s t u : (s ++ t) ++ u = s ++ (t ++ u).
Proof. induction s as [|c s IH]; simpl; [reflexivity | now rewrite IH]. Qed.

(** *** Strings *)

Lemma scan_string_escape_char c s :
  scan_string (escape_char c ++ s) =
  match scan_string s with
  | Some (t, rest) => Some (String c t, rest)
  | None => None
  end.
Proof. destruct c as [[] [] [] [] [] [] [] []]; reflexivity. Qed.

Lemma scan_string_escape s rest :
  scan_string (escape s ++ String quote rest) = Some (s, rest).
Proof.
  induction s as [|c s IH]; [reflexivity|].
  simpl escape. rewrite append_assoc, scan_string_escape_char. now rewrite IH.
Qed.

Lemma scan_value_string fuel s rest :
  scan_value (S fuel) (encode_string s ++ rest) = Some (JStr s, rest).
Proof.
  unfold encode_string. rewrite append_cons, append_assoc, append_cons.
  cbn [scan_value starts_with tail]. unfold quote at 1 2. simpl Ascii.eqb. cbv iota.
  change (String "034" rest) with (String quote rest).
  now rewrite scan_string_escape.
Qed.

(** *** Integers *)

Lemma digit_value_char k :
  (k < 10)%N -> digit_value (ascii_of_N (48 + k)) = Some (Z.of_N k).
Proof.
  intros H.
  assert (E : k = N.of_nat (N.to_nat k)) by lia.
  remember (N.to_nat k) as m eqn:Em. assert (Hm : (m < 10)%nat) by lia.
  clear Em H. subst k.
  do 10 (destruct m as [|m]; [reflexivity|]). lia.
Qed.

Lemma scan_digits_stop acc s :
  number_goes_on s = false -> scan_digits acc s = (acc, s).
Proof.
  destruct s as [|c s]; [reflexivity|]. simpl.
  now destruct (digit_value c).
Qed.

(** reading the digits of [n] continues with [n] appended to what was
    read before *)
Lemma scan_digits_digits_of fuel :
  forall n, (n < 10 ^ N.of_nat fuel)%N ->
  exists m, forall acc rest,
    scan_digits acc (PyStr.digits_of fuel n ++ rest) =
    scan_digits (acc * m + Z.of_N n) rest.
Proof.
  induction fuel as [|fuel IH]; intros n Hn.
  - exists 1. intros acc rest. simpl in *.
    assert (n = 0%N) by lia. subst n. simpl. f_equal. lia.
  - cbn [PyStr.digits_of]. destruct (N.ltb_spec n 10) as [Hlt|Hge].
    + exists 10. intros acc rest. rewrite N.mod_small by exact Hlt.
      rewrite append_cons. cbn [scan_digits].
      rewrite (digit_value_char n Hlt). simpl append. f_equal. lia.
    + destruct (IH (n / 10)%N) as [m Hm].
      { apply N.Div0.div_lt_upper_bound.
        rewrite Nat2N.inj_succ, N.pow_succ_r' in Hn. exact Hn. }
      exists (10 * m). intros acc rest.
      rewrite append_assoc, Hm, append_cons. cbn [scan_digits].
      rewrite digit_value_char by (apply N.mod_lt; lia).
      simpl append. f_equal.
      rewrite (N.div_mod n 10) at 3 by lia.
      rewrite N2Z.inj_add, N2Z.inj_mul. simpl Z.of_N at 2. lia.
Qed.

(** the first digit of a positive number is not 0 *)
Lemma digits_of_first fuel :
  forall n, (1 <= n < 10 ^ N.of_nat fuel)%N ->
  exists k s, (1 <= k < 10)%N /\
              PyStr.digits_of fuel n = String (ascii_of_N (48 + k)) s.
Proof.
  induction fuel as [|fuel IH]; intros n Hn.
  - simpl in Hn. lia.
  - cbn [PyStr.digits_of]. destruct (N.ltb_spec n 10) as [Hlt|Hge].
    + exists n, EmptyString. rewrite N.mod_small by exact Hlt. split; [lia | reflexivity].
    + destruct (IH (n / 10)%N) as (k & s & Hk & ->).
      { split.
        - apply N.div_le_lower_bound; lia.
        - apply N.Div0.div_lt_upper_bound.
          rewrite Nat2N.inj_succ, N.pow_succ_r' in Hn. apply Hn. }
      exists k, (s ++ String (ascii_of_N (48 + n mod 10)) EmptyString).
      split; [exact Hk | reflexivity].
Qed.

Lemma size_nat_bound p : (N.pos p < 10 ^ N.of_nat (Pos.size_nat p))%N.
Proof.
  apply N.lt_le_trans with (2 ^ N.of_nat (Pos.size_nat p))%N.
  - induction p as [p IH|p IH|]; cbn [Pos.size_nat];
      rewrite ?Nat2N.inj_succ, ?N.pow_succ_r'.
    + change (N.pos p~1) with (2 * N.pos p + 1)%N. lia.
    + change (N.pos p~0) with (2 * N.pos p)%N. lia.
    + reflexivity.
  - apply N.pow_le_mono_l. lia.
Qed.

Lemma scan_value_digit fuel c d s :
  digit_value c = Some d ->
  scan_value (S fuel) (String c s) =
  match scan_number (String c s) with
  | Some (n, rest) => Some (JNum n, rest)
  | None => None
  end.
Proof.
  destruct c as [[] [] [] [] [] [] [] []]; try discriminate; intros _; reflexivity.
Qed.

Lemma scan_natural_digit c d s :
  digit_value c = Some d ->
  scan_natural (String c s) = Some (if d =? 0 then (0, s) else scan_digits d s).
Proof. unfold scan_natural. now intros ->. Qed.

Lemma digit_not_minus c d : digit_value c = Some d -> Ascii.eqb c "-" = false.
Proof. destruct c as [[] [] [] [] [] [] [] []]; try discriminate; reflexivity. Qed.

Lemma digit_not_space c d : digit_value c = Some d -> is_space c = false.
Proof. destruct c as [[] [] [] [] [] [] [] []]; try discriminate; reflexivity. Qed.

Lemma digit_not_bracket c d : digit_value c = Some d -> Ascii.eqb c "]" = false.
Proof. destruct c as [[] [] [] [] [] [] [] []]; try discriminate; reflexivity. Qed.

(** the digits of a positive number, read back *)
Lemma scan_natural_digits p rest :
  number_goes_on rest = false ->
  exists c d s,
    PyStr.digits_of (Pos.size_nat p) (N.pos p) = String c s /\
    digit_value c = Some d /\
    scan_natural (String c s ++ rest) = Some (Z.pos p, rest).
Proof.
  intros Hrest.
  pose proof (size_nat_bound p) as Hp.
  destruct (digits_of_first (Pos.size_nat p) (N.pos p)) as (k & s & Hk & E);
    [lia|].
  destruct (scan_digits_digits_of (Pos.size_nat p) (N.pos p) Hp) as [m Hm].
  exists (ascii_of_N (48 + k)), (Z.of_N k), s.
  assert (Hd : digit_value (ascii_of_N (48 + k)) = Some (Z.of_N k))
    by (apply digit_value_char; lia).
  split; [exact E|]. split; [exact Hd|].
  rewrite append_cons, (scan_natural_digit _ _ _ Hd).
  destruct (Z.eqb_spec (Z.of_N k) 0) as [E0|_]; [lia|].
  specialize (Hm 0 rest). rewrite E, append_cons in Hm.
  cbn [scan_digits] in Hm. rewrite Hd in Hm.
  replace (10 * 0 + Z.of_N k) with (Z.of_N k) in Hm by lia.
  rewrite Hm. simpl Z.of_N. rewrite scan_digits_stop by exact Hrest.
  reflexivity.
Qed.

Lemma scan_value_of_int fuel n rest :
  number_goes_on rest = false ->
  scan_value (S fuel) (PyStr.of_int n ++ rest) = Some (JNum n, rest).
Proof.
  intros Hrest. destruct n as [|p|p]; cbn [PyStr.of_int].
  - rewrite append_cons.
    rewrite (scan_value_digit fuel "0" 0) by reflexivity.
    unfold scan_number. simpl Ascii.eqb. cbv iota.
    rewrite (scan_natural_digit "0" 0) by reflexivity. simpl.
    now rewrite Hrest.
  - destruct (scan_natural_digits p rest Hrest) as (c & d & s & -> & Hd & Hscan).
    rewrite append_cons, (scan_value_digit fuel c d) by exact Hd.
    unfold scan_number. rewrite (digit_not_minus c d Hd).
    rewrite <- append_cons, Hscan. now rewrite Hrest.
  - destruct (scan_natural_digits p rest Hrest) as (c & d & s & -> & Hd & Hscan).
    rewrite append_cons.
    cbn [scan_value starts_with tail]. unfold quote. simpl Ascii.eqb. cbv iota.
    unfold scan_number. simpl Ascii.eqb. cbv iota.
    rewrite Hscan. now rewrite Hrest.
Qed.

(** *** Line breaks *)

Lemma skip_spaces_spaces n s : skip_spaces (spaces n ++ s) = skip_spaces s.
Proof. induction n as [|n IH]; [reflexivity | exact IH]. Qed.

Lemma skip_spaces_newline_indent level s :
  skip_spaces (newline_indent level ++ s) = skip_spaces s.
Proof. unfold newline_indent. rewrite append_cons. apply skip_spaces_spaces. Qed.

Lemma skip_spaces_none c s :
  is_space c = false -> skip_spaces (String c s) = String c s.
Proof. simpl. now intros ->. Qed.

(** the text of a value starts with a character that is neither a blank
    nor a closing bracket *)
Lemma dumps_at_first level v rest :
  exists c s, dumps_at level v ++ rest = String c s /\
              is_space c = false /\ Ascii.eqb c "]" = false.
Proof.
  destruct v as [| [] | n | t | [|x xs] | [|[k x] kvs]];
    try (eexists _, _; split; [reflexivity | split; reflexivity]).
  destruct n as [|p|p]; cbn [dumps_at PyStr.of_int];
    try (eexists _, _; split; [reflexivity | split; reflexivity]).
  assert (Hend : number_goes_on EmptyString = false) by reflexivity.
  destruct (scan_natural_digits p EmptyString Hend) as (c & d & s & -> & Hd & _).
  exists c, (s ++ rest). split; [reflexivity|].
  split; [eapply digit_not_space | eapply digit_not_bracket]; eauto.
Qed.


(** *** Containers *)

Lemma starts_with_cons c c' s : starts_with c (String c' s) = Ascii.eqb c' c.
Proof. reflexivity. Qed.

Lemma scan_items_dumps level xs :
  Forall reads_back xs -> forallb json_wf xs = true ->
  forall x fuel after rest,
    reads_back x -> json_wf x = true ->
    (size_items (x :: xs) <= fuel)%nat ->
    skip_spaces after = String "]" rest ->
    number_goes_on after = false ->
    scan_items fuel (dumps_at level x ++ items_text level xs ++ after) =
    Some (x :: xs, rest).
Proof.
  induction 1 as [|y ys Hy _ IH]; intros Hwf x fuel after rest Hx Hwx Hfuel Hafter Hend.
  - simpl in Hfuel. destruct fuel as [|fuel]; [lia|].
    cbn [items_text fold_right scan_items]. simpl append.
    rewrite (Hx Hwx fuel level after) by (lia || assumption).
    rewrite Hafter. reflexivity.
  - simpl in Hwf. apply andb_true_iff in Hwf as [Hwy Hwys].
    change (size_items (x :: y :: ys)) with (S (json_size x + size_items (y :: ys)))
      in Hfuel.
    destruct fuel as [|fuel]; [lia|].
    change (items_text level (y :: ys))
      with ("," ++ newline_indent level ++ dumps_at level y ++ items_text level ys).
    cbn [scan_items].
    rewrite !append_assoc, !append_cons.
    rewrite (Hx Hwx fuel level _) by (lia || reflexivity).
    rewrite (skip_spaces_none "," _ eq_refl), !starts_with_cons.
    simpl (Ascii.eqb "," _). cbv iota. cbn [tail].
    rewrite ?append_nil_l.
    rewrite skip_spaces_newline_indent.
    destruct (dumps_at_first level y (items_text level ys ++ after))
      as (c & s & E & Hc & _).
    rewrite E, (skip_spaces_none c s Hc), <- E.
    rewrite (IH Hwys y fuel after rest Hy Hwy) by (lia || assumption).
    reflexivity.
Qed.

Lemma scan_string_encode s rest :
  starts_with quote (encode_string s ++ rest) = true /\
  scan_string (tail (encode_string s ++ rest)) = Some (s, rest).
Proof.
  unfold encode_string. rewrite append_cons, append_assoc, append_cons.
  split; [reflexivity|]. cbn [tail]. apply scan_string_escape.
Qed.

Lemma scan_members_dumps level kvs :
  Forall (fun kv => reads_back (snd kv)) kvs ->
  forallb (fun kv : string * json => let (_, x) := kv in json_wf x) kvs = true ->
  forall k x fuel after rest,
    reads_back x -> json_wf x = true ->
    (size_members ((k, x) :: kvs) <= fuel)%nat ->
    skip_spaces after = String "}" rest ->
    number_goes_on after = false ->
    scan_members fuel
      (encode_string k ++ ": " ++ dumps_at level x ++ members_text level kvs ++ after) =
    Some ((k, x) :: kvs, rest).
Proof.
  induction 1 as [|[k' y] kvs Hy _ IH];
    intros Hwf k x fuel after rest Hx Hwx Hfuel Hafter Hend.
  - simpl in Hfuel. destruct fuel as [|fuel]; [lia|].
    cbn [members_text fold_right scan_members].
    destruct (scan_string_encode k (": " ++ dumps_at level x ++ EmptyString ++ after))
      as [-> ->].
    rewrite !append_cons.
    rewrite (skip_spaces_none ":" _ eq_refl), !starts_with_cons.
    simpl (Ascii.eqb ":" _). cbv iota. cbn [tail].
    rewrite ?append_nil_l.
    destruct (dumps_at_first level x after) as (c & s & E & Hc & _).
    change (skip_spaces (String " " ?s)) with (skip_spaces s).
    rewrite E, (skip_spaces_none c s Hc), <- E.
    rewrite (Hx Hwx fuel level after) by (lia || assumption).
    rewrite Hafter. reflexivity.
  - simpl in Hwf. apply andb_true_iff in Hwf as [Hwy Hwkvs]. simpl in Hy.
    change (size_members ((k, x) :: (k', y) :: kvs))
      with (S (json_size x + size_members ((k', y) :: kvs))) in Hfuel.
    destruct fuel as [|fuel]; [lia|].
    change (members_text level ((k', y) :: kvs))
      with ("," ++ newline_indent level ++ encode_string k' ++ ": " ++
            dumps_at level y ++ members_text level kvs).
    cbn [scan_members].
    destruct (scan_string_encode k
                (": " ++ dumps_at level x ++
                 ("," ++ newline_indent level ++ encode_string k' ++ ": " ++
                  dumps_at level y ++ members_text level kvs) ++ after))
      as [-> ->].
    rewrite !append_assoc, !append_cons.
    rewrite (skip_spaces_none ":" _ eq_refl), !starts_with_cons.
    simpl (Ascii.eqb ":" _). cbv iota. cbn [tail].
    rewrite ?append_nil_l.
    change (skip_spaces (String " " ?s)) with (skip_spaces s).
    destruct (dumps_at_first level x
                (String ","
                   (newline_indent level ++ encode_string k' ++
                    String ":" (String " " (dumps_at level y ++
                                            members_text level kvs ++ after)))))
      as (c & s & E & Hc & _).
    rewrite E, (skip_spaces_none c s Hc), <- E.
    rewrite (Hx Hwx fuel level _) by (lia || reflexivity).
    rewrite (skip_spaces_none "," _ eq_refl), !starts_with_cons.
    simpl (Ascii.eqb "," _). cbv iota. cbn [tail].
    rewrite skip_spaces_newline_indent.
    assert (Hq : forall t, skip_spaces (encode_string k' ++ t) = encode_string k' ++ t)
      by (intros t; unfold encode_string; rewrite append_cons;
          now apply skip_spaces_none).
    rewrite Hq.
    change (String ":" (String " " ?s)) with (": " ++ s).
    rewrite (IH Hwkvs k' y fuel after rest Hy Hwy) by (lia || assumption).
    reflexivity.
Qed.

(** *** Dictionaries read from pairs *)

Lemma distinct_NoDup l : distinct l = true -> NoDup l.
Proof.
  induction l as [|k l IH]; simpl; [constructor|].
  intros H. apply andb_true_iff in H as [H1 H2].
  constructor; [|now apply IH].
  apply negb_true_iff in H1. intros Hin.
  assert (existsb (String.eqb k) l = true); [|congruence].
  apply existsb_exists. exists k. split; [exact Hin | apply String.eqb_refl].
Qed.

Lemma dict_set_fresh {V} k (v : V) d :
  ~ In k (map fst d) -> dict_set k v d = (d ++ [(k, v)])%list.
Proof.
  induction d as [|[k' v'] d IH]; simpl; intros Hk; [reflexivity|].
  destruct (String.eqb_spec k k') as [->|_]; [tauto|].
  rewrite IH by tauto. reflexivity.
Qed.

Lemma fold_dict_set_distinct {V} (l : list (string * V)) :
  forall acc,
    NoDup (map fst (acc ++ l)%list) ->
    fold_left (fun d kv => dict_set (fst kv) (snd kv) d) l acc = (acc ++ l)%list.
Proof.
  induction l as [|[k v] l IH]; intros acc Hnd; simpl.
  - now rewrite app_nil_r.
  - rewrite dict_set_fresh.
    + rewrite IH; rewrite <- app_assoc; [reflexivity | exact Hnd].
    + rewrite map_app in Hnd. simpl in Hnd.
      apply NoDup_remove_2 in Hnd. intros Hin. apply Hnd.
      apply in_or_app. now left.
Qed.

Lemma dict_of_pairs_distinct {V} (l : list (string * V)) :
  distinct (map fst l) = true -> dict_of_pairs l = l.
Proof.
  intros H. unfold dict_of_pairs.
  now rewrite fold_dict_set_distinct by (now apply distinct_NoDup).
Qed.

(** *** The whole document *)

Lemma reads_back_all v : reads_back v.
Proof.
  induction v as [| b | n | s | l IH | fields IH] using json_induction;
    intros Hwf fuel level rest Hfuel Hrest;
    (destruct fuel as [|fuel]; [simpl in Hfuel; lia|]).
  - reflexivity.
  - destruct b; reflexivity.
  - now apply scan_value_of_int.
  - apply scan_value_string.
  - destruct l as [|x xs]; [reflexivity|].
    inversion IH as [|? ? Hx Hxs]; subst.
    simpl in Hwf. apply andb_true_iff in Hwf as [Hwx Hwxs].
    cbn [dumps_at].
    change (fold_right _ EmptyString xs) with (items_text (S level) xs).
    rewrite !append_assoc, !append_cons.
    cbn [scan_value]. rewrite !starts_with_cons.
    unfold quote at 1. simpl (Ascii.eqb "[" _). cbv iota. cbn [tail].
    rewrite ?append_nil_l.
    rewrite skip_spaces_newline_indent.
    destruct (dumps_at_first (S level) x
                (items_text (S level) xs ++ newline_indent level ++ String "]" rest))
      as (c & s & E & Hc & Hb).
    rewrite E, (skip_spaces_none c s Hc), starts_with_cons, Hb, <- E.
    rewrite (scan_items_dumps (S level) xs Hxs Hwxs x fuel
               (newline_indent level ++ String "]" rest) rest Hx Hwx).
    + reflexivity.
    + change (json_size (JArr (x :: xs))) with (S (size_items (x :: xs))) in Hfuel.
      lia.
    + rewrite skip_spaces_newline_indent. now apply skip_spaces_none.
    + reflexivity.
  - destruct fields as [|[k x] kvs]; [reflexivity|].
    inversion IH as [|? ? Hx Hxs]; subst. simpl in Hx.
    simpl in Hwf. apply andb_true_iff in Hwf as [Hkeys Hwf].
    apply andb_true_iff in Hwf as [Hwx Hwxs].
    cbn [dumps_at].
    change (fold_right _ EmptyString kvs) with (members_text (S level) kvs).
    rewrite !append_assoc, !append_cons.
    cbn [scan_value]. rewrite !starts_with_cons.
    unfold quote at 1. simpl (Ascii.eqb "{" _). cbv iota. cbn [tail].
    rewrite ?append_nil_l.
    rewrite skip_spaces_newline_indent.
    assert (Hq : forall t, skip_spaces (encode_string k ++ t) = encode_string k ++ t)
      by (intros t; unfold encode_string; rewrite append_cons;
          now apply skip_spaces_none).
    rewrite Hq.
    assert (Hs : forall t, starts_with "}" (encode_string k ++ t) = false)
      by (intros t; unfold encode_string; now rewrite append_cons).
    rewrite Hs.
    change (String ":" (String " " ?s)) with (": " ++ s).
    rewrite (scan_members_dumps (S level) kvs Hxs Hwxs k x fuel
               (newline_indent level ++ String "}" rest) rest Hx Hwx).
    + rewrite dict_of_pairs_distinct; [reflexivity|].
      simpl. exact Hkeys.
    + change (json_size (JObj ((k, x) :: kvs)))
        with (S (size_members ((k, x) :: kvs))) in Hfuel.
      lia.
    + rewrite skip_spaces_newline_indent. now apply skip_spaces_none.
    + reflexivity.
Qed.

Lemma length_append s t :
  String.length (s ++ t) = (String.length s + String.length t)%nat.
Proof. induction s as [|c s IH]; simpl; [reflexivity | now rewrite IH]. Qed.

Lemma of_int_length n : (1 <= String.length (PyStr.of_int n))%nat.
Proof.
  assert (Hend : number_goes_on EmptyString = false) by reflexivity.
  destruct n as [|p|p]; cbn [PyStr.of_int]; [simpl; lia| |simpl; lia].
  destruct (scan_natural_digits p EmptyString Hend) as (c & d & s & -> & _).
  simpl. lia.
Qed.

(** the text of a value has at least as many characters as the value has
    parts, so the length of a text is fuel enough to read it *)
Lemma json_size_le_length v :
  forall level, (json_size v <= String.length (dumps_at level v))%nat.
Proof.
  induction v as [| b | n | s | l IH | fields IH] using json_induction;
    intros level.
  - simpl. lia.
  - destruct b; simpl; lia.
  - apply of_int_length.
  - simpl. lia.
  - destruct l as [|x xs]; [simpl; lia|].
    inversion IH as [|? ? Hx Hxs]; subst.
    cbn [dumps_at].
    change (fold_right _ EmptyString xs) with (items_text (S level) xs).
    change (json_size (JArr (x :: xs))) with (S (S (json_size x + size_items xs))).
    rewrite !length_append. specialize (Hx (S level)).
    assert (Hitems : (size_items xs <= String.length (items_text (S level) xs))%nat).
    { clear Hx IH. induction Hxs as [|y ys Hy _ IHys]; [simpl; lia|].
      change (size_items (y :: ys)) with (S (json_size y + size_items ys)).
      change (items_text (S level) (y :: ys))
        with ("," ++ newline_indent (S level) ++ dumps_at (S level) y ++
              items_text (S level) ys).
      rewrite !length_append. specialize (Hy (S level)). simpl. lia. }
    simpl. lia.
  - destruct fields as [|[k x] kvs]; [simpl; lia|].
    inversion IH as [|? ? Hx Hxs]; subst. simpl in Hx.
    cbn [dumps_at].
    change (fold_right _ EmptyString kvs) with (members_text (S level) kvs).
    change (json_size (JObj ((k, x) :: kvs)))
      with (S (S (json_size x + size_members kvs))).
    rewrite !length_append. specialize (Hx (S level)).
    assert (Hmembers :
              (size_members kvs <= String.length (members_text (S level) kvs))%nat).
    { clear Hx IH. induction Hxs as [|[k' y] ys Hy _ IHys]; [simpl; lia|].
      change (size_members ((k', y) :: ys)) with (S (json_size y + size_members ys)).
      change (members_text (S level) ((k', y) :: ys))
        with ("," ++ newline_indent (S level) ++ encode_string k' ++ ": " ++
              dumps_at (S level) y ++ members_text (S level) ys).
      rewrite !length_append. simpl in Hy. specialize (Hy (S level)). simpl. lia. }
    simpl. lia.
Qed.

Lemma append_nil_r s : s ++ EmptyString = s.
Proof. induction s as [|c s IH]; simpl; [reflexivity | now rewrite IH]. Qed.

(** What [json.loads] reads from the text that [json.dumps] writes for a
    value whose dictionaries have distinct keys is that value. *)
Lemma loads_dumps v : json_wf v = true -> loads (dumps v) = Some v.
Proof.
  intros Hwf. unfold loads, dumps.
  destruct (dumps_at_first 0%nat v EmptyString) as (c & s & E & Hc & _).
  rewrite append_nil_r in E.
  rewrite E at 2. rewrite (skip_spaces_none c s Hc), <- E.
  rewrite <- (append_nil_r (dumps_at 0 v)) at 2.
  rewrite (reads_back_all v Hwf _ 0%nat EmptyString).
  - reflexivity.
  - pose proof (json_size_le_length v 0%nat). lia.
  - reflexivity.
Qed.

End JsonRoundTrip.

Local Open Scope list_scope.

Arguments parse_iso : simpl never.
Arguments String.append : simpl never.

(** ** Outcomes and dates *)

Lemma rbind_ok {A B} (r : result A) (k : A -> result B) (b : B) :
  rbind r k = Ok b -> exists a, r = Ok a /\ k a = Ok b.
Proof. destruct r as [a|e]; simpl; intros H; [eauto | discriminate]. Qed.

Tactic Notation "rbind_inv" hyp(H) "as" ident(a) ident(Ha) :=
  apply rbind_ok in H; destruct H as (a & Ha & H).

Lemma dt_lt_ok_same_kind a b r : dt_lt a b = Ok r -> same_kind a b = true.
Proof. destruct a, b; simpl; intros; congruence. Qed.

Lemma dt_le_ok_same_kind a b r : dt_le a b = Ok r -> same_kind a b = true.
Proof. destruct a, b; simpl; intros; congruence. Qed.

Lemma same_kind_dt_lt a b : same_kind a b = true -> dt_lt a b = Ok (dt_ltb a b).
Proof. unfold dt_ltb; destruct a, b; simpl; intros; congruence. Qed.

Lemma same_kind_sym a b : same_kind a b = same_kind b a.
Proof. destruct a, b; reflexivity. Qed.

Lemma same_kind_trans a b c :
  same_kind a b = true -> same_kind b c = true -> same_kind a c = true.
Proof. destruct a, b, c; simpl; congruence. Qed.

Lemma dt_leb_trans a b c :
  dt_leb a b = true -> dt_leb b c = true -> dt_leb a c = true.
Proof.
  unfold dt_leb; destruct a, b, c; simpl; try discriminate;
    rewrite !Z.leb_le; lia.
Qed.

Lemma dt_ltb_trans a b c :
  dt_ltb a b = true -> dt_ltb b c = true -> dt_ltb a c = true.
Proof.
  unfold dt_ltb; destruct a, b, c; simpl; try discriminate;
    rewrite !Z.ltb_lt; lia.
Qed.

Lemma dt_ltb_leb a b : dt_ltb a b = true -> dt_leb a b = true.
Proof.
  unfold dt_ltb, dt_leb; destruct a, b; simpl; try discriminate;
    rewrite Z.ltb_lt, Z.leb_le; lia.
Qed.

Lemma dt_lt_false_leb a b : dt_lt a b = Ok false -> dt_leb b a = true.
Proof.
  unfold dt_leb; destruct a, b; simpl; try discriminate;
    intros H; injection H as H; rewrite Z.ltb_ge in H; rewrite Z.leb_le; lia.
Qed.

Lemma dt_le_false_ltb a b : dt_le a b = Ok false -> dt_ltb b a = true.
Proof.
  unfold dt_ltb; destruct a, b; simpl; try discriminate;
    intros H; injection H as H; rewrite Z.leb_gt in H; rewrite Z.ltb_lt; lia.
Qed.

Lemma dt_ltb_not_eqb a b : dt_ltb a b = true -> dt_eqb b a = false.
Proof.
  unfold dt_ltb; destruct a, b; simpl; try discriminate;
    rewrite Z.ltb_lt, Z.eqb_neq; lia.
Qed.

Lemma dt_eqb_ltb_l d a b : dt_eqb d b = true -> dt_ltb a b = true -> dt_eqb d a = false.
Proof.
  unfold dt_ltb; destruct d, a, b; simpl; try discriminate; try reflexivity;
    rewrite Z.eqb_eq, Z.ltb_lt, Z.eqb_neq; lia.
Qed.

(** ** The sort of [fetch_latest_for_series] *)

Section Sorting.

Context {A : Type}.

Lemma insert_by_key_perm k (x : A) l r :
  insert_by_key k x l = Ok r -> Permutation r ((k, x) :: l).
Proof.
  revert r; induction l as [|[k' y] l IH]; simpl; intros r H.
  - injection H as <-. reflexivity.
  - rbind_inv H as a Ha. destruct a.
    + rbind_inv H as a0 Ha0. injection H as <-.
      rewrite (IH _ Ha0). apply perm_swap.
    + injection H as <-. reflexivity.
Qed.

Lemma sort_keyed_perm (l r : list (datetime * A)) :
  sort_keyed l = Ok r -> Permutation r l.
Proof.
  revert r; induction l as [|[k x] l IH]; simpl; intros r H.
  - injection H as <-. reflexivity.
  - rbind_inv H as a Ha. rewrite (insert_by_key_perm _ _ _ _ H).
    constructor. auto.
Qed.

Lemma insert_by_key_sorted k (x : A) l r :
  StronglySorted key_le l ->
  insert_by_key k x l = Ok r -> StronglySorted key_le r.
Proof.
  revert r; induction l as [|[k' y] l IH]; simpl; intros r Hs H.
  - injection H as <-. repeat constructor.
  - inversion Hs as [|? ? Hs' Hall]; subst.
    rbind_inv H as a Ha. destruct a.
    + rbind_inv H as a0 Ha0. injection H as <-.
      constructor; [eauto|].
      apply (Permutation_Forall (Permutation_sym (insert_by_key_perm _ _ _ _ Ha0))).
      constructor; [|exact Hall].
      unfold key_le; simpl. apply dt_ltb_leb.
      unfold dt_ltb. now rewrite Ha.
    + injection H as <-.
      assert (Hk : key_le (k, x) (k', y))
        by (unfold key_le; simpl; now apply dt_lt_false_leb).
      constructor; [exact Hs|].
      constructor; [exact Hk|].
      eapply Forall_impl; [|exact Hall].
      intros q Hq. unfold key_le in *. eapply dt_leb_trans; eauto.
Qed.

Lemma sort_keyed_sorted (l r : list (datetime * A)) :
  sort_keyed l = Ok r -> StronglySorted key_le r.
Proof.
  revert r; induction l as [|[k x] l IH]; simpl; intros r H.
  - injection H as <-. constructor.
  - rbind_inv H as a Ha. eapply insert_by_key_sorted; eauto.
Qed.

(** Stability: the elements with a given key are in the same order before
    and after. *)
Lemma insert_by_key_stable d k (x : A) l r :
  insert_by_key k x l = Ok r ->
  filter (fun q => dt_eqb d (fst q)) r =
  filter (fun q => dt_eqb d (fst q)) ((k, x) :: l).
Proof.
  revert r; induction l as [|[k' y] l IH]; simpl; intros r H.
  - injection H as <-. reflexivity.
  - rbind_inv H as a Ha. destruct a.
    + rbind_inv H as a0 Ha0. injection H as <-. simpl.
      rewrite (IH _ Ha0). simpl.
      destruct (dt_eqb d k) eqn:Ek; [|reflexivity].
      assert (dt_eqb d k' = false) as ->; [|reflexivity].
      eapply dt_eqb_ltb_l; eauto. unfold dt_ltb. now rewrite Ha.
    + injection H as <-. reflexivity.
Qed.

Lemma sort_keyed_stable d (l r : list (datetime * A)) :
  sort_keyed l = Ok r ->
  filter (fun q => dt_eqb d (fst q)) r = filter (fun q => dt_eqb d (fst q)) l.
Proof.
  revert r; induction l as [|[k x] l IH]; simpl; intros r H.
  - injection H as <-. reflexivity.
  - rbind_inv H as a Ha. rewrite (insert_by_key_stable d _ _ _ _ H). simpl.
    now rewrite (IH _ Ha).
Qed.

(** The sort succeeds when all keys are of one kind. *)
Lemma insert_by_key_total k0 k (x : A) l :
  same_kind k0 k = true ->
  Forall (fun q => same_kind k0 (fst q) = true) l ->
  exists r, insert_by_key k x l = Ok r.
Proof.
  intros Hk; induction 1 as [|[k' y] l Hq Hl IH]; simpl; [eauto|].
  simpl in Hq.
  rewrite same_kind_dt_lt
    by (rewrite same_kind_sym in Hq; eapply same_kind_trans; eauto).
  simpl. destruct (dt_ltb k' k); [|eauto].
  destruct IH as [r ->]. simpl. eauto.
Qed.

Lemma sort_keyed_total k0 (l : list (datetime * A)) :
  Forall (fun q => same_kind k0 (fst q) = true) l ->
  exists r, sort_keyed l = Ok r.
Proof.
  induction 1 as [|[k x] l Hq Hl [s Hs]]; simpl; [eauto|].
  rewrite Hs; simpl.
  eapply insert_by_key_total; [exact Hq|].
  eapply Permutation_Forall; [|exact Hl].
  symmetry. now apply sort_keyed_perm.
Qed.

Variable key : A -> result datetime.

Lemma with_keys_spec (l : list A) kl :
  with_keys key l = Ok kl ->
  map snd kl = l /\ Forall (fun q => key (snd q) = Ok (fst q)) kl.
Proof.
  revert kl; induction l as [|x l IH]; simpl; intros kl H.
  - injection H as <-. split; constructor.
  - rbind_inv H as a Ha. rbind_inv H as a0 Ha0. injection H as <-.
    destruct (IH _ Ha0) as [E F]. simpl. split; [now rewrite E|].
    constructor; auto.
Qed.

Lemma with_keys_total (l : list A) :
  Forall (fun x => exists d, key x = Ok d) l -> exists kl, with_keys key l = Ok kl.
Proof.
  induction 1 as [|x l [d Hd] Hl [kl Hkl]]; simpl; [eauto|].
  rewrite Hd, Hkl. simpl. eauto.
Qed.

Lemma sort_by_key_inv (l r : list A) :
  sort_by_key key l = Ok r ->
  exists kl kr,
    with_keys key l = Ok kl /\ sort_keyed kl = Ok kr /\ r = map snd kr /\
    Forall (fun q => key (snd q) = Ok (fst q)) kr.
Proof.
  unfold sort_by_key; intros H.
  rbind_inv H as a Ha. rbind_inv H as a0 Ha0. injection H as <-.
  exists a, a0. repeat split; auto.
  destruct (with_keys_spec _ _ Ha) as [_ F].
  eapply Permutation_Forall; [|exact F].
  symmetry. now apply sort_keyed_perm.
Qed.

Lemma sort_by_key_perm (l r : list A) :
  sort_by_key key l = Ok r -> Permutation r l.
Proof.
  intros H. destruct (sort_by_key_inv _ _ H) as (kl & kr & Hk & Hs & -> & _).
  destruct (with_keys_spec _ _ Hk) as [<- _].
  apply Permutation_map. now apply sort_keyed_perm.
Qed.

End Sorting.

(** ** The chapters kept from a response *)

Section Fetch.

Context {rt : Runtime}.

Lemma item_fields ch i attr ra :
  py_get ch "id" JNull = Ok i ->
  py_get ch "attributes" (JObj []) = Ok attr ->
  py_get attr "readableAt" JNull = Ok ra ->
  i = item_id ch /\ ra = item_readableAt ch.
Proof.
  destruct ch; simpl; try discriminate.
  intros Hi Hattr Hra.
  split.
  - destruct (dict_get "id" fields); congruence.
  - destruct (dict_get "attributes" fields) as [v|].
    + injection Hattr as ->. destruct attr; simpl in Hra; try discriminate.
      destruct (dict_get "readableAt" fields0); congruence.
    + injection Hattr as <-. simpl in Hra. congruence.
Qed.

Lemma kept_from_cons since_dt item items c :
  kept_from since_dt items c -> kept_from since_dt (item :: items) c.
Proof.
  intros (H1 & H2 & (i & Hi & H3)). repeat split; auto.
  exists i. split; [now right | exact H3].
Qed.

Lemma collect_chapters_kept since_dt items kept :
  collect_chapters since_dt items = Ok kept ->
  Forall (kept_from since_dt items) kept.
Proof.
  revert kept; induction items as [|ch rest IH]; simpl; intros kept H.
  - injection H as <-. constructor.
  - rbind_inv H as i Hi. rbind_inv H as attr Hattr.
    rbind_inv H as cf Hcf. rbind_inv H as ra Hra.
    destruct (item_fields _ _ _ _ Hi Hattr Hra) as [-> ->].
    destruct (negb (truthy (item_id ch)) || negb (truthy (item_readableAt ch)))
      eqn:Hskip.
    { eapply Forall_impl; [|apply IH, H]. intros c. apply kept_from_cons. }
    apply orb_false_elim in Hskip as [Hid Hts].
    apply negb_false_iff in Hid, Hts.
    rbind_inv H as s Hs. rbind_inv H as d Hd. rbind_inv H as old Hold.
    destruct old.
    { eapply Forall_impl; [|apply IH, H]. intros c. apply kept_from_cons. }
    rbind_inv H as more Hmore. injection H as <-.
    constructor.
    + destruct (item_readableAt ch) eqn:Era; simpl in Hs; try discriminate.
      injection Hs as <-. simpl. repeat split.
      * exact Hts.
      * exists d. split; [exact Hd|]. destruct since_dt; [exact Hold | exact I].
      * exists ch. split; [now left|]. unfold usable. rewrite Hid, Era. auto.
    + eapply Forall_impl; [|apply IH, Hmore]. intros c. apply kept_from_cons.
Qed.

Lemma published_after_eq since c d :
  parse_iso (c_readableAt c) = Ok d -> published_after since c = dt_ltb since d.
Proof. unfold published_after. now intros ->. Qed.

(** With a bound, the loop keeps the chapters after the bound among
    those it keeps without one. *)
Lemma collect_chapters_since since items kept :
  collect_chapters (Some since) items = Ok kept ->
  exists all,
    collect_chapters None items = Ok all /\
    kept = filter (published_after since) all /\
    Forall (fun c => exists d, parse_iso (c_readableAt c) = Ok d /\
                               same_kind since d = true) all.
Proof.
  revert kept; induction items as [|ch rest IH]; simpl; intros kept H.
  - injection H as <-. exists []. repeat split; constructor.
  - rbind_inv H as i Hi. rbind_inv H as attr Hattr.
    rbind_inv H as cf Hcf. rbind_inv H as ra Hra.
    rewrite Hi, Hattr; simpl. rewrite Hcf, Hra; simpl.
    destruct (negb (truthy i) || negb (truthy ra)); [now apply IH|].
    rbind_inv H as s Hs. rbind_inv H as d Hd. rbind_inv H as old Hold.
    rewrite Hs; simpl. rewrite Hd; simpl.
    assert (Hkind : same_kind since d = true)
      by (rewrite same_kind_sym; eapply dt_le_ok_same_kind; eauto).
    destruct old.
    + destruct (IH _ H) as (all & -> & -> & F).
      eexists; split; [reflexivity|]. simpl. split.
      * rewrite (published_after_eq since _ d) by exact Hd.
        assert (dt_ltb since d = false) as ->; [|reflexivity].
        destruct since, d; simpl in *; try discriminate;
          injection Hold as Hold; unfold dt_ltb; simpl;
          rewrite Z.leb_le in Hold; rewrite Z.ltb_ge; lia.
      * constructor; [|exact F]. simpl; eauto.
    + rbind_inv H as more Hmore. injection H as <-.
      destruct (IH _ Hmore) as (all & -> & -> & F).
      eexists; split; [reflexivity|]. simpl. split.
      * rewrite (published_after_eq since _ d) by exact Hd.
        now rewrite (dt_le_false_ltb _ _ Hold).
      * constructor; [|exact F]. simpl; eauto.
Qed.

(** Items that lack an identifier or a timestamp change nothing. *)
Lemma collect_chapters_usable since_dt items kept :
  collect_chapters since_dt items = Ok kept ->
  collect_chapters since_dt (filter usable items) = Ok kept.
Proof.
  revert kept; induction items as [|ch rest IH]; simpl; intros kept H; [exact H|].
  rbind_inv H as i Hi. rbind_inv H as attr Hattr.
  rbind_inv H as cf Hcf. rbind_inv H as ra Hra.
  destruct (item_fields _ _ _ _ Hi Hattr Hra) as [-> ->].
  destruct (usable ch) eqn:Hu; unfold usable in Hu.
  - apply andb_true_iff in Hu as [Hu1 Hu2].
    simpl. rewrite Hi, Hattr; simpl. rewrite Hcf, Hra; simpl.
    rewrite Hu1, Hu2 in *; simpl in *.
    rbind_inv H as s Hs. rbind_inv H as d Hd. rbind_inv H as old Hold.
    rewrite Hs; simpl. rewrite Hd; simpl. rewrite Hold; simpl.
    destruct old; [now apply IH|].
    rbind_inv H as more Hmore. rewrite (IH _ Hmore). exact H.
  - apply IH.
    destruct (truthy (item_id ch)); simpl in *; [|exact H].
    rewrite Hu in H. exact H.
Qed.

(** An item that lacks a field is passed over, whatever comes before and
    after it. *)
Lemma collect_chapters_drop since_dt before item after :
  droppable item = true ->
  collect_chapters since_dt (before ++ item :: after) =
  collect_chapters since_dt (before ++ after).
Proof.
  intros Hdrop. induction before as [|ch before IH]; [|simpl; now rewrite IH].
  destruct item as [| | | | |fields]; try discriminate.
  assert (Hskip : negb (truthy (item_id (JObj fields))) ||
                  negb (truthy (item_readableAt (JObj fields))) = true).
  { unfold droppable, usable in Hdrop. simpl in *.
    destruct (dict_get "attributes" fields) as [[| | | | |attr]|];
      try discriminate.
    - now rewrite negb_andb in Hdrop.
    - apply orb_true_r. }
  unfold droppable in Hdrop. simpl in *.
  destruct (dict_get "id" fields) as [i|];
    destruct (dict_get "attributes" fields) as [[| | | | |attr]|];
    try discriminate; simpl in *;
    try destruct (dict_get "chapter" attr);
    try destruct (dict_get "readableAt" attr); simpl in *;
    now rewrite ?Hskip.
Qed.

Lemma kept_chapters_inv payload since_ts items kept :
  response_items payload = Ok items ->
  kept_chapters payload since_ts = Ok kept ->
  exists since_dt,
    since_datetime since_ts = Ok since_dt /\
    collect_chapters since_dt items = Ok kept.
Proof.
  unfold response_items, kept_chapters; intros Hi H.
  rbind_inv Hi as v Hv. rewrite Hv in H; simpl in H.
  rbind_inv H as since_dt Hsince. rewrite Hi in H; simpl in H. eauto.
Qed.

Lemma kept_chapters_items payload since_ts items :
  response_items payload = Ok items ->
  kept_chapters payload since_ts =
  (since_dt <- since_datetime since_ts ;; collect_chapters since_dt items)%result.
Proof.
  unfold response_items, kept_chapters; intros Hi.
  rbind_inv Hi as v Hv. rewrite Hv; simpl.
  destruct (since_datetime since_ts); simpl; [now rewrite Hi | reflexivity].
Qed.

Lemma kept_chapters_has_items payload since_ts kept :
  kept_chapters payload since_ts = Ok kept ->
  exists items, response_items payload = Ok items.
Proof.
  unfold response_items, kept_chapters; intros H.
  rbind_inv H as v Hv. rbind_inv H as since_dt Hsince. rbind_inv H as items Hi.
  rewrite Hv; simpl. eauto.
Qed.

Lemma filter_perm {A} (f : A -> bool) (l l' : list A) :
  Permutation l l' -> Permutation (filter f l) (filter f l').
Proof.
  induction 1 as [|x l l' _ IH|x y l|l l' l'' _ IH1 _ IH2]; simpl.
  - constructor.
  - destruct (f x); [now constructor | exact IH].
  - destruct (f x), (f y); try reflexivity. apply perm_swap.
  - now rewrite IH1.
Qed.

Lemma sorted_chapters (kr : list (datetime * chapter)) :
  Forall (fun q => parse_iso (c_readableAt (snd q)) = Ok (fst q)) kr ->
  StronglySorted key_le kr ->
  StronglySorted (fun a b => chapter_leb a b = true) (map snd kr).
Proof.
  intros F; induction 1 as [|q kr Hs IH Hall]; simpl; constructor.
  - apply IH. now inversion F.
  - inversion F as [|? ? Hq F']; subst.
    rewrite Forall_forall in *. intros c Hc.
    apply in_map_iff in Hc as (q' & <- & Hq').
    unfold chapter_leb. rewrite Hq, (F' _ Hq'). now apply Hall.
Qed.

Lemma sort_by_key_sorted kept batch :
  sort_by_key (fun x => parse_iso (c_readableAt x)) kept = Ok batch ->
  StronglySorted (fun a b => chapter_leb a b = true) batch.
Proof.
  intros H. destruct (sort_by_key_inv _ _ _ H) as (kl & kr & _ & Hs & -> & F).
  apply sorted_chapters; [exact F|]. now apply sort_keyed_sorted in Hs.
Qed.

Lemma sort_by_key_total since kept :
  Forall (fun c => exists d, parse_iso (c_readableAt c) = Ok d /\
                             same_kind since d = true) kept ->
  exists batch, sort_by_key (fun x => parse_iso (c_readableAt x)) kept = Ok batch.
Proof.
  intros F. unfold sort_by_key.
  destruct (with_keys_total (fun x => parse_iso (c_readableAt x)) kept)
    as [kl Hkl].
  { eapply Forall_impl; [|exact F]. intros c (d & Hd & _). eauto. }
  rewrite Hkl; simpl.
  destruct (sort_keyed_total since kl) as [kr Hkr].
  { destruct (with_keys_spec _ _ _ Hkl) as [E K]. subst kept.
    rewrite Forall_forall in *. intros q Hq.
    destruct (F (snd q)) as (d & Hd & Hk); [now apply in_map|].
    rewrite (K _ Hq) in Hd. now injection Hd as <-. }
  rewrite Hkr; simpl. eauto.
Qed.

Lemma filter_published_at d (kr : list (datetime * chapter)) :
  Forall (fun q => parse_iso (c_readableAt (snd q)) = Ok (fst q)) kr ->
  filter (published_at d) (map snd kr) =
  map snd (filter (fun q => dt_eqb d (fst q)) kr).
Proof.
  induction 1 as [|q kr Hq _ IH]; simpl; [reflexivity|].
  unfold published_at at 1. rewrite Hq.
  destruct (dt_eqb d (fst q)); simpl; now rewrite IH.
Qed.

End Fetch.

(** ** The batch of new chapters *)

Section Batch.

Context {rt : Runtime}.

(** C4.  With a watermark, what [fetch_latest_for_series] returns holds
    exactly the chapters it would return without one that were published
    strictly after the watermark, each as often, and is in ascending order
    of publication, whatever the order of the response. *)
Theorem batch_is_newer_and_sorted payload (watermark_ts : string) batch :
  PyStr.nonempty watermark_ts = true ->
  chapters_of_payload payload (Some watermark_ts) = Ok batch ->
  exists candidates,
    chapters_of_payload payload None = Ok candidates /\
    Permutation batch (filter (newer_than watermark_ts) candidates) /\
    StronglySorted (fun a b => chapter_leb a b = true) batch.
Proof.
  intros Hw H. unfold chapters_of_payload in *.
  rbind_inv H as kept Hkept.
  destruct (kept_chapters_has_items _ _ _ Hkept) as [items Hitems].
  destruct (kept_chapters_inv _ _ _ _ Hitems Hkept) as (since_dt & Hsince & Hcollect).
  simpl in Hsince. rewrite Hw in Hsince.
  rbind_inv Hsince as since Hparse. injection Hsince as <-.
  destruct (collect_chapters_since _ _ _ Hcollect) as (all & Hall & -> & Hkinds).
  rewrite (kept_chapters_items _ None _ Hitems); simpl. rewrite Hall; simpl.
  destruct (sort_by_key_total _ _ Hkinds) as [candidates Hsort].
  exists candidates. split; [exact Hsort|]. split.
  - rewrite (sort_by_key_perm _ _ _ H).
    rewrite (filter_ext (newer_than watermark_ts) (published_after since)).
    + apply filter_perm. symmetry. eapply sort_by_key_perm; eauto.
    + intros c. unfold newer_than. now rewrite Hparse.
  - eapply sort_by_key_sorted; eauto.
Qed.

(** C5, as the code has it.  Chapters published at the same time keep the
    order in which the response lists them: for every time, the chapters
    of the batch published then are those kept from the response, in the
    order of the response. *)
Theorem equal_times_keep_response_order payload since_ts batch :
  chapters_of_payload payload since_ts = Ok batch ->
  exists kept,
    kept_chapters payload since_ts = Ok kept /\
    forall d, filter (published_at d) batch = filter (published_at d) kept.
Proof.
  unfold chapters_of_payload; intros H.
  rbind_inv H as kept Hkept. exists kept. split; [exact Hkept|].
  intros d.
  destruct (sort_by_key_inv _ _ _ H) as (kl & kr & Hk & Hs & -> & F).
  destruct (with_keys_spec _ _ _ Hk) as [<- K].
  rewrite !filter_published_at by assumption.
  now rewrite (sort_keyed_stable d _ _ Hs).
Qed.

(** An item that lacks a field and is not passed over: one that is not a
    dictionary, or whose "attributes" is there and is not one.  With it
    among the items the loop raises. *)
Lemma collect_chapters_raises since_dt items item :
  In item items -> usable item = false -> droppable item = false ->
  exists e, collect_chapters since_dt items = Raise e.
Proof.
  intros Hin Hu Hd. induction items as [|ch rest IH]; [contradiction|].
  destruct Hin as [->|Hin].
  - destruct item as [| | | | |fields]; try (now eexists).
    unfold droppable in Hd. rewrite Hu in Hd. simpl in *.
    destruct (dict_get "id" fields);
      destruct (dict_get "attributes" fields) as [[| | | | |attr]|];
      try discriminate; simpl; eauto.
  - destruct (IH Hin) as [e He]. simpl. rewrite He.
    destruct (py_get ch "id" JNull) as [i|]; simpl; [|eauto].
    destruct (py_get ch "attributes" (JObj [])) as [attr|]; simpl; [|eauto].
    destruct (py_get attr "chapter" JNull) as [cf|]; simpl; [|eauto].
    destruct (py_get attr "readableAt" JNull) as [ra|]; simpl; [|eauto].
    destruct (negb (truthy i) || negb (truthy ra)); [eauto|].
    destruct (as_str ra) as [t|]; simpl; [|eauto].
    destruct (parse_iso t) as [d|]; simpl; [|eauto].
    destruct (match since_dt with Some since => dt_le d since | None => Ok false end)
      as [[]|]; simpl; eauto.
Qed.

(** C8, as the code has it.  Whenever [fetch_latest_for_series] returns
    chapters, each of them carries the identifier and the timestamp of an
    item of the response that has both, and the chapters are those of the
    response without the items that lack one.  An item that lacks one is
    passed over without a trace (with or without it in the response, the
    outcome is the same, chapters or exception) when it is a dictionary
    whose "attributes" is absent or a dictionary.  Any other item that
    lacks one is not passed over: with it in the response the function
    raises and returns nothing. *)
Theorem unusable_items_are_dropped payload since_ts items :
  response_items payload = Ok items ->
  (forall chapters,
     chapters_of_payload payload since_ts = Ok chapters ->
     Forall (fun c => exists item,
                In item items /\ usable item = true /\
                c_id c = item_id item /\
                JStr (c_readableAt c) = item_readableAt item) chapters /\
     (forall payload',
        response_items payload' = Ok (filter usable items) ->
        chapters_of_payload payload' since_ts = Ok chapters)) /\
  (forall payload' before item after,
     items = before ++ item :: after ->
     droppable item = true ->
     response_items payload' = Ok (before ++ after) ->
     chapters_of_payload payload' since_ts = chapters_of_payload payload since_ts) /\
  (forall item,
     In item items -> usable item = false -> droppable item = false ->
     exists e, chapters_of_payload payload since_ts = Raise e).
Proof.
  intros Hitems. split; [|split].
  - intros chapters H. unfold chapters_of_payload in *.
    rbind_inv H as kept Hkept.
    destruct (kept_chapters_inv _ _ _ _ Hitems Hkept)
      as (since_dt & Hsince & Hcollect).
    split.
    + apply (Permutation_Forall (Permutation_sym (sort_by_key_perm _ _ _ H))).
      eapply Forall_impl; [|apply (collect_chapters_kept _ _ _ Hcollect)].
      intros c (_ & _ & Hc). exact Hc.
    + intros payload' Hitems'.
      rewrite (kept_chapters_items _ since_ts _ Hitems'), Hsince; simpl.
      rewrite (collect_chapters_usable _ _ _ Hcollect); simpl. exact H.
  - intros payload' before item after -> Hdrop Hitems'.
    unfold chapters_of_payload.
    rewrite (kept_chapters_items _ since_ts _ Hitems'),
            (kept_chapters_items _ since_ts _ Hitems).
    destruct (since_datetime since_ts) as [since_dt|]; simpl; [|reflexivity].
    now rewrite (collect_chapters_drop since_dt before item after Hdrop).
  - intros item Hin Hu Hd. unfold chapters_of_payload.
    rewrite (kept_chapters_items _ since_ts _ Hitems).
    destruct (since_datetime since_ts) as [since_dt|]; simpl; [|eauto].
    destruct (collect_chapters_raises since_dt items item Hin Hu Hd) as [e ->].
    simpl. eauto.
Qed.

End Batch.

Lemma batch_is_newer_and_sorted_witness :
  exists candidates,
    chapters_of_payload (rt:=Example.runtime) Example.unordered None = Ok candidates /\
    Permutation
      [Example.chapter_of "a" "2024-05-02T00:00:00+00:00" "10";
       Example.chapter_of "b" "2024-05-03T00:00:00+00:00" "11";
       Example.chapter_of "c" "2024-05-04T00:00:00+00:00" "12"]
      (filter (newer_than (rt:=Example.runtime) Example.may_1) candidates) /\
    StronglySorted (fun a b => chapter_leb (rt:=Example.runtime) a b = true)
      [Example.chapter_of "a" "2024-05-02T00:00:00+00:00" "10";
       Example.chapter_of "b" "2024-05-03T00:00:00+00:00" "11";
       Example.chapter_of "c" "2024-05-04T00:00:00+00:00" "12"].
Proof.
  apply (batch_is_newer_and_sorted (rt:=Example.runtime)
           Example.unordered Example.may_1 _); reflexivity.
Defined.

Lemma equal_times_keep_response_order_witness :
  exists kept,
    kept_chapters (rt:=Example.runtime) Example.tie_b_a (Some Example.may_1) = Ok kept /\
    forall d,
      filter (published_at (rt:=Example.runtime) d)
        [Example.chapter_of "b" "2024-05-02T00:00:00+00:00" "10.5";
         Example.chapter_of "a" "2024-05-02T00:00:00+00:00" "10"] =
      filter (published_at (rt:=Example.runtime) d) kept.
Proof.
  apply (equal_times_keep_response_order (rt:=Example.runtime)
           Example.tie_b_a (Some Example.may_1) _); reflexivity.
Defined.

(** C5, as the claim has it, fails: of two chapters published at the same
    time the one with the greater identifier comes first when the response
    lists it first, and the batch changes with the order of the response. *)
Lemma tie_not_broken_by_id :
  chapters_of_payload (rt:=Example.runtime) Example.tie_b_a (Some Example.may_1) =
    Ok [Example.chapter_of "b" "2024-05-02T00:00:00+00:00" "10.5";
        Example.chapter_of "a" "2024-05-02T00:00:00+00:00" "10"] /\
  chapters_of_payload (rt:=Example.runtime) Example.tie_a_b (Some Example.may_1) =
    Ok [Example.chapter_of "a" "2024-05-02T00:00:00+00:00" "10";
        Example.chapter_of "b" "2024-05-02T00:00:00+00:00" "10.5"] /\
  PyStr.ltb "a" "b" = true /\
  response_items Example.tie_b_a =
    Ok [Example.item "b" "2024-05-02T00:00:00+00:00" "10.5";
        Example.item "a" "2024-05-02T00:00:00+00:00" "10"] /\
  response_items Example.tie_a_b =
    Ok [Example.item "a" "2024-05-02T00:00:00+00:00" "10";
        Example.item "b" "2024-05-02T00:00:00+00:00" "10.5"].
Proof. repeat split. Qed.

Lemma unusable_items_are_dropped_witness :
  Forall (fun c => exists item,
              In item Example.items_with_gaps /\
              usable item = true /\
              c_id c = item_id item /\
              JStr (c_readableAt c) = item_readableAt item)
    [Example.chapter_of "a" "2024-05-02T00:00:00+00:00" "10"] /\
  (forall payload',
     response_items payload' = Ok [Example.item "a" "2024-05-02T00:00:00+00:00" "10"] ->
     chapters_of_payload (rt:=Example.runtime) payload' None =
     Ok [Example.chapter_of "a" "2024-05-02T00:00:00+00:00" "10"]) /\
  chapters_of_payload (rt:=Example.runtime)
    (Example.response (tl Example.items_with_gaps)) None =
  chapters_of_payload (rt:=Example.runtime) Example.with_gaps None.
Proof.
  destruct (unusable_items_are_dropped (rt:=Example.runtime)
              Example.with_gaps None Example.items_with_gaps eq_refl)
    as (Hret & Hdrop & _).
  destruct (Hret [Example.chapter_of "a" "2024-05-02T00:00:00+00:00" "10"] eq_refl)
    as (Hfrom & Hfilter).
  split; [exact Hfrom|]. split; [exact Hfilter|].
  apply (Hdrop (Example.response (tl Example.items_with_gaps)) []
           (hd JNull Example.items_with_gaps) (tl Example.items_with_gaps));
    reflexivity.
Defined.

(** C8, as the claim has it, fails: an item whose "attributes" is [null]
    has no timestamp, and it is not dropped.  With it in the response the
    function raises [AttributeError] and returns no chapter at all,
    although the other item of the response has both fields; without it
    the chapter of that item is returned. *)
Lemma null_attributes_are_not_dropped :
  item_readableAt Sample.null_attributes = JNull /\
  usable Sample.null_attributes = false /\
  chapters_of_payload (rt:=Example.runtime)
    (Example.response [Example.item "a" "2024-05-02T00:00:00+00:00" "10";
                       Sample.null_attributes]) None =
  Raise AttributeError /\
  chapters_of_payload (rt:=Example.runtime)
    (Example.response [Example.item "a" "2024-05-02T00:00:00+00:00" "10"]) None =
  Ok [Example.chapter_of "a" "2024-05-02T00:00:00+00:00" "10"].
Proof. repeat split. Qed.

(** ** Dictionaries and the tracking state *)

Lemma dict_get_set_eq {V} k (v : V) d : dict_get k (dict_set k v d) = Some v.
Proof.
  induction d as [|[k' v'] d IH]; simpl.
  - now rewrite String.eqb_refl.
  - destruct (String.eqb k k') eqn:E; simpl; rewrite E; [reflexivity | exact IH].
Qed.

Lemma dict_get_set_ne {V} k k' (v : V) d :
  k <> k' -> dict_get k' (dict_set k v d) = dict_get k' d.
Proof.
  intros Hne. induction d as [|[k0 v0] d IH]; simpl.
  - destruct (String.eqb_spec k' k); [congruence | reflexivity].
  - destruct (String.eqb_spec k k0) as [->|]; simpl.
    + destruct (String.eqb_spec k' k0); [congruence | reflexivity].
    + now rewrite IH.
Qed.

Lemma dict_keys_set_present {V} k (v v0 : V) d :
  dict_get k d = Some v0 -> dict_keys (dict_set k v d) = dict_keys d.
Proof.
  unfold dict_keys. induction d as [|[k' v'] d IH]; simpl; [discriminate|].
  destruct (String.eqb k k'); simpl; [reflexivity|].
  intros H. now rewrite IH.
Qed.

Lemma tracked_record_set_eq gid sid sdata d gdata :
  dict_get gid (guilds d) = Some gdata ->
  tracked_record gid sid (set_tracked gid sid sdata d) = Some sdata.
Proof.
  intros Hg. unfold tracked_record, set_tracked. rewrite Hg; simpl.
  rewrite dict_get_set_eq; simpl. apply dict_get_set_eq.
Qed.

Lemma tracked_record_set_ne gid sid sdata d g s :
  (g, s) <> (gid, sid) ->
  tracked_record g s (set_tracked gid sid sdata d) = tracked_record g s d.
Proof.
  intros Hne. unfold tracked_record, set_tracked.
  destruct (dict_get gid (guilds d)) as [gdata|] eqn:Hg; [|reflexivity]. simpl.
  destruct (String.eqb_spec gid g) as [<-|Hg'].
  - rewrite dict_get_set_eq, Hg; simpl.
    apply dict_get_set_ne. congruence.
  - now rewrite dict_get_set_ne.
Qed.

(** ** The [!track] command *)

Lemma find_all_false {A} (f : A -> bool) l :
  (forall x, In x l -> f x = false) -> find f l = None.
Proof.
  induction l as [|x l IH]; simpl; intros H; [reflexivity|].
  rewrite (H x) by now left. apply IH. intros y Hy. apply H. now right.
Qed.

Lemma save_data_data env w : data (snd (save_data env w)) = data w.
Proof. unfold save_data. now destruct (file_write env (clock w)). Qed.

Lemma track_series_tracked guild_id series_id_or_url role series_name env w existing :
  tracked_record (PyStr.of_int guild_id) (extract_mangadex_id series_id_or_url)
    (data w) = Some existing ->
  track_series guild_id series_id_or_url role series_name env w =
  (Ok (AlreadyTracking (extract_mangadex_id series_id_or_url)
         (name existing) (role_id existing)), w).
Proof.
  unfold tracked_record, track_series, bind, get_guild_data.
  destruct (dict_get (PyStr.of_int guild_id) (guilds (data w))) as [gdata|];
    [|discriminate].
  now intros ->.
Qed.

Lemma track_series_new guild_id series_id_or_url role series_name env w :
  tracked_record (PyStr.of_int guild_id) (extract_mangadex_id series_id_or_url)
    (data w) = None ->
  let w' := snd (track_series guild_id series_id_or_url role series_name env w) in
  tracked_record (PyStr.of_int guild_id) (extract_mangadex_id series_id_or_url)
    (data w') =
  Some {| name := series_name; last_seen_ts := None; role_id := Some role |} /\
  forall g s,
    (g, s) <> (PyStr.of_int guild_id, extract_mangadex_id series_id_or_url) ->
    tracked_record g s (data w') = tracked_record g s (data w).
Proof.
  set (gid := PyStr.of_int guild_id).
  set (sid := extract_mangadex_id series_id_or_url).
  intros Hnew w'. subst w'.
  unfold tracked_record in Hnew.
  unfold track_series, bind, get_guild_data, modify_data, ret.
  fold gid sid.
  destruct (dict_get gid (guilds (data w))) as [gdata|] eqn:Hg.
  - rewrite Hnew. simpl.
    destruct (save_data env (with_data _ w)) as [[[]|e] w1] eqn:Hsave; simpl;
      apply (f_equal snd) in Hsave; simpl in Hsave;
      rewrite <- Hsave, save_data_data; simpl;
      (split; [eapply tracked_record_set_eq; eauto
              | intros g s Hne; now apply tracked_record_set_ne]).
  - simpl.
    destruct (save_data env _) as [[[]|e] w1] eqn:Hsave; simpl;
      apply (f_equal snd) in Hsave; simpl in Hsave;
      rewrite <- Hsave, save_data_data; simpl;
      (split;
       [eapply tracked_record_set_eq; simpl; apply dict_get_set_eq
       | intros g s Hne; rewrite tracked_record_set_ne by exact Hne;
         unfold tracked_record; simpl;
         destruct (String.eqb_spec gid g) as [<-|Hg'];
         [rewrite dict_get_set_eq, Hg; reflexivity
         | now rewrite dict_get_set_ne]]).
Qed.

(** C10.  [extract_mangadex_id] returns its argument as it is when the
    argument does not contain "mangadex.org", and also when it does but no
    part between slashes has both a hyphen and eight characters or more;
    the whole address is then the key under which [!track] records the
    series. *)
Theorem extract_mangadex_id_unchanged (series_arg : string) :
  (PyStr.contains "mangadex.org" series_arg = false ->
   extract_mangadex_id series_arg = series_arg) /\
  (PyStr.contains "mangadex.org" series_arg = true ->
   (forall part, In part (PyStr.split "/" (PyStr.strip "/" series_arg)) ->
                 PyStr.contains "-" part && (8 <=? PyStr.len part) = false) ->
   extract_mangadex_id series_arg = series_arg /\
   forall guild_id role series_name env w,
     tracked_record (PyStr.of_int guild_id) series_arg (data w) = None ->
     tracked_record (PyStr.of_int guild_id) series_arg
       (data (snd (track_series guild_id series_arg role series_name env w))) =
     Some {| name := series_name; last_seen_ts := None; role_id := Some role |}).
Proof.
  split.
  - unfold extract_mangadex_id. now intros ->.
  - intros Hurl Hparts.
    assert (E : extract_mangadex_id series_arg = series_arg).
    { unfold extract_mangadex_id. rewrite Hurl.
      now rewrite (find_all_false _ _ Hparts). }
    split; [exact E|].
    intros guild_id role series_name env w Hnew.
    pose proof (track_series_new guild_id series_arg role series_name env w) as H.
    rewrite E in H. now apply H.
Qed.

Lemma extract_mangadex_id_unchanged_witness :
  extract_mangadex_id "9a414441-bbad-43f1-a3a7-dc262ca790a3" =
    "9a414441-bbad-43f1-a3a7-dc262ca790a3" /\
  extract_mangadex_id "https://mangadex.org/title/one-two/" =
    "https://mangadex.org/title/one-two/" /\
  tracked_record "1" "https://mangadex.org/title/one-two/"
    (data (snd (track_series 1 "https://mangadex.org/title/one-two/" 7 "One Two"
                  (Example.calm [1] (Example.response []))
                  (Example.world_of Example.one_guild)))) =
  Some {| name := "One Two"; last_seen_ts := None; role_id := Some 7 |}.
Proof.
  split.
  - apply (proj1 (extract_mangadex_id_unchanged
                    "9a414441-bbad-43f1-a3a7-dc262ca790a3")).
    reflexivity.
  - destruct (proj2 (extract_mangadex_id_unchanged
                       "https://mangadex.org/title/one-two/")) as [E T].
    + reflexivity.
    + simpl. intros part [<-|[<-|[<-|[<-|[<-|[]]]]]]; reflexivity.
    + split; [exact E|]. apply (T 1 7 "One Two"). reflexivity.
Defined.

(** C6.  [!track] for a series that the guild already tracks answers that
    it is already tracked and changes nothing: not the record of the series,
    not the rest of the state, not the file.  For a series that is not
    tracked it records the given name and role with no watermark, and
    leaves every other record as it was. *)
Theorem track_series_rejects_tracked guild_id series_id_or_url role series_name env w :
  let gid := PyStr.of_int guild_id in
  let series_id := extract_mangadex_id series_id_or_url in
  (forall existing,
     tracked_record gid series_id (data w) = Some existing ->
     track_series guild_id series_id_or_url role series_name env w =
     (Ok (AlreadyTracking series_id (name existing) (role_id existing)), w)) /\
  (tracked_record gid series_id (data w) = None ->
   let w' := snd (track_series guild_id series_id_or_url role series_name env w) in
   tracked_record gid series_id (data w') =
   Some {| name := series_name; last_seen_ts := None; role_id := Some role |} /\
   forall g s, (g, s) <> (gid, series_id) ->
               tracked_record g s (data w') = tracked_record g s (data w)).
Proof.
  intros gid series_id. split.
  - intros existing. apply track_series_tracked.
  - apply track_series_new.
Qed.

Lemma track_series_rejects_tracked_witness :
  track_series 1 "S1" 9 "Another name"
    (Example.calm [1] (Example.response [])) (Example.world_of Example.one_guild) =
  (Ok (AlreadyTracking "S1" "Series One" (Some 7)), Example.world_of Example.one_guild) /\
  tracked_record "1" "S2"
    (data (snd (track_series 1 "S2" 9 "Series Two"
                  (Example.calm [1] (Example.response []))
                  (Example.world_of Example.one_guild)))) =
  Some {| name := "Series Two"; last_seen_ts := None; role_id := Some 9 |}.
Proof.
  split.
  - apply (proj1 (track_series_rejects_tracked 1 "S1" 9 "Another name"
                    (Example.calm [1] (Example.response []))
                    (Example.world_of Example.one_guild))
             (Example.series "Series One" (Some Example.may_1) 7)).
    reflexivity.
  - apply (proj2 (track_series_rejects_tracked 1 "S2" 9 "Series Two"
                    (Example.calm [1] (Example.response []))
                    (Example.world_of Example.one_guild))).
    reflexivity.
Defined.

(** ** Storage *)

Lemma read_dict_dump {V} (dump : V -> json) (read : json -> option V) (d : dict V) :
  (forall v, read (dump v) = Some v) ->
  read_dict read (map (fun kv => (fst kv, dump (snd kv))) d) = Some d.
Proof.
  intros Hrd. induction d as [|[k v] d IH]; simpl; [reflexivity|].
  now rewrite Hrd, IH.
Qed.

Lemma read_series_dump sdata : read_series (dump_series sdata) = Some sdata.
Proof. destruct sdata as [n [t|] [r|]]; reflexivity. Qed.

Lemma read_guild_dump gdata : read_guild (dump_guild gdata) = Some gdata.
Proof.
  destruct gdata as [c t]. unfold dump_guild, read_guild; simpl.
  rewrite (read_dict_dump dump_series read_series t read_series_dump).
  now destruct c.
Qed.

Lemma read_data_dump d : read_data (dump_data d) = Some d.
Proof.
  destruct d as [g]. unfold dump_data, read_data; simpl.
  now rewrite (read_dict_dump dump_guild read_guild g read_guild_dump).
Qed.

Lemma json_wf_dump_series sdata : JsonText.json_wf (dump_series sdata) = true.
Proof. destruct sdata as [n [t|] [r|]]; reflexivity. Qed.

Lemma json_wf_members {V} (dump : V -> json) (d : dict V) :
  distinct (dict_keys d) = true ->
  (forall k v, In (k, v) d -> JsonText.json_wf (dump v) = true) ->
  JsonText.json_wf (JObj (map (fun kv => (fst kv, dump (snd kv))) d)) = true.
Proof.
  intros Hkeys Hall. cbn [JsonText.json_wf].
  replace (map fst (map (fun kv => (fst kv, dump (snd kv))) d)) with (dict_keys d)
    by (unfold dict_keys; rewrite map_map; reflexivity).
  rewrite Hkeys. cbn [andb].
  rewrite forallb_forall. intros [k x] Hin.
  apply in_map_iff in Hin as ([k' v] & E & Hin). injection E as <- <-.
  now apply (Hall k' v).
Qed.

Lemma json_wf_dump_guild gdata :
  distinct (dict_keys (tracked_series gdata)) = true ->
  JsonText.json_wf (dump_guild gdata) = true.
Proof.
  intros Hkeys. unfold dump_guild.
  change (JsonText.json_wf
            (JObj [("announce_channel_id",
                    json_of_option JNum (announce_channel_id gdata));
                   ("tracked_series",
                    JObj (map (fun kv => (fst kv, dump_series (snd kv)))
                            (tracked_series gdata)))]))
    with (JsonText.json_wf (json_of_option JNum (announce_channel_id gdata)) &&
          (JsonText.json_wf
             (JObj (map (fun kv => (fst kv, dump_series (snd kv)))
                      (tracked_series gdata))) && true)).
  rewrite (json_wf_members dump_series _ Hkeys)
    by (intros; apply json_wf_dump_series).
  now destruct (announce_channel_id gdata).
Qed.

Lemma json_wf_dump_data d : wf_data d = true -> JsonText.json_wf (dump_data d) = true.
Proof.
  unfold wf_data. intros H. apply andb_true_iff in H as [Hkeys Hguilds].
  unfold dump_data.
  change (JsonText.json_wf
            (JObj [("guilds",
                    JObj (map (fun kv => (fst kv, dump_guild (snd kv))) (guilds d)))]))
    with (JsonText.json_wf
            (JObj (map (fun kv => (fst kv, dump_guild (snd kv))) (guilds d))) && true).
  rewrite (json_wf_members dump_guild _ Hkeys); [reflexivity|].
  intros k g Hin. apply json_wf_dump_guild.
  rewrite forallb_forall in Hguilds. exact (Hguilds (k, g) Hin).
Qed.

(** C9.  What [load_data] reads after a [save_data] that wrote the file is
    the state that was saved: the text that [json.dump] writes for the state
    is read back by [json.load] as the same nested dictionaries. *)
Theorem load_after_save env w :
  wf_data (data w) = true ->
  file_write env (clock w) = Written ->
  load_data (disk (snd (save_data env w))) = Ok (data w).
Proof.
  intros Hwf Hw. unfold save_data. rewrite Hw.
  change (load_data (File (JsonText.dumps (dump_data (data w)))) = Ok (data w)).
  unfold load_data.
  rewrite (loads_dumps _ (json_wf_dump_data _ Hwf)).
  now rewrite read_data_dump.
Qed.

Lemma load_after_save_witness :
  load_data
    (disk (snd (save_data (Example.calm [1] (Example.response []))
                  (Example.world_of Example.one_guild)))) =
  Ok Example.one_guild.
Proof.
  apply (load_after_save (Example.calm [1] (Example.response []))
           (Example.world_of Example.one_guild));
    reflexivity.
Defined.

(** ** One tracked series in one run of the task *)

Lemma delivered_app l l' : delivered (l ++ l') = delivered l ++ delivered l'.
Proof.
  induction l as [|e l IH]; simpl; [reflexivity|].
  destruct e as [m|c m [| |]|r]; simpl; now rewrite IH.
Qed.

Lemma send_attempts_app l l' :
  send_attempts (l ++ l') = (send_attempts l + send_attempts l')%nat.
Proof.
  induction l as [|e l IH]; simpl; [reflexivity|].
  destruct e; simpl; now rewrite IH.
Qed.

Lemma last_item_cons {A} (x : A) l :
  last_item (x :: l) = match last_item l with Some y => Some y | None => Some x end.
Proof.
  revert x; induction l as [|y l IH]; intros x; [reflexivity|].
  change (last_item (x :: y :: l)) with (last_item (y :: l)).
  rewrite (IH y). now destruct (last_item l).
Qed.

Lemma last_item_in {A} (x : A) l : last_item l = Some x -> In x l.
Proof.
  induction l as [|y l IH]; [discriminate|].
  rewrite last_item_cons. destruct (last_item l) as [z|].
  - intros H. right. apply IH. exact H.
  - intros H. injection H as ->. now left.
Qed.

Lemma last_item_none {A} (l : list A) : last_item l = None -> l = [].
Proof.
  destruct l as [|y l]; [reflexivity|].
  rewrite last_item_cons. now destruct (last_item l).
Qed.

Section Series.

Context {rt : Runtime}.

Lemma try_fetch series_id since_ts env w :
  try (fetch_latest_for_series series_id since_ts) env w =
  (Ok match session_get env (clock w) series_id with
      | Some payload => chapters_of_payload payload since_ts
      | None => Raise ClientError
      end,
   record_event (Requested series_id) w).
Proof.
  unfold try, fetch_latest_for_series.
  now destruct (session_get env (clock w) series_id).
Qed.

(** The loop over the new chapters when the first failure is at [c]: the
    chapters before [c] are delivered, [c] is attempted, the ones after it
    are not, and the loop gives the timestamp of the last one delivered. *)
Lemma send_new_chapters_until_failure channel_id sdata series_name pre c post :
  forall latest env w,
    (forall i ch, nth_error pre i = Some ch ->
       channel_send env (clock w + i) channel_id
         (release_message sdata series_name ch) = Sent) ->
    channel_send env (clock w + List.length pre) channel_id
      (release_message sdata series_name c) <> Sent ->
    send_new_chapters channel_id sdata series_name (pre ++ c :: post) latest env w =
    (Ok match last_item pre with
        | Some p => Some (c_readableAt p)
        | None => latest
        end,
     {| data := data w;
        disk := disk w;
        log := log w ++
               map (fun ch => SendAttempt channel_id
                                (release_message sdata series_name ch) Sent) pre ++
               [SendAttempt channel_id (release_message sdata series_name c)
                  (channel_send env (clock w + List.length pre) channel_id
                     (release_message sdata series_name c))] |}).
Proof.
  induction pre as [|p pre IH]; intros latest env w Hpre Hc.
  - simpl in *. unfold bind, send, record_event. rewrite Nat.add_0_r in *.
    destruct (channel_send env (clock w) channel_id
                (release_message sdata series_name c)); [congruence | |];
      reflexivity.
  - change ((p :: pre) ++ c :: post) with (p :: (pre ++ c :: post)).
    cbn [send_new_chapters]. unfold bind at 1. unfold send at 1.
    rewrite <- (Nat.add_0_r (clock w)), (Hpre 0%nat p eq_refl).
    rewrite IH.
    + rewrite last_item_cons. f_equal.
      * now destruct (last_item pre).
      * unfold record_event, clock; simpl.
        rewrite length_app, <- !app_assoc; simpl.
        rewrite Nat.add_0_r, <- !Nat.add_assoc. reflexivity.
    + intros i ch Hi. unfold record_event, clock; simpl.
      rewrite length_app; simpl. rewrite <- Nat.add_assoc.
      apply (Hpre (S i)). exact Hi.
    + unfold record_event, clock; simpl.
      rewrite length_app; simpl. rewrite <- Nat.add_assoc. exact Hc.
Qed.

(** The loop changes neither the state nor the file, and what it gives is
    the timestamp it was started with or that of one of the chapters. *)
Lemma send_new_chapters_spec channel_id sdata series_name chapters :
  forall latest env w,
    exists r w',
      send_new_chapters channel_id sdata series_name chapters latest env w =
        (Ok r, w') /\
      data w' = data w /\ disk w' = disk w /\
      (exists l, log w' = log w ++ l /\
                 forall wr, ~ In (WriteAttempt wr) l) /\
      (r = latest \/ exists c, In c chapters /\ r = Some (c_readableAt c)).
Proof.
  induction chapters as [|ch rest IH]; intros latest env w; simpl.
  - exists latest, w. repeat split; auto.
    exists []. split; [now rewrite app_nil_r | intros wr []].
  - unfold bind at 1, send at 1.
    set (w1 := record_event _ w).
    assert (Hw1 : exists l, log w1 = log w ++ l /\ forall wr, ~ In (WriteAttempt wr) l).
    { eexists; split; [reflexivity|].
      intros wr [H|[]]. discriminate. }
    destruct (channel_send env (clock w) channel_id _).
    + destruct (IH (Some (c_readableAt ch)) env w1)
        as (r & w' & -> & Hd & Hf & (l & Hl & Hnw) & Hr).
      exists r, w'. repeat split; auto.
      * destruct Hw1 as (l1 & Hl1 & Hnw1).
        exists (l1 ++ l). split; [now rewrite Hl, Hl1, app_assoc|].
        intros wr Hin. apply in_app_or in Hin as [Hin|Hin]; [eapply Hnw1 | eapply Hnw]; eauto.
      * right. destruct Hr as [->|(c & Hc & ->)]; [exists ch | exists c]; auto.
    + exists latest, w1. repeat split; auto.
    + exists latest, w1. repeat split; auto.
Qed.

Lemma chapters_of_payload_kept payload since_ts batch :
  chapters_of_payload payload since_ts = Ok batch ->
  exists since_dt items,
    since_datetime since_ts = Ok since_dt /\
    response_items payload = Ok items /\
    Forall (kept_from since_dt items) batch.
Proof.
  unfold chapters_of_payload; intros H. rbind_inv H as kept Hkept.
  destruct (kept_chapters_has_items _ _ _ Hkept) as [items Hitems].
  destruct (kept_chapters_inv _ _ _ _ Hitems Hkept) as (since_dt & Hsince & Hc).
  exists since_dt, items. repeat split; auto.
  apply (Permutation_Forall (Permutation_sym (sort_by_key_perm _ _ _ H))).
  now apply collect_chapters_kept.
Qed.

Lemma chapters_nonempty_ts payload since_ts batch c :
  chapters_of_payload payload since_ts = Ok batch -> In c batch ->
  PyStr.nonempty (c_readableAt c) = true.
Proof.
  intros H Hc.
  destruct (chapters_of_payload_kept _ _ _ H) as (since_dt & items & _ & _ & F).
  rewrite Forall_forall in F. now destruct (F c Hc).
Qed.

(** a chapter of a batch fetched with the watermark [ts] is later than it *)
Lemma chapters_later payload ts batch c :
  PyStr.nonempty ts = true ->
  chapters_of_payload payload (Some ts) = Ok batch -> In c batch ->
  ts_leb ts (c_readableAt c) = true.
Proof.
  intros Hts H Hc.
  destruct (chapters_of_payload_kept _ _ _ H) as (since_dt & items & Hs & _ & F).
  simpl in Hs. rewrite Hts in Hs. rbind_inv Hs as since Hparse.
  injection Hs as <-.
  rewrite Forall_forall in F. destruct (F c Hc) as (_ & (d & Hd & Hlt) & _).
  unfold ts_leb. rewrite Hparse, Hd, (dt_le_false_ltb _ _ Hlt).
  apply orb_true_r.
Qed.

(** the two branches of [process_series] *)
Lemma process_series_unprimed gid channel_id series_id sdata env w :
  truthy_str (last_seen_ts sdata) = false ->
  process_series gid channel_id series_id sdata env w =
  match session_get env (clock w) series_id with
  | Some payload =>
      match chapters_of_payload payload None with
      | Ok all_recent =>
          match last_item all_recent with
          | Some latest =>
              save_data env
                (with_data
                   (set_tracked gid series_id
                      (with_last_seen_ts (Some (c_readableAt latest)) sdata)
                      (data w))
                   (record_event (Requested series_id) w))
          | None => (Ok tt, record_event (Requested series_id) w)
          end
      | Raise _ => (Ok tt, record_event (Requested series_id) w)
      end
  | None => (Ok tt, record_event (Requested series_id) w)
  end.
Proof.
  intros Hf. unfold process_series. rewrite Hf. cbn [negb].
  unfold bind at 1. rewrite try_fetch.
  destruct (session_get env (clock w) series_id) as [payload|]; [|reflexivity].
  destruct (chapters_of_payload payload None) as [all_recent|e]; [|reflexivity].
  destruct (last_item all_recent); reflexivity.
Qed.

Lemma process_series_primed gid channel_id series_id sdata env w :
  truthy_str (last_seen_ts sdata) = true ->
  process_series gid channel_id series_id sdata env w =
  match session_get env (clock w) series_id with
  | Some payload =>
      match chapters_of_payload payload (last_seen_ts sdata) with
      | Ok [] => (Ok tt, record_event (Requested series_id) w)
      | Ok new_chapters =>
          match send_new_chapters channel_id sdata (name sdata) new_chapters
                  (last_seen_ts sdata) env (record_event (Requested series_id) w) with
          | (Ok latest, w') =>
              if truthy_str latest
              then (Ok tt,
                    with_data
                      (set_tracked gid series_id (with_last_seen_ts latest sdata)
                         (data w')) w')
              else (Ok tt, w')
          | (Raise e, w') => (Raise e, w')
          end
      | Raise _ => (Ok tt, record_event (Requested series_id) w)
      end
  | None => (Ok tt, record_event (Requested series_id) w)
  end.
Proof.
  intros Ht. unfold process_series. rewrite Ht. cbn [negb].
  unfold bind at 1. rewrite try_fetch.
  destruct (session_get env (clock w) series_id) as [payload|]; [|reflexivity].
  destruct (chapters_of_payload payload (last_seen_ts sdata)) as [[|c l]|e];
    try reflexivity.
  unfold bind.
  destruct (send_new_chapters _ _ _ _ _ _ _) as [[latest|e] w']; [|reflexivity].
  destruct (truthy_str latest); reflexivity.
Qed.

Lemma delivered_sent channel_id (msg : chapter -> string) l :
  delivered (map (fun ch => SendAttempt channel_id (msg ch) Sent) l) =
  map (fun ch => (channel_id, msg ch)) l.
Proof. induction l as [|x l IH]; simpl; [reflexivity | now rewrite IH]. Qed.

Lemma send_attempts_sent channel_id (msg : chapter -> string) l :
  send_attempts (map (fun ch => SendAttempt channel_id (msg ch) Sent) l) = List.length l.
Proof. induction l as [|x l IH]; simpl; [reflexivity | now rewrite IH]. Qed.

(** C2.  A series with a watermark whose batch is [pre ++ c :: post], where
    the chapters of [pre] are delivered and the delivery of [c] fails, with
    [discord.Forbidden] or otherwise: the messages of [pre] are the only
    ones delivered, nothing is attempted after [c], and the watermark
    becomes the timestamp of the last chapter of [pre], or stays when [pre]
    is empty.  With [pre] of one chapter and [post] empty these are the two
    new chapters of which the second fails. *)
Theorem delivery_failure_commits_delivered
    gid channel_id series_id sdata ts payload pre c post env w :
  tracked_record gid series_id (data w) = Some sdata ->
  last_seen_ts sdata = Some ts ->
  PyStr.nonempty ts = true ->
  session_get env (clock w) series_id = Some payload ->
  chapters_of_payload payload (Some ts) = Ok (pre ++ c :: post) ->
  (forall i ch, nth_error pre i = Some ch ->
     channel_send env (S (clock w) + i) channel_id
       (release_message sdata (name sdata) ch) = Sent) ->
  channel_send env (S (clock w) + List.length pre) channel_id
    (release_message sdata (name sdata) c) <> Sent ->
  let w' := snd (process_series gid channel_id series_id sdata env w) in
  delivered (log w') =
    delivered (log w) ++
    map (fun ch => (channel_id, release_message sdata (name sdata) ch)) pre /\
  send_attempts (log w') = (send_attempts (log w) + List.length pre + 1)%nat /\
  watermark gid series_id (data w') =
    Some match last_item pre with
         | Some p => c_readableAt p
         | None => ts
         end.
Proof.
  intros Htracked Hts Hne Hget Hbatch Hpre Hc w'. subst w'.
  rewrite process_series_primed by (rewrite Hts; exact Hne).
  rewrite Hget, Hts, Hbatch.
  assert (Hclock : clock (record_event (Requested series_id) w) = S (clock w)).
  { unfold clock, record_event; simpl. rewrite length_app; simpl. lia. }
  rewrite send_new_chapters_until_failure
    by (rewrite Hclock; assumption).
  rewrite Hclock.
  set (r := channel_send env _ _ _) in *.
  assert (Hlatest :
            truthy_str match last_item pre with
                       | Some p => Some (c_readableAt p)
                       | None => Some ts
                       end = true).
  { destruct (last_item pre) as [p|] eqn:Hp; simpl; [|exact Hne].
    eapply chapters_nonempty_ts; [exact Hbatch|].
    apply in_or_app. left. now apply last_item_in. }
  destruct pre as [|p0 pre0] eqn:Epre.
  - simpl app. cbv iota. rewrite Hlatest. cbn [snd data log with_data record_event].
    repeat split.
    + rewrite !delivered_app. simpl. destruct r; [congruence| |]; now rewrite !app_nil_r.
    + rewrite !send_attempts_app. simpl. lia.
    + unfold watermark, tracked_record in *.
      destruct (dict_get gid (guilds (data w))) as [gdata|] eqn:Hg; [|discriminate].
      unfold set_tracked. rewrite Hg. simpl. rewrite dict_get_set_eq. simpl.
      now rewrite dict_get_set_eq.
  - rewrite <- Epre in *. clear Epre.
    destruct (pre ++ c :: post) as [|x l] eqn:El.
    { destruct pre; discriminate. }
    rewrite Hlatest. cbn [snd data log with_data record_event].
    repeat split.
    + rewrite !delivered_app, delivered_sent. simpl.
      destruct r; [congruence| |]; now rewrite !app_nil_r.
    + rewrite !send_attempts_app, send_attempts_sent. simpl. lia.
    + unfold watermark, tracked_record in *.
      destruct (dict_get gid (guilds (data w))) as [gdata|] eqn:Hg; [|discriminate].
      unfold set_tracked. rewrite Hg. simpl. rewrite dict_get_set_eq. simpl.
      rewrite dict_get_set_eq. simpl. now destruct (last_item pre).
Qed.

Lemma sorted_last_item {A} (R : A -> A -> Prop) l x :
  StronglySorted R l -> last_item l = Some x ->
  forall y, In y l -> y = x \/ R y x.
Proof.
  induction 1 as [|a l Hs IH Ha]; [discriminate|].
  rewrite last_item_cons. destruct (last_item l) as [z|] eqn:Hz.
  - intros E; injection E as ->. intros y [<-|Hy].
    + right. rewrite Forall_forall in Ha. apply Ha. now apply last_item_in.
    + now apply IH.
  - intros E; injection E as ->. apply last_item_none in Hz. subst l.
    intros y [<-|[]]. now left.
Qed.

Lemma last_chapter_is_latest payload since_ts chapters latest :
  chapters_of_payload payload since_ts = Ok chapters ->
  last_item chapters = Some latest ->
  forall c, In c chapters -> chapter_leb c latest = true.
Proof.
  intros H Hlast c Hc.
  destruct (chapters_of_payload_kept _ _ _ H) as (since_dt & items & _ & _ & F).
  unfold chapters_of_payload in H. rbind_inv H as kept Hkept.
  apply sort_by_key_sorted in H.
  destruct (sorted_last_item _ _ _ H Hlast c Hc) as [->|Hle]; [|exact Hle].
  rewrite Forall_forall in F.
  destruct (F latest (last_item_in _ _ Hlast)) as (_ & (d & Hd & _) & _).
  unfold chapter_leb. rewrite Hd. unfold dt_leb.
  destruct d; simpl; apply Z.leb_refl.
Qed.

(** C3.  A series without a watermark: no message is sent; when the fetch
    returns chapters the watermark becomes the timestamp of one that no
    other was published after, and when it returns none the watermark stays
    unset. *)
Theorem priming_sets_latest_without_messages
    gid channel_id series_id sdata payload chapters env w :
  tracked_record gid series_id (data w) = Some sdata ->
  last_seen_ts sdata = None ->
  session_get env (clock w) series_id = Some payload ->
  chapters_of_payload payload None = Ok chapters ->
  let w' := snd (process_series gid channel_id series_id sdata env w) in
  delivered (log w') = delivered (log w) /\
  send_attempts (log w') = send_attempts (log w) /\
  (chapters = [] -> watermark gid series_id (data w') = None) /\
  (chapters <> [] ->
   exists latest,
     In latest chapters /\
     watermark gid series_id (data w') = Some (c_readableAt latest) /\
     forall c, In c chapters -> chapter_leb c latest = true).
Proof.
  intros Htracked Hts Hget Hfetch w'. subst w'.
  rewrite process_series_unprimed by (now rewrite Hts).
  rewrite Hget, Hfetch.
  destruct (last_item chapters) as [latest|] eqn:Hlast.
  - unfold save_data.
    set (w1 := with_data _ _).
    assert (Hlog :
              forall r, log (record_event (WriteAttempt r) w1) =
                        log w ++ [Requested series_id] ++ [WriteAttempt r])
      by (intros r; unfold record_event; simpl; now rewrite <- app_assoc).
    assert (Hwm : watermark gid series_id (data w1) = Some (c_readableAt latest)).
    { unfold watermark. subst w1. cbn [data with_data record_event].
      unfold tracked_record in Htracked.
      destruct (dict_get gid (guilds (data w))) as [gdata|] eqn:Hg; [|discriminate].
      now rewrite (tracked_record_set_eq _ _ _ _ gdata Hg). }
    destruct (file_write env (clock w1)); cbn [snd log data with_disk];
      rewrite Hlog, !delivered_app, !send_attempts_app; simpl;
      rewrite !app_nil_r, !Nat.add_0_r;
      (repeat split; [intros ->; discriminate|]);
      intros _; exists latest;
      (repeat split;
       [now apply last_item_in | exact Hwm
       | eapply last_chapter_is_latest; eauto]).
  - apply last_item_none in Hlast. subst chapters.
    cbn [snd log data record_event].
    rewrite !delivered_app, !send_attempts_app; simpl.
    rewrite !app_nil_r, !Nat.add_0_r. repeat split.
    + intros _. unfold watermark. now rewrite Htracked, Hts.
    + intros H. now destruct H.
Qed.

End Series.

Lemma delivery_failure_commits_delivered_witness :
  let sdata := Example.series "Series One" (Some Example.may_1) 7 in
  let w' := snd (process_series (rt:=Example.runtime) "1" 50 "S1" sdata
                   Example.second_forbidden (Example.world_of Example.one_guild)) in
  delivered (log w') =
    [] ++ map (fun ch => (50, release_message (rt:=Example.runtime) sdata "Series One" ch))
            [Example.chapter_of "a" "2024-05-02T00:00:00+00:00" "10"] /\
  send_attempts (log w') = (0 + 1 + 1)%nat /\
  watermark "1" "S1" (data w') = Some "2024-05-02T00:00:00+00:00".
Proof.
  apply (delivery_failure_commits_delivered (rt:=Example.runtime)
           "1" 50 "S1" (Example.series "Series One" (Some Example.may_1) 7)
           Example.may_1 Example.two_new
           [Example.chapter_of "a" "2024-05-02T00:00:00+00:00" "10"]
           (Example.chapter_of "b" "2024-05-03T00:00:00+00:00" "11") []
           Example.second_forbidden (Example.world_of Example.one_guild));
    try reflexivity.
  - intros [|i] ch H; simpl in H.
    + reflexivity.
    + destruct i; discriminate.
  - discriminate.
Defined.

Lemma priming_sets_latest_without_messages_witness :
  let sdata := Example.series "Series One" None 7 in
  let w' := snd (process_series (rt:=Example.runtime) "1" 50 "S1" sdata
                   (Example.calm [1] Example.unordered)
                   (Example.world_of Example.unprimed_guild)) in
  delivered (log w') = [] /\
  send_attempts (log w') = 0%nat /\
  (Example.unordered_sorted = [] -> watermark "1" "S1" (data w') = None) /\
  (Example.unordered_sorted <> [] ->
   exists latest,
     In latest Example.unordered_sorted /\
     watermark "1" "S1" (data w') = Some (c_readableAt latest) /\
     forall c, In c Example.unordered_sorted ->
               chapter_leb (rt:=Example.runtime) c latest = true).
Proof.
  apply (priming_sets_latest_without_messages (rt:=Example.runtime)
           "1" 50 "S1" (Example.series "Series One" None 7)
           Example.unordered Example.unordered_sorted
           (Example.calm [1] Example.unordered)
           (Example.world_of Example.unprimed_guild));
    reflexivity.
Defined.

(** ** Watermarks over runs of the task *)

Section Monotonic.

Context {rt : Runtime}.

Lemma ts_leb_refl t : ts_leb t t = true.
Proof. unfold ts_leb. now rewrite String.eqb_refl. Qed.

Lemma ts_leb_trans a b c :
  ts_leb a b = true -> ts_leb b c = true -> ts_leb a c = true.
Proof.
  unfold ts_leb. intros Hab Hbc.
  apply orb_true_iff in Hab as [Hab|Hab].
  { apply String.eqb_eq in Hab. subst b. exact Hbc. }
  apply orb_true_iff in Hbc as [Hbc|Hbc].
  { apply String.eqb_eq in Hbc. subst c. rewrite Hab. apply orb_true_r. }
  destruct (parse_iso a) as [x|]; [|discriminate].
  destruct (parse_iso b) as [y|]; [|discriminate].
  destruct (parse_iso c) as [z|]; [|discriminate].
  rewrite (dt_ltb_trans _ _ _ Hab Hbc). apply orb_true_r.
Qed.

Lemma wm_leb_refl o : wm_leb o o = true.
Proof.
  unfold wm_leb. destruct (truthy_str o) eqn:Ho; [|reflexivity].
  destruct o as [t|]; [|discriminate]. simpl in Ho.
  now rewrite Ho, ts_leb_refl.
Qed.

Lemma wm_leb_trans a b c :
  wm_leb a b = true -> wm_leb b c = true -> wm_leb a c = true.
Proof.
  unfold wm_leb. destruct (truthy_str a) eqn:Ha; [|reflexivity].
  destruct a as [ta|]; [|discriminate].
  destruct b as [tb|]; [|discriminate].
  intros Hab. apply andb_true_iff in Hab as [Hb Hab].
  simpl. rewrite Hb.
  destruct c as [tc|]; [|discriminate].
  intros Hbc. apply andb_true_iff in Hbc as [Hc Hbc].
  rewrite Hc. simpl. eapply ts_leb_trans; eauto.
Qed.

Lemma wm_leb_unset o o' : truthy_str o = false -> wm_leb o o' = true.
Proof. unfold wm_leb. now intros ->. Qed.

Lemma advances_refl d : wf_data d = true -> advances d d.
Proof. intros Hwf. split; [exact Hwf|]. intros. apply wm_leb_refl. Qed.

Lemma advances_trans d1 d2 d3 : advances d1 d2 -> advances d2 d3 -> advances d1 d3.
Proof.
  intros [_ H12] [Hwf H23]. split; [exact Hwf|].
  intros g s. eapply wm_leb_trans; eauto.
Qed.

Lemma forallb_dict_set {V} (P : V -> bool) k v (d : dict V) :
  forallb (fun kv => P (snd kv)) d = true -> P v = true ->
  forallb (fun kv => P (snd kv)) (dict_set k v d) = true.
Proof.
  intros Hd Hv. induction d as [|[k' v'] d IH]; simpl in *.
  - now rewrite Hv.
  - apply andb_true_iff in Hd as [H1 H2].
    destruct (String.eqb k k'); simpl.
    + now rewrite Hv, H2.
    + now rewrite H1, IH.
Qed.

Lemma dict_get_forallb {V} (P : V -> bool) k v (d : dict V) :
  forallb (fun kv => P (snd kv)) d = true -> dict_get k d = Some v -> P v = true.
Proof.
  induction d as [|[k' v'] d IH]; simpl; [discriminate|].
  intros H. apply andb_true_iff in H as [H1 H2].
  destruct (String.eqb k k'); [|now apply IH].
  intros E; injection E as <-. exact H1.
Qed.

Lemma dict_get_none_not_in {V} k (d : dict V) :
  dict_get k d = None -> ~ In k (dict_keys d).
Proof.
  unfold dict_keys. induction d as [|[k' v] d IH]; simpl; [tauto|].
  destruct (String.eqb_spec k k') as [->|Hne]; [discriminate|].
  intros H [E|Hin]; [congruence | now apply IH].
Qed.

Lemma distinct_snoc k l :
  distinct l = true -> ~ In k l -> distinct (l ++ [k]) = true.
Proof.
  induction l as [|k' l IH]; simpl; [reflexivity|].
  intros H Hk. apply andb_true_iff in H as [H1 H2].
  rewrite IH by tauto. rewrite andb_true_r.
  apply negb_true_iff in H1. apply negb_true_iff.
  rewrite existsb_app, H1. simpl. rewrite orb_false_r.
  destruct (String.eqb_spec k' k) as [->|]; [tauto | reflexivity].
Qed.

Lemma dict_keys_set_fresh {V} k (v : V) d :
  dict_get k d = None -> dict_keys (dict_set k v d) = dict_keys d ++ [k].
Proof.
  intros H. unfold dict_keys.
  rewrite (dict_set_fresh k v d (dict_get_none_not_in k d H)).
  now rewrite map_app.
Qed.

(** setting a later watermark for a tracked series *)
Lemma advances_set gid series_id sdata ts d :
  wf_data d = true ->
  tracked_record gid series_id d = Some sdata ->
  PyStr.nonempty ts = true ->
  wm_leb (last_seen_ts sdata) (Some ts) = true ->
  advances d (set_tracked gid series_id (with_last_seen_ts (Some ts) sdata) d).
Proof.
  intros Hwf Htracked Hts Hle.
  unfold tracked_record in Htracked.
  destruct (dict_get gid (guilds d)) as [gdata|] eqn:Hg; [|discriminate].
  split.
  - unfold wf_data, set_tracked in *. rewrite Hg. simpl.
    apply andb_true_iff in Hwf as [Hkeys Hguilds]. apply andb_true_iff. split.
    + now rewrite (dict_keys_set_present _ _ _ _ Hg).
    + apply (forallb_dict_set (fun g => distinct (dict_keys (tracked_series g))));
        [exact Hguilds|].
      simpl. rewrite (dict_keys_set_present _ _ _ _ Htracked).
      eapply (dict_get_forallb (fun g => distinct (dict_keys (tracked_series g))));
        eauto.
  - intros g s. unfold watermark.
    destruct (String.eqb_spec g gid) as [->|Hg'].
    + destruct (String.eqb_spec s series_id) as [->|Hs'].
      * rewrite (tracked_record_set_eq _ _ _ _ gdata Hg).
        unfold tracked_record. rewrite Hg, Htracked. exact Hle.
      * rewrite tracked_record_set_ne by congruence. apply wm_leb_refl.
    + rewrite tracked_record_set_ne by congruence. apply wm_leb_refl.
Qed.

(** the entry that [get_guild_data] makes for a guild not seen before *)
Lemma advances_new_guild gid d :
  wf_data d = true ->
  dict_get gid (guilds d) = None ->
  advances d
    {| guilds :=
         dict_set gid {| announce_channel_id := None; tracked_series := [] |}
           (guilds d) |}.
Proof.
  intros Hwf Hnew. split.
  - unfold wf_data in *. simpl.
    apply andb_true_iff in Hwf as [Hkeys Hguilds]. apply andb_true_iff. split.
    + rewrite (dict_keys_set_fresh _ _ _ Hnew).
      apply distinct_snoc; [exact Hkeys | now apply dict_get_none_not_in].
    + now apply (forallb_dict_set (fun g => distinct (dict_keys (tracked_series g)))).
  - intros g s. unfold watermark, tracked_record. simpl.
    destruct (String.eqb_spec gid g) as [<-|Hg'].
    + rewrite Hnew. reflexivity.
    + rewrite dict_get_set_ne by exact Hg'. apply wm_leb_refl.
Qed.

(** What [process_series] does to the state: nothing, or it sets a
    watermark that is not earlier than the one the series had. *)
Lemma process_series_data gid channel_id series_id sdata env w :
  let d' := data (snd (process_series gid channel_id series_id sdata env w)) in
  d' = data w \/
  exists ts,
    PyStr.nonempty ts = true /\
    wm_leb (last_seen_ts sdata) (Some ts) = true /\
    d' = set_tracked gid series_id (with_last_seen_ts (Some ts) sdata) (data w).
Proof.
  intros d'. subst d'.
  destruct (truthy_str (last_seen_ts sdata)) eqn:Htruthy.
  - rewrite process_series_primed by exact Htruthy.
    destruct (session_get env (clock w) series_id) as [payload|]; [|now left].
    destruct (chapters_of_payload payload (last_seen_ts sdata))
      as [[|c l]|e] eqn:Hfetch; [now left| |now left].
    destruct (send_new_chapters_spec channel_id sdata (name sdata) (c :: l)
                (last_seen_ts sdata) env (record_event (Requested series_id) w))
      as (r & w' & -> & Hd & _ & _ & Hr).
    destruct (truthy_str r) eqn:Hr'; [|left; exact Hd].
    right. destruct r as [ts|]; [|discriminate]. simpl in Hr'.
    exists ts. cbn [snd data with_data]. rewrite Hd.
    split; [exact Hr'|]. split; [|reflexivity].
    destruct (last_seen_ts sdata) as [t0|] eqn:Hls; [|discriminate].
    simpl in Htruthy. unfold wm_leb. simpl. rewrite Htruthy, Hr'. simpl.
    destruct Hr as [E|(c' & Hc' & E)]; injection E as ->.
    + apply ts_leb_refl.
    + eapply chapters_later; eauto.
  - rewrite process_series_unprimed by exact Htruthy.
    destruct (session_get env (clock w) series_id) as [payload|]; [|now left].
    destruct (chapters_of_payload payload None) as [all_recent|e] eqn:Hfetch;
      [|now left].
    destruct (last_item all_recent) as [latest|] eqn:Hlast; [|now left].
    right. exists (c_readableAt latest). rewrite save_data_data.
    split; [|split; [|reflexivity]].
    + eapply chapters_nonempty_ts; [exact Hfetch | now apply last_item_in].
    + now apply wm_leb_unset.
Qed.

Lemma distinct_not_in k l : existsb (String.eqb k) l = false -> ~ In k l.
Proof.
  induction l as [|k' l IH]; simpl; [tauto|].
  intros H. apply orb_false_elim in H as [H1 H2].
  intros [->|Hin]; [now rewrite String.eqb_refl in H1 | now apply IH].
Qed.

Lemma dict_get_in {V} k (v : V) d :
  distinct (dict_keys d) = true -> In (k, v) d -> dict_get k d = Some v.
Proof.
  induction d as [|[k' v'] d IH]; simpl; [tauto|].
  intros H. apply andb_true_iff in H as [H1 H2].
  apply negb_true_iff in H1. apply distinct_not_in in H1.
  intros [E|Hin].
  - injection E as -> ->. now rewrite String.eqb_refl.
  - destruct (String.eqb_spec k k') as [->|]; [|now apply IH].
    exfalso. apply H1. change k' with (fst (k', v)). now apply in_map.
Qed.

(** the loop over the tracked series of a guild *)
Lemma for_each_series_advances gid channel_id rest :
  forall env w,
    wf_data (data w) = true ->
    distinct (dict_keys rest) = true ->
    (forall k v, In (k, v) rest -> tracked_record gid k (data w) = Some v) ->
    advances (data w)
      (data (snd (for_each rest
                    (fun item => process_series gid channel_id (fst item) (snd item))
                    env w))).
Proof.
  induction rest as [|[k v] rest IH]; intros env w Hwf Hd Hlive.
  - simpl. now apply advances_refl.
  - simpl in Hd. apply andb_true_iff in Hd as [Hk Hd].
    apply negb_true_iff in Hk. apply distinct_not_in in Hk.
    cbn [for_each]. unfold bind at 1. cbn [fst snd].
    pose proof (process_series_data gid channel_id k v env w) as Hstep.
    destruct (process_series gid channel_id k v env w) as [[u|e] w1].
    + cbn [snd] in Hstep.
      assert (Hadv : advances (data w) (data w1)).
      { destruct Hstep as [->|(ts & Hts & Hle & ->)]; [now apply advances_refl|].
        apply advances_set; auto. apply Hlive. now left. }
      apply (advances_trans _ _ _ Hadv).
      apply IH; [apply Hadv | exact Hd |].
      intros k' v' Hin.
      destruct Hstep as [->|(ts & Hts & Hle & ->)]; [apply Hlive; now right|].
      rewrite tracked_record_set_ne; [apply Hlive; now right|].
      intros E; injection E as ->. apply Hk.
      change k with (fst (k, v')). now apply in_map.
    + cbn [snd] in *.
      destruct Hstep as [->|(ts & Hts & Hle & ->)]; [now apply advances_refl|].
      apply advances_set; auto. apply Hlive. now left.
Qed.

Lemma get_guild_data_spec guild_id env w :
  wf_data (data w) = true ->
  exists gdata w1,
    get_guild_data guild_id env w = (Ok gdata, w1) /\
    dict_get (PyStr.of_int guild_id) (guilds (data w1)) = Some gdata /\
    advances (data w) (data w1) /\
    log w1 = log w.
Proof.
  intros Hwf. unfold get_guild_data.
  destruct (dict_get (PyStr.of_int guild_id) (guilds (data w))) as [gdata|] eqn:Hg.
  - exists gdata, w. repeat split; auto. now apply advances_refl.
  - eexists _, _. split; [reflexivity|]. simpl.
    rewrite dict_get_set_eq. split; [reflexivity|]. split; [|reflexivity].
    now apply advances_new_guild.
Qed.

Lemma process_guild_advances guild_id env w :
  wf_data (data w) = true ->
  advances (data w) (data (snd (process_guild guild_id env w))).
Proof.
  intros Hwf. unfold process_guild. unfold bind at 1.
  destruct (get_guild_data_spec guild_id env w Hwf)
    as (gdata & w1 & -> & Hg & Hadv & _).
  destruct (announce_channel_id gdata) as [channel_id|]; [|exact Hadv].
  destruct (channel_id =? 0); [exact Hadv|].
  unfold bind at 1, get_channel at 1.
  destruct (negb (find_channel env channel_id)); [exact Hadv|].
  destruct (tracked_series gdata) as [|item tracked] eqn:Htracked; [exact Hadv|].
  rewrite <- Htracked. clear item tracked Htracked.
  apply (advances_trans _ _ _ Hadv).
  assert (Hloop := for_each_series_advances (PyStr.of_int guild_id) channel_id
                     (tracked_series gdata) env w1 (proj1 Hadv)).
  assert (Hdistinct : distinct (dict_keys (tracked_series gdata)) = true).
  { destruct Hadv as [Hwf1 _]. unfold wf_data in Hwf1.
    apply andb_true_iff in Hwf1 as [_ Hguilds].
    eapply (dict_get_forallb (fun g => distinct (dict_keys (tracked_series g))));
      [exact Hguilds | exact Hg]. }
  specialize (Hloop Hdistinct).
  unfold bind.
  destruct (for_each _ _ env w1) as [[u|e] w2]; cbn [snd] in *.
  - rewrite save_data_data. apply Hloop.
    intros k v Hin. unfold tracked_record. rewrite Hg. now apply dict_get_in.
  - apply Hloop.
    intros k v Hin. unfold tracked_record. rewrite Hg. now apply dict_get_in.
Qed.

Lemma for_each_guild_advances gs :
  forall env w,
    wf_data (data w) = true ->
    advances (data w) (data (snd (for_each gs process_guild env w))).
Proof.
  induction gs as [|g gs IH]; intros env w Hwf.
  - now apply advances_refl.
  - cbn [for_each]. unfold bind.
    pose proof (process_guild_advances g env w Hwf) as Hstep.
    destruct (process_guild g env w) as [[u|e] w1]; cbn [snd] in *.
    + apply (advances_trans _ _ _ Hstep). apply IH. apply Hstep.
    + exact Hstep.
Qed.

Lemma check_releases_advances env w :
  wf_data (data w) = true ->
  advances (data w) (data (snd (check_releases env w))).
Proof. intros Hwf. unfold check_releases. now apply for_each_guild_advances. Qed.

Lemma run_cycles_advances envs :
  forall w,
    wf_data (data w) = true ->
    advances (data w) (data (run_cycles envs w)).
Proof.
  induction envs as [|env envs IH]; intros w Hwf.
  - now apply advances_refl.
  - cbn [run_cycles].
    pose proof (check_releases_advances env w Hwf) as Hstep.
    apply (advances_trans _ _ _ Hstep). apply IH. apply Hstep.
Qed.

(** C1.  Over any runs of the task, whatever the index answers, whichever
    deliveries and writes fail: the watermark of a series after further
    runs is not earlier than its watermark before them, and once set it
    stays set. *)
Theorem watermark_never_moves_back envs envs' w gid series_id :
  wf_data (data w) = true ->
  wm_leb (watermark gid series_id (data (run_cycles envs w)))
         (watermark gid series_id (data (run_cycles envs' (run_cycles envs w)))) =
  true.
Proof.
  intros Hwf.
  apply (run_cycles_advances envs' (run_cycles envs w)).
  now apply run_cycles_advances.
Qed.

End Monotonic.

Lemma watermark_never_moves_back_witness :
  wm_leb (rt:=Example.runtime)
    (watermark "1" "S1"
       (data (run_cycles (rt:=Example.runtime) [Example.second_forbidden]
                (Example.world_of Example.one_guild))))
    (watermark "1" "S1"
       (data (run_cycles (rt:=Example.runtime) [Example.calm [1] Example.two_new]
                (run_cycles (rt:=Example.runtime) [Example.second_forbidden]
                   (Example.world_of Example.one_guild))))) =
  true.
Proof.
  apply (watermark_never_moves_back (rt:=Example.runtime)
           [Example.second_forbidden] [Example.calm [1] Example.two_new]
           (Example.world_of Example.one_guild) "1" "S1").
  reflexivity.
Defined.

(** ** A write that fails *)

Section Writes.

Context {rt : Runtime}.

Lemma raises_only_ret {A} (a : A) : raises_only_at_write (ret a).
Proof.
  intros env w. simpl. split.
  - exists []. now rewrite app_nil_r.
  - discriminate.
Qed.

Lemma raises_only_bind {A B} (m : M A) (k : A -> M B) :
  raises_only_at_write m -> (forall a, raises_only_at_write (k a)) ->
  raises_only_at_write (bind m k).
Proof.
  intros Hm Hk env w. unfold bind.
  destruct (Hm env w) as [(l1 & Hl1) Hr1].
  destruct (m env w) as [[a|e] w1] eqn:Em; cbn [fst snd] in *.
  - destruct (Hk a env w1) as [(l2 & Hl2) Hr2].
    split.
    + exists (l1 ++ l2). now rewrite Hl2, Hl1, app_assoc.
    + intros e He. destruct (Hr2 e He) as [-> (l & Hl & Hw)].
      split; [reflexivity|].
      assert (Hclock : (clock w1 + List.length l = clock w + List.length (l1 ++ l))%nat).
      { unfold clock. rewrite Hl1, !length_app. lia. }
      exists (l1 ++ l). rewrite <- Hclock. split; [|exact Hw].
      rewrite Hl, Hl1, <- !app_assoc. reflexivity.
  - split; [eauto|].
    intros e' E. injection E as <-. now apply Hr1.
Qed.

Lemma raises_only_save_data : raises_only_at_write save_data.
Proof.
  intros env w. unfold save_data. split.
  - exists [WriteAttempt (file_write env (clock w))].
    now destruct (file_write env (clock w)).
  - intros e He.
    assert (Hw : file_write env (clock w) <> Written)
      by (intros Hw; rewrite Hw in He; discriminate).
    split.
    + destruct (file_write env (clock w)); [discriminate | |]; now injection He.
    + exists []. simpl. rewrite Nat.add_0_r. split; [|exact Hw].
      now destruct (file_write env (clock w)).
Qed.


Lemma raises_only_modify_data f : raises_only_at_write (modify_data f).
Proof.
  intros env w. unfold modify_data. cbn [fst snd]. split.
  - exists []. simpl. now rewrite app_nil_r.
  - discriminate.
Qed.







(** *** The first write that fails *)

















End Writes.



(** * Further properties *)

(** ** Strings *)

Lemma startswith_app p s t :
  PyStr.startswith p s = true -> PyStr.startswith p (s ++ t)%string = true.
Proof.
  revert s; induction p as [|a p IH]; intros s; [reflexivity|].
  destruct s as [|b s]; simpl; [discriminate|].
  intros H. apply andb_true_iff in H as [H1 H2].
  rewrite H1. simpl. now apply IH.
Qed.

Lemma contains_app_l sub s t :
  PyStr.contains sub s = true -> PyStr.contains sub (s ++ t)%string = true.
Proof.
  induction s as [|a s IH].
  - simpl. rewrite orb_false_r. intros H. destruct sub; [|discriminate].
    destruct t; reflexivity.
  - rewrite append_cons. cbn [PyStr.contains].
    intros H. apply orb_true_iff in H as [H|H].
    + apply (startswith_app _ (String a s) t) in H. rewrite append_cons in H.
      now rewrite H.
    + rewrite (IH H). apply orb_true_r.
Qed.

(** a string without the character [c] *)
Lemma contains_char_cons c a s :
  PyStr.contains (String c EmptyString) (String a s) =
  Ascii.eqb a c || PyStr.contains (String c EmptyString) s.
Proof.
  simpl. rewrite andb_true_r. now rewrite (Ascii.eqb_sym c a).
Qed.

Lemma lstrip_without c s :
  PyStr.contains (String c EmptyString) s = false -> PyStr.lstrip c s = s.
Proof.
  destruct s as [|a s]; [reflexivity|].
  rewrite contains_char_cons. intros H. apply orb_false_elim in H as [H _].
  simpl. now rewrite H.
Qed.

Lemma rstrip_without c s :
  PyStr.contains (String c EmptyString) s = false -> PyStr.rstrip c s = s.
Proof.
  induction s as [|a s IH]; [reflexivity|].
  rewrite contains_char_cons. intros H. apply orb_false_elim in H as [H1 H2].
  simpl. rewrite (IH H2), H1. now destruct s.
Qed.

Lemma split_without c s :
  PyStr.contains (String c EmptyString) s = false -> PyStr.split c s = [s].
Proof.
  induction s as [|a s IH]; [reflexivity|].
  rewrite contains_char_cons. intros H. apply orb_false_elim in H as [H1 H2].
  simpl. now rewrite H1, (IH H2).
Qed.

(** no part of [s.split(c)] contains [c] *)
Lemma split_parts_without c s :
  Forall (fun part => PyStr.contains (String c EmptyString) part = false)
         (PyStr.split c s).
Proof.
  induction s as [|a s IH]; [repeat constructor|].
  simpl. destruct (Ascii.eqb a c) eqn:E.
  - constructor; [reflexivity | exact IH].
  - destruct (PyStr.split c s) as [|p ps]; [repeat constructor|].
    + rewrite contains_char_cons, E. reflexivity.
    + inversion IH as [|? ? Hp Hps]; subst. constructor; [|exact Hps].
      rewrite contains_char_cons, E. exact Hp.
Qed.

Lemma split_app_sep c p s :
  PyStr.contains (String c EmptyString) p = false ->
  PyStr.split c (p ++ String c s)%string = p :: PyStr.split c s.
Proof.
  induction p as [|a p IH].
  - intros _. rewrite append_nil_l. simpl. now rewrite Ascii.eqb_refl.
  - rewrite contains_char_cons. intros H. apply orb_false_elim in H as [H1 H2].
    rewrite append_cons. cbn [PyStr.split]. now rewrite H1, (IH H2).
Qed.

Lemma rstrip_app c p s :
  PyStr.rstrip c (p ++ s)%string =
  match PyStr.rstrip c s with
  | EmptyString => PyStr.rstrip c p
  | r => (p ++ r)%string
  end.
Proof.
  induction p as [|a p IH].
  - rewrite append_nil_l. simpl. now destruct (PyStr.rstrip c s).
  - rewrite append_cons. cbn [PyStr.rstrip]. rewrite IH.
    destruct (PyStr.rstrip c s) as [|b r]; [reflexivity|].
    rewrite append_cons.
    destruct p; [rewrite append_nil_l | rewrite append_cons]; reflexivity.
Qed.

Lemma endswith_app_char z s t b :
  PyStr.endswith (String z EmptyString) (s ++ String b t)%string =
  PyStr.endswith (String z EmptyString) (String b t).
Proof.
  induction s as [|a s IH]; [now rewrite append_nil_l|].
  rewrite append_cons.
  cbn [PyStr.endswith]. rewrite IH.
  replace (String.eqb (String a (s ++ String b t)) (String z EmptyString)) with false;
    [reflexivity|].
  simpl. destruct (Ascii.eqb a z); [|reflexivity].
  destruct s; [rewrite append_nil_l | rewrite append_cons]; reflexivity.
Qed.

Lemma drop_last_app_char s a :
  PyStr.drop_last (s ++ String a EmptyString)%string = s.
Proof.
  induction s as [|b s IH]; [reflexivity|].
  rewrite append_cons. cbn [PyStr.drop_last]. rewrite IH.
  destruct s; [rewrite append_nil_l | rewrite append_cons]; reflexivity.
Qed.

(** ** [parse_iso] *)

(** X1.  A final "Z" is read as the offset "+00:00". *)
Theorem parse_iso_z_is_utc {rt : Runtime} (s : string) :
  parse_iso (s ++ "Z")%string = parse_iso (s ++ "+00:00")%string.
Proof.
  unfold parse_iso.
  rewrite (endswith_app_char "Z" s "" "Z"), (endswith_app_char "Z" s "00:00" "+").
  rewrite drop_last_app_char. reflexivity.
Qed.

(** ** [extract_mangadex_id] *)

Lemma find_part_some series_arg part :
  find (fun part => PyStr.contains "-" part && (8 <=? PyStr.len part))
       (PyStr.split "/" (PyStr.strip "/" series_arg)) = Some part ->
  PyStr.contains "/" part = false /\
  PyStr.contains "-" part && (8 <=? PyStr.len part) = true.
Proof.
  intros H. apply find_some in H as [Hin Hq]. split; [|exact Hq].
  pose proof (split_parts_without "/" (PyStr.strip "/" series_arg)) as F.
  rewrite Forall_forall in F. now apply F.
Qed.

Lemma extract_part part :
  PyStr.contains "/" part = false ->
  PyStr.contains "-" part && (8 <=? PyStr.len part) = true ->
  extract_mangadex_id part = part.
Proof.
  intros Hs Hq. unfold extract_mangadex_id.
  destruct (PyStr.contains "mangadex.org" part); [|reflexivity].
  unfold PyStr.strip. rewrite (lstrip_without _ _ Hs), (rstrip_without _ _ Hs).
  rewrite (split_without _ _ Hs). simpl. now rewrite Hq.
Qed.

(** X2.  Extracting twice gives what extracting once gives: the key under
    which [!track] records a series is read as itself by [!untrack]. *)
Theorem extract_mangadex_id_idempotent (series_arg : string) :
  extract_mangadex_id (extract_mangadex_id series_arg) =
  extract_mangadex_id series_arg.
Proof.
  unfold extract_mangadex_id at 2 3.
  destruct (PyStr.contains "mangadex.org" series_arg) eqn:Hurl.
  - destruct (find _ _) as [part|] eqn:Hfind.
    + destruct (find_part_some _ _ Hfind) as [Hs Hq]. now apply extract_part.
    + unfold extract_mangadex_id. now rewrite Hurl, Hfind.
  - unfold extract_mangadex_id. now rewrite Hurl.
Qed.

Lemma title_prefix_parts s :
  PyStr.split "/" ("https://mangadex.org/title/" ++ s)%string =
  "https:"%string :: ""%string :: "mangadex.org"%string :: "title"%string ::
  PyStr.split "/" s.
Proof.
  change ("https://mangadex.org/title/" ++ s)%string
    with ("https:" ++ String "/" ("" ++ String "/"
            ("mangadex.org" ++ String "/" ("title" ++ String "/" s))))%string.
  now rewrite !split_app_sep by reflexivity.
Qed.

(** X3.  The address of a title page gives the id that follows "/title/",
    whatever comes after the id. *)
Theorem extract_mangadex_id_of_title_url (id rest : string) :
  PyStr.contains "/" id = false ->
  PyStr.contains "-" id = true ->
  8 <= PyStr.len id ->
  extract_mangadex_id ("https://mangadex.org/title/" ++ id)%string = id /\
  extract_mangadex_id ("https://mangadex.org/title/" ++ id ++ "/" ++ rest)%string = id.
Proof.
  intros Hs Hh Hl.
  assert (Hq : PyStr.contains "-" id && (8 <=? PyStr.len id) = true).
  { rewrite Hh. simpl. now apply Z.leb_le. }
  assert (Hne : exists a id', id = String a id').
  { destruct id as [|a id']; [|eauto]. unfold PyStr.len in Hl. simpl in Hl. lia. }
  assert (Hurl : forall t,
             PyStr.contains "mangadex.org" ("https://mangadex.org/title/" ++ t)%string
             = true)
    by (intros t; now apply contains_app_l).
  assert (Hstrip : forall t,
             PyStr.strip "/" ("https://mangadex.org/title/" ++ id ++ t)%string =
             ("https://mangadex.org/title/" ++ id ++ PyStr.rstrip "/" t)%string).
  { intros t. unfold PyStr.strip.
    change (PyStr.lstrip "/" ("https://mangadex.org/title/" ++ id ++ t)%string)
      with ("https://mangadex.org/title/" ++ id ++ t)%string.
    rewrite !rstrip_app.
    destruct (PyStr.rstrip "/" t) as [|b r] eqn:Et.
    - rewrite (rstrip_without _ _ Hs).
      destruct Hne as (a & id' & ->).
      now rewrite append_nil_r.
    - destruct Hne as (a & id' & ->). reflexivity. }
  assert (Hfind : forall t,
             t = EmptyString \/ (exists t', t = String "/" t') ->
             find (fun part => PyStr.contains "-" part && (8 <=? PyStr.len part))
               (PyStr.split "/" ("https://mangadex.org/title/" ++ id ++ t)%string) =
             Some id).
  { intros t Ht. rewrite title_prefix_parts.
    cbn [find].
    replace (PyStr.contains "-" "https:" && (8 <=? PyStr.len "https:")) with false
      by reflexivity.
    replace (PyStr.contains "-" "" && (8 <=? PyStr.len "")) with false by reflexivity.
    replace (PyStr.contains "-" "mangadex.org" && (8 <=? PyStr.len "mangadex.org"))
      with false by reflexivity.
    replace (PyStr.contains "-" "title" && (8 <=? PyStr.len "title")) with false
      by reflexivity.
    destruct Ht as [->|(t' & ->)].
    - rewrite append_nil_r, (split_without _ _ Hs). simpl. now rewrite Hq.
    - rewrite (split_app_sep _ _ _ Hs). simpl. now rewrite Hq. }
  split.
  - unfold extract_mangadex_id. rewrite Hurl.
    rewrite <- (append_nil_r id) at 1. rewrite Hstrip. simpl PyStr.rstrip.
    rewrite Hfind; auto.
  - unfold extract_mangadex_id. rewrite Hurl, Hstrip.
    rewrite Hfind; [reflexivity|].
    change ("/" ++ rest)%string with (String "/" rest).
    simpl PyStr.rstrip. destruct (PyStr.rstrip "/" rest); simpl; eauto.
Qed.
Lemma extract_mangadex_id_of_title_url_witness :
  extract_mangadex_id
    "https://mangadex.org/title/9a414441-bbad-43f1-a3a7-dc262ca790a3" =
    "9a414441-bbad-43f1-a3a7-dc262ca790a3" /\
  extract_mangadex_id
    "https://mangadex.org/title/9a414441-bbad-43f1-a3a7-dc262ca790a3/a-name/" =
    "9a414441-bbad-43f1-a3a7-dc262ca790a3".
Proof.
  apply (extract_mangadex_id_of_title_url
           "9a414441-bbad-43f1-a3a7-dc262ca790a3" "a-name/");
    [reflexivity | reflexivity | vm_compute; discriminate].
Defined.

(** ** What [fetch_latest_for_series] returns *)

Section Fetched.

Context {rt : Runtime}.

Lemma item_chapter_field ch attr cf :
  py_get ch "attributes" (JObj []) = Ok attr ->
  py_get attr "chapter" JNull = Ok cf ->
  cf = item_chapter ch.
Proof.
  destruct ch; simpl; try discriminate.
  intros Hattr Hcf.
  destruct (dict_get "attributes" fields) as [v|].
  - injection Hattr as ->. destruct attr; simpl in Hcf; try discriminate.
    destruct (dict_get "chapter" fields0); congruence.
  - injection Hattr as <-. simpl in Hcf. congruence.
Qed.

Lemma collect_chapters_shape since_dt items kept :
  collect_chapters since_dt items = Ok kept ->
  (List.length kept <= List.length items)%nat /\
  Forall (fun c =>
            c_url c = ("https://mangadex.org/chapter/" ++ format_value (c_id c))%string /\
            truthy (c_id c) = true /\ truthy (c_chapter c) = true /\
            exists item,
              In item items /\
              c_id c = item_id item /\
              JStr (c_readableAt c) = item_readableAt item /\
              c_chapter c =
                if truthy (item_chapter item) then item_chapter item else JStr "?")
         kept.
Proof.
  revert kept; induction items as [|ch rest IH]; simpl; intros kept H.
  - injection H as <-. split; [simpl; lia | constructor].
  - assert (Hrest : forall kept',
               collect_chapters since_dt rest = Ok kept' ->
               (List.length kept' <= S (List.length rest))%nat /\
               Forall (fun c =>
                         c_url c =
                           ("https://mangadex.org/chapter/" ++
                            format_value (c_id c))%string /\
                         truthy (c_id c) = true /\ truthy (c_chapter c) = true /\
                         exists item,
                           (ch = item \/ In item rest) /\
                           c_id c = item_id item /\
                           JStr (c_readableAt c) = item_readableAt item /\
                           c_chapter c =
                             if truthy (item_chapter item) then item_chapter item
                             else JStr "?") kept').
    { intros kept' H'. destruct (IH _ H') as [Hl F]. split; [lia|].
      eapply Forall_impl; [|exact F].
      intros c (Hu & Hi & Hc & item & Hin & Hrest). eauto 10. }
    rbind_inv H as i Hi. rbind_inv H as attr Hattr.
    rbind_inv H as cf Hcf. rbind_inv H as ra Hra.
    destruct (item_fields _ _ _ _ Hi Hattr Hra) as [-> ->].
    pose proof (item_chapter_field _ _ _ Hattr Hcf) as Ecf. subst cf.
    destruct (negb (truthy (item_id ch)) || negb (truthy (item_readableAt ch)))
      eqn:Hskip; [now apply Hrest|].
    apply orb_false_elim in Hskip as [Hid _]. apply negb_false_iff in Hid.
    rbind_inv H as t Ht. rbind_inv H as d Hd. rbind_inv H as old Hold.
    destruct old; [now apply Hrest|].
    rbind_inv H as more Hmore. injection H as <-.
    destruct (IH _ Hmore) as [Hl _]. destruct (Hrest _ Hmore) as [_ F].
    split; [simpl; lia|].
    constructor; [|exact F]. simpl.
    split; [reflexivity|]. split; [exact Hid|].
    split; [now destruct (truthy (item_chapter ch)) eqn:E|].
    exists ch. split; [now left|]. split; [reflexivity|]. split; [|reflexivity].
    destruct (item_readableAt ch); simpl in Ht; try discriminate. congruence.
Qed.

(** X4.  The batch has at most as many chapters as the response has
    items; every chapter has an identifier that counts as present, a link
    made of "https://mangadex.org/chapter/" and the identifier, and a
    chapter label that counts as present: the label of the item of the
    response from which it has its identifier and its timestamp, or "?"
    when that item has no label (none, [null], or an empty one). *)
Theorem fetched_chapters_shape payload since_ts batch :
  chapters_of_payload payload since_ts = Ok batch ->
  exists items,
    response_items payload = Ok items /\
    (List.length batch <= List.length items)%nat /\
    Forall (fun c =>
              c_url c =
                ("https://mangadex.org/chapter/" ++ format_value (c_id c))%string /\
              truthy (c_id c) = true /\ truthy (c_chapter c) = true /\
              exists item,
                In item items /\
                c_id c = item_id item /\
                JStr (c_readableAt c) = item_readableAt item /\
                c_chapter c =
                  if truthy (item_chapter item) then item_chapter item else JStr "?")
           batch.
Proof.
  unfold chapters_of_payload; intros H. rbind_inv H as kept Hkept.
  destruct (kept_chapters_has_items _ _ _ Hkept) as [items Hitems].
  destruct (kept_chapters_inv _ _ _ _ Hitems Hkept) as (since_dt & _ & Hc).
  destruct (collect_chapters_shape _ _ _ Hc) as [Hl F].
  pose proof (sort_by_key_perm _ _ _ H) as P.
  exists items. split; [exact Hitems|]. split.
  - now rewrite (Permutation_length P).
  - exact (Permutation_Forall (Permutation_sym P) F).
Qed.

(** the sort ends normally only when any two keys can be compared *)
Lemma same_kind_refl a : same_kind a a = true.
Proof. now destruct a. Qed.

Lemma insert_by_key_kind {A} k (x : A) l r :
  insert_by_key k x l = Ok r ->
  match l with
  | [] => True
  | q :: _ => same_kind (fst q) k = true
  end.
Proof.
  destruct l as [|[k' y] l]; [trivial|]. simpl. intros H.
  rbind_inv H as b Hb. eapply dt_lt_ok_same_kind; eauto.
Qed.

Lemma sort_keyed_kinds {A} (l r : list (datetime * A)) :
  sort_keyed l = Ok r ->
  forall p q, In p l -> In q l -> same_kind (fst p) (fst q) = true.
Proof.
  revert r; induction l as [|[k x] l IH]; simpl; intros r H p q Hp Hq; [tauto|].
  rbind_inv H as s Hs.
  assert (Hk : forall q, In q l -> same_kind (fst q) k = true).
  { intros q' Hq'.
    pose proof (insert_by_key_kind _ _ _ _ H) as Hfirst.
    assert (Hin : In q' s)
      by (apply (Permutation_in _ (Permutation_sym (sort_keyed_perm _ _ Hs))), Hq').
    destruct s as [|q0 s]; [destruct Hin|].
    eapply same_kind_trans; [|exact Hfirst].
    apply (IH _ Hs); [exact Hq'|].
    apply (Permutation_in _ (sort_keyed_perm _ _ Hs)). now left. }
  destruct Hp as [<-|Hp], Hq as [<-|Hq]; simpl.
  - apply same_kind_refl.
  - rewrite same_kind_sym. now apply Hk.
  - now apply Hk.
  - now apply (IH _ Hs).
Qed.

Lemma chapters_same_kind payload since_ts batch a b da db :
  chapters_of_payload payload since_ts = Ok batch ->
  In a batch -> In b batch ->
  parse_iso (c_readableAt a) = Ok da -> parse_iso (c_readableAt b) = Ok db ->
  same_kind da db = true.
Proof.
  intros H Ha Hb Hda Hdb.
  unfold chapters_of_payload in H. rbind_inv H as kept Hkept.
  destruct (sort_by_key_inv _ _ _ H) as (kl & kr & Hkl & Hkr & -> & Fk).
  rewrite Forall_forall in Fk.
  apply in_map_iff in Ha as (qa & <- & Ha), Hb as (qb & <- & Hb).
  rewrite (Fk _ Ha) in Hda. rewrite (Fk _ Hb) in Hdb.
  injection Hda as <-. injection Hdb as <-.
  apply (sort_keyed_kinds _ _ Hkr);
    apply (Permutation_in _ (sort_keyed_perm _ _ Hkr)); assumption.
Qed.

(** X5.  A batch never holds a time with an offset beside one without:
    the times of its chapters can all be read and any two of them can be
    compared, and so can each of them and the watermark. *)
Theorem fetched_times_are_comparable payload since_ts batch :
  chapters_of_payload payload since_ts = Ok batch ->
  (forall c, In c batch -> exists d, parse_iso (c_readableAt c) = Ok d) /\
  (forall a b da db,
     In a batch -> In b batch ->
     parse_iso (c_readableAt a) = Ok da -> parse_iso (c_readableAt b) = Ok db ->
     same_kind da db = true) /\
  (forall ts since c d,
     since_ts = Some ts -> PyStr.nonempty ts = true -> parse_iso ts = Ok since ->
     In c batch -> parse_iso (c_readableAt c) = Ok d ->
     same_kind since d = true).
Proof.
  intros H.
  destruct (chapters_of_payload_kept _ _ _ H) as (since_dt & items & Hs & _ & F).
  rewrite Forall_forall in F.
  split; [|split].
  - intros c Hc. destruct (F c Hc) as (_ & (d & Hd & _) & _). eauto.
  - intros a b da db. now apply (chapters_same_kind payload since_ts batch).
  - intros ts since c d -> Hne Hts Hc Hd.
    simpl in Hs. rewrite Hne, Hts in Hs. simpl in Hs. injection Hs as <-.
    destruct (F c Hc) as (_ & (d' & Hd' & Hle) & _).
    rewrite Hd in Hd'. injection Hd' as <-.
    rewrite same_kind_sym. eapply dt_le_ok_same_kind; eauto.
Qed.

(** with a bound that no kept chapter is after, nothing is kept *)
Lemma dt_le_trans a b c :
  dt_le a b = Ok true -> dt_le b c = Ok true -> dt_le a c = Ok true.
Proof.
  destruct a, b, c; simpl; try discriminate;
    intros H1 H2; injection H1 as H1; injection H2 as H2; f_equal;
    rewrite Z.leb_le in *; lia.
Qed.

Lemma collect_chapters_bound since_dt bound items kept :
  collect_chapters since_dt items = Ok kept ->
  (forall c d, In c kept -> parse_iso (c_readableAt c) = Ok d ->
               dt_le d bound = Ok true) ->
  match since_dt with
  | Some since => dt_le since bound = Ok true
  | None => True
  end ->
  collect_chapters (Some bound) items = Ok [].
Proof.
  revert kept; induction items as [|ch rest IH]; simpl; intros kept H Hkept Hsince;
    [reflexivity|].
  rbind_inv H as i Hi. rbind_inv H as attr Hattr.
  rbind_inv H as cf Hcf. rbind_inv H as ra Hra.
  rewrite Hi, Hattr; simpl. rewrite Hcf, Hra; simpl.
  destruct (negb (truthy i) || negb (truthy ra)); [now apply (IH kept)|].
  rbind_inv H as s Hs. rbind_inv H as d Hd. rbind_inv H as old Hold.
  rewrite Hs; simpl. rewrite Hd; simpl.
  destruct old.
  - destruct since_dt as [since|]; [|discriminate].
    rewrite (dt_le_trans _ _ _ Hold Hsince). simpl. now apply (IH kept).
  - rbind_inv H as more Hmore. injection H as <-.
    rewrite (Hkept _ d (or_introl eq_refl)) by exact Hd. simpl.
    apply (IH more); [exact Hmore | | exact Hsince].
    intros c d' Hc. apply Hkept. now right.
Qed.

Lemma dt_le_false_le a b : dt_le a b = Ok false -> dt_le b a = Ok true.
Proof.
  destruct a, b; simpl; try discriminate;
    intros H; injection H as H; f_equal;
    rewrite Z.leb_gt in H; rewrite Z.leb_le; lia.
Qed.

Lemma dt_leb_le a b : dt_leb a b = true -> dt_le a b = Ok true.
Proof. unfold dt_leb. destruct (dt_le a b) as [[]|]; congruence. Qed.

(** fetching again with the time of the last chapter of a batch as the
    watermark returns no chapter *)
Lemma refetch_after_batch_is_empty payload since_ts batch latest :
  chapters_of_payload payload since_ts = Ok batch ->
  last_item batch = Some latest ->
  chapters_of_payload payload (Some (c_readableAt latest)) = Ok [].
Proof.
  intros H Hlast.
  pose proof (last_chapter_is_latest _ _ _ _ H Hlast) as Hmax.
  destruct (chapters_of_payload_kept _ _ _ H) as (since_dt & items & Hs & Hitems & F).
  rewrite Forall_forall in F.
  destruct (F latest (last_item_in _ _ Hlast)) as (Hne & (dl & Hdl & Hafter) & _).
  unfold chapters_of_payload in *. rbind_inv H as kept Hkept.
  pose proof (sort_by_key_perm _ _ _ H) as P.
  destruct (kept_chapters_inv _ _ _ _ Hitems Hkept) as (since_dt' & Hs' & Hc).
  rewrite Hs in Hs'. injection Hs' as <-.
  rewrite (kept_chapters_items _ (Some (c_readableAt latest)) _ Hitems).
  simpl. rewrite Hne, Hdl. simpl.
  rewrite (collect_chapters_bound since_dt dl items kept); [reflexivity | exact Hc | |].
  - intros c d Hc' Hd.
    assert (Hin : In c batch) by (apply (Permutation_in _ (Permutation_sym P)), Hc').
    specialize (Hmax c Hin). unfold chapter_leb in Hmax.
    rewrite Hd, Hdl in Hmax. now apply dt_leb_le.
  - destruct since_dt as [since|]; [|exact I]. now apply dt_le_false_le.
Qed.

End Fetched.

Lemma fetched_chapters_shape_witness :
  exists items,
    response_items Sample.unnumbered = Ok items /\
    (List.length [Example.chapter_of "n" "2024-05-02T00:00:00+00:00" "?"]
     <= List.length items)%nat /\
    Forall (fun c =>
              c_url c =
                ("https://mangadex.org/chapter/" ++
                 format_value (Runtime:=Example.runtime) (c_id c))%string /\
              truthy (c_id c) = true /\ truthy (c_chapter c) = true /\
              exists item,
                In item items /\
                c_id c = item_id item /\
                JStr (c_readableAt c) = item_readableAt item /\
                c_chapter c =
                  if truthy (item_chapter item) then item_chapter item else JStr "?")
           [Example.chapter_of "n" "2024-05-02T00:00:00+00:00" "?"].
Proof.
  apply (fetched_chapters_shape (rt:=Example.runtime) Sample.unnumbered None).
  reflexivity.
Defined.

Lemma fetched_times_are_comparable_witness :
  (forall c, In c Sample.two_new_sorted ->
             exists d, parse_iso (rt:=Example.runtime) (c_readableAt c) = Ok d) /\
  (forall a b da db,
     In a Sample.two_new_sorted -> In b Sample.two_new_sorted ->
     parse_iso (rt:=Example.runtime) (c_readableAt a) = Ok da ->
     parse_iso (rt:=Example.runtime) (c_readableAt b) = Ok db ->
     same_kind da db = true) /\
  (forall ts since c d,
     Some Example.may_1 = Some ts -> PyStr.nonempty ts = true ->
     parse_iso (rt:=Example.runtime) ts = Ok since ->
     In c Sample.two_new_sorted ->
     parse_iso (rt:=Example.runtime) (c_readableAt c) = Ok d ->
     same_kind since d = true).
Proof.
  apply (fetched_times_are_comparable (rt:=Example.runtime)
           Example.two_new (Some Example.may_1) Sample.two_new_sorted).
  reflexivity.
Defined.

(** ** The effects of a run of the task *)

Lemma requests_app l l' : requests (l ++ l') = requests l ++ requests l'.
Proof.
  induction l as [|e l IH]; simpl; [reflexivity|].
  destruct e; simpl; now rewrite IH.
Qed.

Lemma send_channels_app l l' :
  send_channels (l ++ l') = send_channels l ++ send_channels l'.
Proof.
  induction l as [|e l IH]; simpl; [reflexivity|].
  destruct e; simpl; now rewrite IH.
Qed.

Lemma write_attempts_app l l' :
  write_attempts (l ++ l') = (write_attempts l + write_attempts l')%nat.
Proof.
  induction l as [|e l IH]; simpl; [reflexivity|].
  destruct e; simpl; now rewrite IH.
Qed.

Lemma clock_record e w : clock (record_event e w) = S (clock w).
Proof. unfold clock, record_event; simpl. rewrite length_app; simpl. lia. Qed.

Section Effects.

Context {rt : Runtime}.

(** the loop over the new chapters when every message is delivered *)
Lemma send_new_chapters_all_sent channel_id sdata series_name batch :
  forall latest env w,
    (forall i ch, nth_error batch i = Some ch ->
       channel_send env (clock w + i) channel_id
         (release_message sdata series_name ch) = Sent) ->
    send_new_chapters channel_id sdata series_name batch latest env w =
    (Ok match last_item batch with
        | Some p => Some (c_readableAt p)
        | None => latest
        end,
     {| data := data w;
        disk := disk w;
        log := log w ++
               map (fun ch => SendAttempt channel_id
                                (release_message sdata series_name ch) Sent) batch |}).
Proof.
  induction batch as [|p batch IH]; intros latest env w Hsent.
  - simpl. unfold ret. rewrite app_nil_r. now destruct w.
  - cbn [send_new_chapters]. unfold bind at 1. unfold send at 1.
    rewrite <- (Nat.add_0_r (clock w)), (Hsent 0%nat p eq_refl).
    rewrite IH.
    + rewrite last_item_cons. f_equal.
      * now destruct (last_item batch).
      * unfold record_event; simpl. rewrite <- app_assoc. reflexivity.
    + intros i ch Hi. rewrite clock_record.
      rewrite Nat.add_succ_l, <- Nat.add_succ_r. apply (Hsent (S i)). exact Hi.
Qed.

(** X6.  A series with a watermark whose batch is delivered in full: the
    messages of the batch are delivered oldest first, the watermark becomes
    the timestamp of the last chapter, and the file is not written by this
    step. *)
Theorem full_delivery_commits_latest
    gid channel_id series_id sdata ts payload batch latest env w :
  tracked_record gid series_id (data w) = Some sdata ->
  last_seen_ts sdata = Some ts ->
  PyStr.nonempty ts = true ->
  session_get env (clock w) series_id = Some payload ->
  chapters_of_payload payload (Some ts) = Ok batch ->
  last_item batch = Some latest ->
  (forall i ch, nth_error batch i = Some ch ->
     channel_send env (S (clock w) + i) channel_id
       (release_message sdata (name sdata) ch) = Sent) ->
  let r := process_series gid channel_id series_id sdata env w in
  fst r = Ok tt /\
  delivered (log (snd r)) =
    delivered (log w) ++
    map (fun ch => (channel_id, release_message sdata (name sdata) ch)) batch /\
  watermark gid series_id (data (snd r)) = Some (c_readableAt latest) /\
  write_attempts (log (snd r)) = write_attempts (log w) /\
  disk (snd r) = disk w.
Proof.
  intros Htracked Hts Hne Hget Hbatch Hlast Hsent r. subst r.
  rewrite process_series_primed by (rewrite Hts; exact Hne).
  rewrite Hget, Hts, Hbatch.
  destruct batch as [|c0 rest] eqn:Eb; [discriminate|].
  rewrite <- Eb in *.
  rewrite send_new_chapters_all_sent
    by (intros i ch Hi; rewrite clock_record; now apply Hsent).
  rewrite Hlast.
  assert (Hl : truthy_str (Some (c_readableAt latest)) = true).
  { simpl. eapply chapters_nonempty_ts; [exact Hbatch|]. now apply last_item_in. }
  rewrite Eb at 1. rewrite Hl. cbn [fst snd data disk log with_data record_event].
  split; [reflexivity|]. split; [|split; [|split; [|reflexivity]]].
  - rewrite !delivered_app, delivered_sent. simpl. now rewrite app_nil_r.
  - unfold watermark, tracked_record in *.
    destruct (dict_get gid (guilds (data w))) as [gdata|] eqn:Hg; [|discriminate].
    unfold set_tracked. rewrite Hg. simpl. rewrite dict_get_set_eq. simpl.
    now rewrite dict_get_set_eq.
  - rewrite !write_attempts_app. simpl.
    assert (E : forall l, write_attempts
                  (map (fun ch => SendAttempt channel_id
                                    (release_message sdata (name sdata) ch) Sent) l)
                = 0%nat)
      by (induction l; simpl; auto).
    rewrite E. lia.
Qed.

(** the log of the loop over the new chapters *)
Lemma send_new_chapters_log channel_id sdata series_name chapters :
  forall latest env w,
    exists l,
      log (snd (send_new_chapters channel_id sdata series_name chapters latest env w))
      = log w ++ l /\
      requests l = [] /\ write_attempts l = 0%nat /\
      Forall (fun c => c = channel_id) (send_channels l).
Proof.
  induction chapters as [|ch rest IH]; intros latest env w; simpl.
  - exists []. rewrite app_nil_r. repeat split; constructor.
  - unfold bind at 1, send at 1.
    set (r := channel_send env (clock w) channel_id _).
    set (w1 := record_event _ w).
    assert (H1 : log w1 = log w ++ [SendAttempt channel_id
                                      (release_message sdata series_name ch) r])
      by reflexivity.
    destruct r.
    + destruct (IH (Some (c_readableAt ch)) env w1) as (l & -> & Hr & Hw & Hs).
      exists (SendAttempt channel_id (release_message sdata series_name ch) Sent :: l).
      rewrite H1, <- app_assoc. simpl. repeat split; auto.
    + eexists; split; [exact H1|]. simpl. repeat split; auto.
    + eexists; split; [exact H1|]. simpl. repeat split; auto.
Qed.

Lemma save_data_log env w :
  log (snd (save_data env w)) = log w ++ [WriteAttempt (file_write env (clock w))].
Proof. unfold save_data. now destruct (file_write env (clock w)). Qed.

(** the log of [process_series]: one request, then sends to the channel
    of the guild or one write *)
Lemma process_series_log gid channel_id series_id sdata env w :
  exists l,
    log (snd (process_series gid channel_id series_id sdata env w)) =
      log w ++ Requested series_id :: l /\
    requests l = [] /\
    Forall (fun c => c = channel_id) (send_channels l).
Proof.
  destruct (truthy_str (last_seen_ts sdata)) eqn:Htruthy.
  - rewrite process_series_primed by exact Htruthy.
    assert (Hnone : exists l,
               log (record_event (Requested series_id) w) =
                 log w ++ Requested series_id :: l /\
               requests l = [] /\ Forall (fun c => c = channel_id) (send_channels l))
      by (exists []; repeat split; constructor).
    destruct (session_get env (clock w) series_id) as [payload|]; [|exact Hnone].
    destruct (chapters_of_payload payload (last_seen_ts sdata)) as [[|c l]|e];
      [exact Hnone | | exact Hnone].
    destruct (send_new_chapters_log channel_id sdata (name sdata) (c :: l)
                (last_seen_ts sdata) env (record_event (Requested series_id) w))
      as (l' & Hl & Hr & _ & Hs).
    destruct (send_new_chapters _ _ _ _ _ _ _) as [[latest|e] w'];
      cbn [snd] in Hl.
    + exists l'. split; [|split; assumption].
      destruct (truthy_str latest); cbn [snd log with_data]; rewrite Hl;
        unfold record_event; simpl; now rewrite <- app_assoc.
    + exists l'. split; [|split; assumption].
      cbn [snd]. rewrite Hl. unfold record_event; simpl. now rewrite <- app_assoc.
  - rewrite process_series_unprimed by exact Htruthy.
    assert (Hnone : exists l,
               log (record_event (Requested series_id) w) =
                 log w ++ Requested series_id :: l /\
               requests l = [] /\ Forall (fun c => c = channel_id) (send_channels l))
      by (exists []; repeat split; constructor).
    destruct (session_get env (clock w) series_id) as [payload|]; [|exact Hnone].
    destruct (chapters_of_payload payload None) as [all_recent|e]; [|exact Hnone].
    destruct (last_item all_recent) as [latest|]; [|exact Hnone].
    rewrite save_data_log. cbn [log with_data record_event].
    eexists. rewrite <- app_assoc. split; [reflexivity|].
    split; [reflexivity | constructor].
Qed.

(** the loop over the tracked series of a guild *)
Lemma for_each_series_log gid channel_id tracked :
  forall env w,
    let r := for_each tracked
               (fun item => process_series gid channel_id (fst item) (snd item))
               env w in
    exists l,
      log (snd r) = log w ++ l /\
      (exists rest, dict_keys tracked = requests l ++ rest) /\
      (fst r = Ok tt -> requests l = dict_keys tracked) /\
      Forall (fun c => c = channel_id) (send_channels l).
Proof.
  induction tracked as [|[k v] tracked IH]; intros env w r; subst r.
  - exists []. simpl. rewrite app_nil_r. repeat split; eauto.
  - cbn [for_each]. unfold bind. cbn [fst snd].
    destruct (process_series_log gid channel_id k v env w) as (l1 & Hl1 & Hr1 & Hs1).
    destruct (process_series gid channel_id k v env w) as [[u|e] w1]; cbn [snd] in Hl1.
    + destruct (IH env w1) as (l2 & Hl2 & (rest & Hrest) & Hok & Hs2).
      exists (Requested k :: l1 ++ l2).
      rewrite Hl2, Hl1, <- app_assoc. simpl.
      rewrite requests_app, send_channels_app, Hr1. simpl.
      split; [reflexivity|]. split; [|split].
      * exists rest. unfold dict_keys in *. simpl. now rewrite Hrest.
      * intros H. unfold dict_keys in *. simpl. now rewrite (Hok H).
      * apply Forall_app. split; assumption.
    + exists (Requested k :: l1). cbn [fst snd]. rewrite Hl1. simpl. rewrite Hr1.
      split; [reflexivity|]. split; [|split; [discriminate | exact Hs1]].
      exists (dict_keys tracked). reflexivity.
Qed.

(** X7.  For a guild with a channel that is found: a run asks the index
    for the tracked series in the order in which they are tracked, each
    of them once when the run ends normally and a first part of them when
    a write fails; every message goes to the channel of the guild. *)
Theorem guild_requests_each_series_once guild_id env w gdata channel_id :
  dict_get (PyStr.of_int guild_id) (guilds (data w)) = Some gdata ->
  announce_channel_id gdata = Some channel_id ->
  channel_id <> 0 ->
  find_channel env channel_id = true ->
  let r := process_guild guild_id env w in
  exists l,
    log (snd r) = log w ++ l /\
    (exists rest, dict_keys (tracked_series gdata) = requests l ++ rest) /\
    (fst r = Ok tt -> requests l = dict_keys (tracked_series gdata)) /\
    Forall (fun c => c = channel_id) (send_channels l).
Proof.
  intros Hg Hch Hnz Hfound r. subst r.
  unfold process_guild, bind, get_guild_data, get_channel. rewrite Hg, Hch.
  destruct (Z.eqb_spec channel_id 0) as [|_]; [contradiction|].
  rewrite Hfound. cbn [negb].
  destruct (tracked_series gdata) as [|item tracked] eqn:Htracked.
  { exists []. rewrite app_nil_r. simpl. repeat split; eauto. }
  rewrite <- Htracked. clear item tracked Htracked.
  destruct (for_each_series_log (PyStr.of_int guild_id) channel_id
              (tracked_series gdata) env w) as (l & Hl & Hrest & Hok & Hs).
  destruct (for_each _ _ env w) as [[u|e] w1]; cbn [fst snd] in *.
  - exists (l ++ [WriteAttempt (file_write env (clock w1))]).
    rewrite save_data_log, Hl, <- app_assoc.
    rewrite requests_app, send_channels_app. simpl. rewrite !app_nil_r.
    split; [reflexivity|]. split; [exact Hrest|]. split; [|exact Hs].
    intros _. apply Hok. now destruct u.
  - exists l. split; [exact Hl|]. split; [exact Hrest|]. split; [discriminate | exact Hs].
Qed.

(** X8.  A guild with no channel set, with a channel that is not found,
    or with nothing tracked is passed over: nothing is asked of the index,
    nothing is sent, nothing is written, and no record of a series
    changes. *)
Theorem idle_guild_is_passed_over guild_id env w :
  match dict_get (PyStr.of_int guild_id) (guilds (data w)) with
  | Some gdata =>
      match announce_channel_id gdata with
      | Some channel_id =>
          channel_id = 0 \/ find_channel env channel_id = false \/
          tracked_series gdata = []
      | None => True
      end
  | None => True
  end ->
  let r := process_guild guild_id env w in
  fst r = Ok tt /\ log (snd r) = log w /\ disk (snd r) = disk w /\
  forall g s, tracked_record g s (data (snd r)) = tracked_record g s (data w).
Proof.
  intros Hidle r. subst r.
  unfold process_guild, bind, get_guild_data, get_channel.
  destruct (dict_get (PyStr.of_int guild_id) (guilds (data w))) as [gdata|] eqn:Hg.
  - destruct (announce_channel_id gdata) as [channel_id|]; [|now repeat split].
    destruct (Z.eqb_spec channel_id 0) as [|Hnz]; [now repeat split|].
    destruct (find_channel env channel_id) eqn:Hfound; [|now repeat split].
    destruct Hidle as [?|[?|Hnone]]; [contradiction | discriminate|].
    rewrite Hnone. now repeat split.
  - cbn [announce_channel_id]. repeat split; auto.
    intros g s. unfold tracked_record. simpl.
    destruct (String.eqb_spec (PyStr.of_int guild_id) g) as [<-|Hne].
    + now rewrite dict_get_set_eq, Hg.
    + now rewrite dict_get_set_ne.
Qed.

(** X9.  A fetch that fails, for whatever reason, ends the step for this
    series only: the request is the only effect, no record changes, and
    the loop goes on with the next series. *)
Theorem failed_fetch_skips_the_series gid channel_id series_id sdata rest env w e :
  fst (fetch_latest_for_series series_id
         (if truthy_str (last_seen_ts sdata) then last_seen_ts sdata else None)
         env w) = Raise e ->
  process_series gid channel_id series_id sdata env w =
    (Ok tt, record_event (Requested series_id) w) /\
  for_each ((series_id, sdata) :: rest)
    (fun item => process_series gid channel_id (fst item) (snd item)) env w =
  for_each rest
    (fun item => process_series gid channel_id (fst item) (snd item)) env
    (record_event (Requested series_id) w).
Proof.
  intros Hfail.
  assert (E : process_series gid channel_id series_id sdata env w =
              (Ok tt, record_event (Requested series_id) w)).
  { unfold fetch_latest_for_series in Hfail.
    destruct (truthy_str (last_seen_ts sdata)) eqn:Htruthy.
    - rewrite process_series_primed by exact Htruthy.
      destruct (session_get env (clock w) series_id) as [payload|]; [|reflexivity].
      cbn [fst] in Hfail. now rewrite Hfail.
    - rewrite process_series_unprimed by exact Htruthy.
      destruct (session_get env (clock w) series_id) as [payload|]; [|reflexivity].
      cbn [fst] in Hfail. now rewrite Hfail. }
  split; [exact E|].
  cbn [for_each]. unfold bind. cbn [fst snd]. now rewrite E.
Qed.

(** X10.  A watermark that cannot be read as a time blocks its series:
    whatever the index answers, the step asks the index and does nothing
    else. *)
Theorem unreadable_watermark_blocks_series gid channel_id series_id sdata ts e :
  last_seen_ts sdata = Some ts ->
  PyStr.nonempty ts = true ->
  parse_iso ts = Raise e ->
  forall env w,
    process_series gid channel_id series_id sdata env w =
    (Ok tt, record_event (Requested series_id) w).
Proof.
  intros Hts Hne Hparse env w.
  rewrite process_series_primed by (rewrite Hts; exact Hne).
  destruct (session_get env (clock w) series_id) as [payload|]; [|reflexivity].
  rewrite Hts.
  assert (E : exists e', chapters_of_payload payload (Some ts) = Raise e').
  { unfold chapters_of_payload, kept_chapters.
    destruct (py_get payload "data" (JArr [])) as [items|e0]; simpl; [|eauto].
    rewrite Hne, Hparse. simpl. eauto. }
  destruct E as [e' ->]. reflexivity.
Qed.

End Effects.

(** ** What a run of the task leaves as it is *)

Lemma map_dict_set_same {V B} (f : string * V -> B) k v v0 (d : dict V) :
  dict_get k d = Some v0 -> f (k, v) = f (k, v0) ->
  map f (dict_set k v d) = map f d.
Proof.
  intros Hget Hf. induction d as [|[k' v'] d IH]; simpl in *; [discriminate|].
  destruct (String.eqb_spec k k') as [<-|Hne]; simpl.
  - injection Hget as ->. now rewrite Hf.
  - now rewrite IH.
Qed.

Lemma settings_set_tracked gid series_id sdata ts d :
  tracked_record gid series_id d = Some sdata ->
  settings (set_tracked gid series_id (with_last_seen_ts ts sdata) d) = settings d.
Proof.
  unfold tracked_record, set_tracked, settings. intros H.
  destruct (dict_get gid (guilds d)) as [gdata|] eqn:Hg; [|discriminate].
  simpl. apply (map_dict_set_same _ _ _ gdata); [exact Hg|].
  simpl. f_equal. unfold series_settings.
  now apply (map_dict_set_same _ _ _ sdata).
Qed.

Lemma settings_new_guild gid d :
  dict_get gid (guilds d) = None ->
  settings
    {| guilds :=
         dict_set gid {| announce_channel_id := None; tracked_series := [] |}
           (guilds d) |} =
  settings d ++ [(gid, None, [])].
Proof.
  intros H. unfold settings. simpl.
  rewrite dict_set_fresh by (now apply dict_get_none_not_in).
  now rewrite map_app.
Qed.

Section Settings.

Context {rt : Runtime}.

Lemma for_each_series_settings gid channel_id rest :
  forall env w,
    wf_data (data w) = true ->
    distinct (dict_keys rest) = true ->
    (forall k v, In (k, v) rest -> tracked_record gid k (data w) = Some v) ->
    settings (data (snd (for_each rest
                           (fun item =>
                              process_series gid channel_id (fst item) (snd item))
                           env w))) =
    settings (data w).
Proof.
  induction rest as [|[k v] rest IH]; intros env w Hwf Hd Hlive; [reflexivity|].
  simpl in Hd. apply andb_true_iff in Hd as [Hk Hd].
  apply negb_true_iff in Hk. apply distinct_not_in in Hk.
  cbn [for_each]. unfold bind at 1. cbn [fst snd].
  pose proof (process_series_data gid channel_id k v env w) as Hstep.
  assert (Hkv : tracked_record gid k (data w) = Some v) by (apply Hlive; now left).
  destruct (process_series gid channel_id k v env w) as [[u|e] w1]; cbn [snd] in *.
  - assert (Hsame : settings (data w1) = settings (data w)).
    { destruct Hstep as [->|(ts & _ & _ & ->)]; [reflexivity|].
      now apply settings_set_tracked. }
    rewrite <- Hsame. apply IH; [| exact Hd |].
    + destruct Hstep as [->|(ts & Hts & Hle & ->)]; [exact Hwf|].
      now apply (advances_set gid k v ts (data w)).
    + intros k' v' Hin.
      destruct Hstep as [->|(ts & Hts & Hle & ->)]; [apply Hlive; now right|].
      rewrite tracked_record_set_ne; [apply Hlive; now right|].
      intros E; injection E as ->. apply Hk.
      change k with (fst (k, v')). now apply in_map.
  - destruct Hstep as [->|(ts & _ & _ & ->)]; [reflexivity|].
    now apply settings_set_tracked.
Qed.

Lemma process_guild_settings guild_id env w :
  wf_data (data w) = true ->
  exists new,
    settings (data (snd (process_guild guild_id env w))) =
    settings (data w) ++ map (fun gid => (gid, None, [])) new.
Proof.
  intros Hwf. unfold process_guild. unfold bind at 1.
  destruct (get_guild_data_spec guild_id env w Hwf)
    as (gdata & w1 & Hget & Hg & Hadv & _).
  assert (Hnew : exists new,
             settings (data w1) =
             settings (data w) ++ map (fun gid => (gid, None, [])) new).
  { unfold get_guild_data in Hget.
    destruct (dict_get (PyStr.of_int guild_id) (guilds (data w))) eqn:Hold;
      injection Hget as _ <-.
    - exists []. now rewrite app_nil_r.
    - exists [PyStr.of_int guild_id]. cbn [data with_data].
      now rewrite settings_new_guild. }
  rewrite Hget.
  destruct (announce_channel_id gdata) as [channel_id|]; [|exact Hnew].
  destruct (channel_id =? 0); [exact Hnew|].
  unfold bind at 1, get_channel at 1.
  destruct (negb (find_channel env channel_id)); [exact Hnew|].
  destruct (tracked_series gdata) as [|item tracked] eqn:Htracked; [exact Hnew|].
  rewrite <- Htracked. clear item tracked Htracked.
  destruct Hnew as [new Hnew]. exists new. rewrite <- Hnew.
  assert (Hdistinct : distinct (dict_keys (tracked_series gdata)) = true).
  { destruct Hadv as [Hwf1 _]. unfold wf_data in Hwf1.
    apply andb_true_iff in Hwf1 as [_ Hguilds].
    eapply (dict_get_forallb (fun g => distinct (dict_keys (tracked_series g))));
      [exact Hguilds | exact Hg]. }
  pose proof (for_each_series_settings (PyStr.of_int guild_id) channel_id
                (tracked_series gdata) env w1 (proj1 Hadv) Hdistinct) as Hloop.
  unfold bind.
  destruct (for_each _ _ env w1) as [[u|e] w2]; cbn [snd] in *;
    rewrite ?save_data_data; apply Hloop;
    intros k v Hin; unfold tracked_record; rewrite Hg; now apply dict_get_in.
Qed.

Lemma for_each_guild_settings gs :
  forall env w,
    wf_data (data w) = true ->
    exists new,
      settings (data (snd (for_each gs process_guild env w))) =
      settings (data w) ++ map (fun gid => (gid, None, [])) new.
Proof.
  induction gs as [|g gs IH]; intros env w Hwf.
  - exists []. simpl. now rewrite app_nil_r.
  - cbn [for_each]. unfold bind.
    destruct (process_guild_settings g env w Hwf) as [new1 H1].
    pose proof (process_guild_advances g env w Hwf) as [Hwf1 _].
    destruct (process_guild g env w) as [[u|e] w1]; cbn [snd] in *.
    + destruct (IH env w1 Hwf1) as [new2 H2].
      exists (new1 ++ new2). now rewrite H2, H1, map_app, app_assoc.
    + eauto.
Qed.

(** X11.  Runs of the task change watermarks and nothing else: the
    channel of every guild, the series each guild tracks and their order,
    their names and their roles stay as they are; at most, guilds not seen
    before are added, with no channel and nothing tracked. *)
Theorem runs_keep_the_settings envs w :
  wf_data (data w) = true ->
  exists new,
    settings (data (run_cycles envs w)) =
    settings (data w) ++ map (fun gid => (gid, None, [])) new.
Proof.
  revert w; induction envs as [|env envs IH]; intros w Hwf.
  - exists []. simpl. now rewrite app_nil_r.
  - cbn [run_cycles].
    destruct (for_each_guild_settings (bot_guilds env) env w Hwf) as [new1 H1].
    pose proof (check_releases_advances env w Hwf) as [Hwf1 _].
    destruct (IH _ Hwf1) as [new2 H2].
    exists (new1 ++ new2). unfold check_releases in H2 at 2.
    now rewrite H2, H1, map_app, app_assoc.
Qed.

End Settings.

(** ** The entry of a guild *)

(** different numbers have different texts *)
Lemma of_int_inj a b : PyStr.of_int a = PyStr.of_int b -> a = b.
Proof.
  intros E.
  pose proof (scan_value_of_int 0 a EmptyString eq_refl) as Ha.
  pose proof (scan_value_of_int 0 b EmptyString eq_refl) as Hb.
  rewrite E, Hb in Ha. now injection Ha.
Qed.

Lemma dict_set_same {V} k (v : V) d : dict_get k d = Some v -> dict_set k v d = d.
Proof.
  induction d as [|[k' v'] d IH]; simpl; [discriminate|].
  destruct (String.eqb_spec k k') as [->|_].
  - now intros [= ->].
  - intros H. now rewrite IH.
Qed.

Lemma dict_set_set {V} k (v v1 : V) d :
  dict_set k v (dict_set k v1 d) = dict_set k v d.
Proof.
  induction d as [|[k' v'] d IH]; simpl.
  - now rewrite String.eqb_refl.
  - destruct (String.eqb k k') eqn:E; simpl; rewrite E; [reflexivity|].
    now rewrite IH.
Qed.

Lemma dict_pop_set_fresh {V} k (v : V) d :
  dict_get k d = None -> dict_pop k (dict_set k v d) = d.
Proof.
  induction d as [|[k' v'] d IH]; simpl.
  - now rewrite String.eqb_refl.
  - destruct (String.eqb k k') eqn:E; [discriminate|].
    intros H. simpl. now rewrite E, IH.
Qed.

Lemma dict_get_pop_ne {V} k k' (d : dict V) :
  k <> k' -> dict_get k' (dict_pop k d) = dict_get k' d.
Proof.
  intros Hne. induction d as [|[k0 v0] d IH]; simpl; [reflexivity|].
  destruct (String.eqb_spec k k0) as [<-|_]; simpl.
  - destruct (String.eqb_spec k' k); [congruence | reflexivity].
  - now rewrite IH.
Qed.

Lemma dict_get_pop_eq {V} k (d : dict V) :
  distinct (dict_keys d) = true -> dict_get k (dict_pop k d) = None.
Proof.
  induction d as [|[k0 v0] d IH]; simpl; [reflexivity|].
  intros H. apply andb_true_iff in H as [H1 H2].
  destruct (String.eqb_spec k k0) as [->|Hne]; simpl.
  - apply negb_true_iff in H1. apply distinct_not_in in H1.
    destruct (dict_get k0 d) eqn:E; [|reflexivity].
    exfalso. apply H1. clear -E.
    induction d as [|[k1 v1] d IH]; simpl in *; [discriminate|].
    destruct (String.eqb_spec k0 k1); [now left | right; now apply IH].
  - destruct (String.eqb_spec k k0); [contradiction | now apply IH].
Qed.

Lemma existsb_keys_pop {V} k0 k (d : dict V) :
  existsb (String.eqb k0) (dict_keys d) = false ->
  existsb (String.eqb k0) (dict_keys (dict_pop k d)) = false.
Proof.
  induction d as [|[k1 v1] d IH]; simpl; [reflexivity|].
  intros H. apply orb_false_elim in H as [H1 H2].
  destruct (String.eqb k k1); simpl; [exact H2|].
  now rewrite H1, IH.
Qed.

Lemma distinct_keys_pop {V} k (d : dict V) :
  distinct (dict_keys d) = true -> distinct (dict_keys (dict_pop k d)) = true.
Proof.
  induction d as [|[k0 v0] d IH]; simpl; [reflexivity|].
  intros H. apply andb_true_iff in H as [H1 H2].
  destruct (String.eqb k k0); simpl; [exact H2|].
  rewrite (IH H2), andb_true_r.
  apply negb_true_iff in H1. apply negb_true_iff.
  now apply existsb_keys_pop.
Qed.

Lemma distinct_keys_set {V} k (v : V) (d : dict V) :
  distinct (dict_keys d) = true -> distinct (dict_keys (dict_set k v d)) = true.
Proof.
  intros H. destruct (dict_get k d) as [v0|] eqn:E.
  - now rewrite (dict_keys_set_present _ _ _ _ E).
  - rewrite (dict_keys_set_fresh _ _ _ E).
    apply distinct_snoc; [exact H | now apply dict_get_none_not_in].
Qed.

(** replacing the entry of a guild by one with distinct series *)
Lemma wf_data_set_guild gid gdata gdata' d :
  wf_data d = true ->
  dict_get gid (guilds d) = Some gdata ->
  distinct (dict_keys (tracked_series gdata')) = true ->
  wf_data {| guilds := dict_set gid gdata' (guilds d) |} = true.
Proof.
  unfold wf_data. simpl. intros Hwf Hg Hd.
  apply andb_true_iff in Hwf as [Hkeys Hguilds]. apply andb_true_iff. split.
  - now rewrite (dict_keys_set_present _ _ _ _ Hg).
  - now apply (forallb_dict_set (fun g => distinct (dict_keys (tracked_series g)))).
Qed.

Lemma wf_data_tracked gid gdata d :
  wf_data d = true -> dict_get gid (guilds d) = Some gdata ->
  distinct (dict_keys (tracked_series gdata)) = true.
Proof.
  unfold wf_data. intros Hwf Hg. apply andb_true_iff in Hwf as [_ Hguilds].
  eapply (dict_get_forallb (fun g => distinct (dict_keys (tracked_series g)))); eauto.
Qed.

Lemma wf_data_set_tracked gid series_id sdata d :
  wf_data d = true -> wf_data (set_tracked gid series_id sdata d) = true.
Proof.
  intros Hwf. unfold set_tracked.
  destruct (dict_get gid (guilds d)) as [gdata|] eqn:Hg; [|exact Hwf].
  apply (wf_data_set_guild _ gdata); auto. simpl.
  apply distinct_keys_set. eapply wf_data_tracked; eauto.
Qed.

Lemma wf_data_pop_tracked gid series_id d :
  wf_data d = true -> wf_data (pop_tracked gid series_id d) = true.
Proof.
  intros Hwf. unfold pop_tracked.
  destruct (dict_get gid (guilds d)) as [gdata|] eqn:Hg; [|exact Hwf].
  apply (wf_data_set_guild _ gdata); auto. simpl.
  apply distinct_keys_pop. eapply wf_data_tracked; eauto.
Qed.

Lemma wf_data_set_channel gid channel d :
  wf_data d = true -> wf_data (set_channel gid channel d) = true.
Proof.
  intros Hwf. unfold set_channel.
  destruct (dict_get gid (guilds d)) as [gdata|] eqn:Hg; [|exact Hwf].
  apply (wf_data_set_guild _ gdata); auto. simpl.
  eapply wf_data_tracked; eauto.
Qed.

Lemma wf_data_new_guild gid d :
  wf_data d = true ->
  dict_get gid (guilds d) = None ->
  wf_data
    {| guilds :=
         dict_set gid {| announce_channel_id := None; tracked_series := [] |}
           (guilds d) |} = true.
Proof.
  unfold wf_data. simpl. intros Hwf Hnew.
  apply andb_true_iff in Hwf as [Hkeys Hguilds]. apply andb_true_iff. split.
  - now apply distinct_keys_set.
  - now apply (forallb_dict_set (fun g => distinct (dict_keys (tracked_series g)))).
Qed.

(** what [get_guild_data] gives and leaves *)
Lemma get_guild_data_inv guild_id env w :
  exists gdata w1,
    get_guild_data guild_id env w = (Ok gdata, w1) /\
    dict_get (PyStr.of_int guild_id) (guilds (data w1)) = Some gdata /\
    log w1 = log w /\ disk w1 = disk w /\
    (forall g s, tracked_record g s (data w1) = tracked_record g s (data w)) /\
    (forall g, g <> PyStr.of_int guild_id ->
               dict_get g (guilds (data w1)) = dict_get g (guilds (data w))) /\
    (wf_data (data w) = true -> wf_data (data w1) = true) /\
    gdata = match dict_get (PyStr.of_int guild_id) (guilds (data w)) with
            | Some g => g
            | None => {| announce_channel_id := None; tracked_series := [] |}
            end.
Proof.
  unfold get_guild_data.
  destruct (dict_get (PyStr.of_int guild_id) (guilds (data w))) as [gdata|] eqn:Hg.
  - exists gdata, w. repeat split; auto.
  - eexists _, _. split; [reflexivity|]. cbn [data log disk with_data guilds].
    rewrite dict_get_set_eq. repeat split; auto.
    + intros g s. unfold tracked_record. simpl.
      destruct (String.eqb_spec (PyStr.of_int guild_id) g) as [<-|Hne].
      * now rewrite dict_get_set_eq, Hg.
      * now rewrite dict_get_set_ne.
    + intros g Hne. apply dict_get_set_ne. congruence.
    + intros Hwf. now apply wf_data_new_guild.
Qed.

(** X12.  [get_guild_data] called again gives the same entry and changes
    nothing; the first call touches neither the file nor the entry of a
    guild with another id. *)
Theorem get_guild_data_again guild_id env env' w :
  let r := get_guild_data guild_id env w in
  get_guild_data guild_id env' (snd r) = r /\
  disk (snd r) = disk w /\ log (snd r) = log w /\
  forall other,
    other <> guild_id ->
    dict_get (PyStr.of_int other) (guilds (data (snd r))) =
    dict_get (PyStr.of_int other) (guilds (data w)).
Proof.
  intros r. subst r.
  destruct (get_guild_data_inv guild_id env w)
    as (gdata & w1 & -> & Hg & Hlog & Hdisk & _ & Hother & _ & _).
  cbn [snd]. repeat split; auto.
  - unfold get_guild_data. now rewrite Hg.
  - intros other Hne. apply Hother. intros E. apply Hne. now apply of_int_inj.
Qed.

(** ** The commands *)

Lemma tracked_record_pop_eq gid sid d :
  wf_data d = true -> tracked_record gid sid (pop_tracked gid sid d) = None.
Proof.
  intros Hwf. unfold tracked_record, pop_tracked.
  destruct (dict_get gid (guilds d)) as [gdata|] eqn:Hg; [|now rewrite Hg].
  simpl. rewrite dict_get_set_eq. simpl.
  apply dict_get_pop_eq. eapply wf_data_tracked; eauto.
Qed.

Lemma tracked_record_pop_ne gid sid d g s :
  (g, s) <> (gid, sid) ->
  tracked_record g s (pop_tracked gid sid d) = tracked_record g s d.
Proof.
  intros Hne. unfold tracked_record, pop_tracked.
  destruct (dict_get gid (guilds d)) as [gdata|] eqn:Hg; [|reflexivity]. simpl.
  destruct (String.eqb_spec gid g) as [<-|Hg'].
  - rewrite dict_get_set_eq, Hg; simpl.
    apply dict_get_pop_ne. congruence.
  - now rewrite dict_get_set_ne.
Qed.

Lemma save_data_result env w :
  fst (save_data env w) =
  match file_write env (clock w) with
  | Written => Ok tt
  | _ => Raise OSError
  end.
Proof. unfold save_data. now destruct (file_write env (clock w)). Qed.

(** what [!untrack] does, by whether the series is tracked *)
Lemma untrack_series_cases guild_id series_id_or_url env w :
  wf_data (data w) = true ->
  let gid := PyStr.of_int guild_id in
  let series_id := extract_mangadex_id series_id_or_url in
  let r := untrack_series (Some guild_id) series_id_or_url env w in
  (tracked_record gid series_id (data w) = None ->
   r = (Ok (NotTracked series_id), snd (get_guild_data guild_id env w)) /\
   log (snd r) = log w /\ disk (snd r) = disk w) /\
  (forall removed,
     tracked_record gid series_id (data w) = Some removed ->
     tracked_record gid series_id (data (snd r)) = None /\
     (forall g s, (g, s) <> (gid, series_id) ->
                  tracked_record g s (data (snd r)) = tracked_record g s (data w)) /\
     log (snd r) = log w ++ [WriteAttempt (file_write env (clock w))] /\
     fst r = match file_write env (clock w) with
             | Written => Ok (StoppedTracking (name removed) series_id)
             | _ => Raise OSError
             end).
Proof.
  intros Hwf gid series_id r. subst r.
  unfold untrack_series, guild_id_of, bind, modify_data, ret. fold series_id gid.
  destruct (get_guild_data_inv guild_id env w)
    as (gdata & w1 & -> & Hg & Hlog & Hdisk & Hrec & _ & Hwf1 & _).
  fold gid in Hg. cbn [snd].
  assert (Ht : tracked_record gid series_id (data w) =
               dict_get series_id (tracked_series gdata)).
  { rewrite <- Hrec. unfold tracked_record. now rewrite Hg. }
  rewrite Ht. split.
  - intros ->. cbn [snd]. auto.
  - intros removed ->.
    set (w2 := with_data _ w1).
    assert (Hclock : clock w2 = clock w) by (unfold clock; simpl; now rewrite Hlog).
    pose proof (save_data_data env w2) as Hdata.
    pose proof (save_data_log env w2) as Hl.
    pose proof (save_data_result env w2) as Hres.
    rewrite Hclock in Hl, Hres.
    destruct (save_data env w2) as [[[]|e] w3]; cbn [fst snd] in *;
      rewrite Hdata; subst w2; cbn [data log with_data] in *;
      (split; [apply tracked_record_pop_eq; now apply Hwf1|]);
      (split; [intros g s Hne; rewrite tracked_record_pop_ne by exact Hne; apply Hrec|]);
      (split; [now rewrite Hl, Hlog|]).
    + destruct (file_write env (clock w)); [reflexivity | discriminate | discriminate].
    + destruct (file_write env (clock w)); [discriminate | |];
        injection Hres as ->; reflexivity.
Qed.

(** X13.  [!untrack] of a series that is not tracked answers so and
    writes nothing.  For a tracked series the record is removed and every
    other record stays; the answer names the series when the file is
    written, and when the write fails the series is removed all the same
    and the command ends with the [OSError]. *)
Theorem untrack_series_removes guild_id series_id_or_url env w :
  wf_data (data w) = true ->
  let gid := PyStr.of_int guild_id in
  let series_id := extract_mangadex_id series_id_or_url in
  let r := untrack_series (Some guild_id) series_id_or_url env w in
  (tracked_record gid series_id (data w) = None ->
   r = (Ok (NotTracked series_id), snd (get_guild_data guild_id env w)) /\
   log (snd r) = log w /\ disk (snd r) = disk w) /\
  (forall removed,
     tracked_record gid series_id (data w) = Some removed ->
     tracked_record gid series_id (data (snd r)) = None /\
     (forall g s, (g, s) <> (gid, series_id) ->
                  tracked_record g s (data (snd r)) = tracked_record g s (data w)) /\
     log (snd r) = log w ++ [WriteAttempt (file_write env (clock w))] /\
     fst r = match file_write env (clock w) with
             | Written => Ok (StoppedTracking (name removed) series_id)
             | _ => Raise OSError
             end).
Proof. apply untrack_series_cases. Qed.

(** X14.  [!track] followed by [!untrack] of the same series, given as
    the same argument or as any argument that stands for the same id,
    leaves the state as it was before the two commands. *)
Theorem track_then_untrack guild_id arg arg' role series_name env env' w gdata :
  dict_get (PyStr.of_int guild_id) (guilds (data w)) = Some gdata ->
  dict_get (extract_mangadex_id arg) (tracked_series gdata) = None ->
  extract_mangadex_id arg' = extract_mangadex_id arg ->
  let w1 := snd (track_series guild_id arg role series_name env w) in
  data (snd (untrack_series (Some guild_id) arg' env' w1)) = data w.
Proof.
  intros Hg Hnew Harg w1. subst w1.
  set (gid := PyStr.of_int guild_id) in *.
  set (sid := extract_mangadex_id arg) in *.
  set (rec := {| name := series_name; last_seen_ts := None; role_id := Some role |}).
  assert (Hd1 : data (snd (track_series guild_id arg role series_name env w)) =
                set_tracked gid sid rec (data w)).
  { unfold track_series, bind, get_guild_data, modify_data, ret.
    fold gid sid. rewrite Hg, Hnew. simpl.
    destruct (save_data env _) as [[[]|e] w2] eqn:Hsave;
      apply (f_equal snd) in Hsave; simpl in Hsave; simpl;
      now rewrite <- Hsave, save_data_data. }
  set (w1 := snd (track_series guild_id arg role series_name env w)) in *.
  assert (Hg1 : dict_get gid (guilds (data w1)) =
                Some {| announce_channel_id := announce_channel_id gdata;
                        tracked_series := dict_set sid rec (tracked_series gdata) |}).
  { rewrite Hd1. unfold set_tracked. rewrite Hg. simpl. apply dict_get_set_eq. }
  unfold untrack_series, guild_id_of, bind, get_guild_data, modify_data, ret.
  rewrite Harg. fold gid sid. rewrite Hg1. cbn [tracked_series].
  rewrite dict_get_set_eq.
  assert (Hpop : pop_tracked gid sid (data w1) = data w).
  { unfold pop_tracked. rewrite Hg1. cbn [announce_channel_id tracked_series].
    rewrite (dict_pop_set_fresh _ _ _ Hnew).
    rewrite Hd1. unfold set_tracked. rewrite Hg. cbn [guilds].
    rewrite dict_set_set, dict_set_same; [now destruct (data w)|].
    rewrite Hg. now destruct gdata. }
  destruct (save_data env' _) as [[[]|e] w2] eqn:Hsave;
    apply (f_equal snd) in Hsave; simpl in Hsave; simpl;
    now rewrite <- Hsave, save_data_data.
Qed.

(** X15.  [!untrack] followed by [!track] of the same series starts the
    series over: it is tracked with the new name and role and without a
    watermark, so that the next run of the task primes it again. *)
Theorem retrack_starts_without_watermark
    guild_id series_id_or_url role series_name env env' w removed :
  wf_data (data w) = true ->
  tracked_record (PyStr.of_int guild_id) (extract_mangadex_id series_id_or_url)
    (data w) = Some removed ->
  let w1 := snd (untrack_series (Some guild_id) series_id_or_url env w) in
  let w2 := snd (track_series guild_id series_id_or_url role series_name env' w1) in
  tracked_record (PyStr.of_int guild_id) (extract_mangadex_id series_id_or_url)
    (data w2) =
  Some {| name := series_name; last_seen_ts := None; role_id := Some role |}.
Proof.
  intros Hwf Hrec w1 w2. subst w1 w2.
  destruct (untrack_series_cases guild_id series_id_or_url env w Hwf)
    as [_ Hrem].
  destruct (Hrem removed Hrec) as (Hnone & _).
  now apply track_series_new.
Qed.

(** X16.  [!set_announce_channel] sets the channel of the guild, keeps
    the series the guild tracks and leaves the other guilds alone; it
    answers when the file is written, and when the write fails the channel
    is set all the same and the command ends with the [OSError]. *)
Theorem set_announce_channel_sets guild_id channel env w :
  let gid := PyStr.of_int guild_id in
  let r := set_announce_channel (Some guild_id) channel env w in
  dict_get gid (guilds (data (snd r))) =
    Some {| announce_channel_id := Some channel;
            tracked_series :=
              match dict_get gid (guilds (data w)) with
              | Some gdata => tracked_series gdata
              | None => []
              end |} /\
  (forall g, g <> gid ->
             dict_get g (guilds (data (snd r))) = dict_get g (guilds (data w))) /\
  log (snd r) = log w ++ [WriteAttempt (file_write env (clock w))] /\
  fst r = match file_write env (clock w) with
          | Written => Ok (ChannelSet channel)
          | _ => Raise OSError
          end.
Proof.
  intros gid r. subst r.
  unfold set_announce_channel, guild_id_of, bind, modify_data, ret. fold gid.
  destruct (get_guild_data_inv guild_id env w)
    as (gdata & w1 & -> & Hg & Hlog & Hdisk & _ & Hother & _ & Hgd).
  fold gid in Hg, Hother, Hgd.
  set (w2 := with_data _ w1).
  assert (Hclock : clock w2 = clock w) by (unfold clock; simpl; now rewrite Hlog).
  pose proof (save_data_data env w2) as Hdata.
  pose proof (save_data_log env w2) as Hl.
  pose proof (save_data_result env w2) as Hres.
  rewrite Hclock in Hl, Hres.
  assert (Hset : data w2 =
                 {| guilds :=
                      dict_set gid
                        {| announce_channel_id := Some channel;
                           tracked_series := tracked_series gdata |}
                        (guilds (data w1)) |}).
  { subst w2. cbn [data with_data]. unfold set_channel. now rewrite Hg. }
  assert (Ht : tracked_series gdata =
               match dict_get gid (guilds (data w)) with
               | Some g => tracked_series g
               | None => []
               end).
  { rewrite Hgd. now destruct (dict_get gid (guilds (data w))). }
  destruct (save_data env w2) as [[[]|e] w3]; cbn [fst snd] in *;
    rewrite Hdata, Hset; cbn [guilds];
    (split; [rewrite dict_get_set_eq, Ht; reflexivity|]);
    (split; [intros g Hne; rewrite dict_get_set_ne by congruence; now apply Hother|]);
    (split; [subst w2; cbn [log with_data] in Hl; now rewrite Hl, Hlog|]).
  - destruct (file_write env (clock w)); [reflexivity | discriminate | discriminate].
  - destruct (file_write env (clock w)); [discriminate | |];
      injection Hres as ->; reflexivity.
Qed.

(** ** [!test_release] *)




(** ** [!list_tracked] *)

Lemma startswith_refl_app s t : PyStr.startswith s (s ++ t)%string = true.
Proof.
  induction s as [|a s IH]; [reflexivity|].
  rewrite append_cons. simpl. now rewrite Ascii.eqb_refl.
Qed.

Lemma contains_app_r sub s t :
  PyStr.contains sub t = true -> PyStr.contains sub (s ++ t)%string = true.
Proof.
  intros H. induction s as [|a s IH]; [now rewrite append_nil_l|].
  rewrite append_cons. cbn [PyStr.contains]. rewrite IH. apply orb_true_r.
Qed.

Lemma contains_middle sub s t :
  PyStr.contains sub (s ++ sub ++ t)%string = true.
Proof.
  apply contains_app_r.
  destruct sub as [|a sub].
  - rewrite append_nil_l. now destruct t.
  - rewrite append_cons. cbn [PyStr.contains].
    rewrite <- append_cons, startswith_refl_app. reflexivity.
Qed.

Lemma tracked_line_text get_role series_id sdata :
  exists role_text last_seen,
    tracked_line get_role series_id sdata =
    ("- **" ++ name sdata ++ "** (ID: `" ++ series_id ++ "`, role: " ++
     role_text ++ ", last seen: `" ++ last_seen ++ "`)")%string.
Proof. eexists _, _. reflexivity. Qed.

(** X19.  For a guild that has an entry and tracks series,
    [!list_tracked] changes nothing and has no effect; it answers with one
    line for each series, in the order in which they are tracked, and the
    line of a series holds its id and its name. *)
Theorem list_tracked_lists_every_series get_role guild_id env w gdata :
  dict_get (PyStr.of_int guild_id) (guilds (data w)) = Some gdata ->
  tracked_series gdata <> [] ->
  exists lines,
    list_tracked get_role (Some guild_id) env w = (Ok (TrackedSeries lines), w) /\
    List.length lines = List.length (tracked_series gdata) /\
    forall i series_id sdata,
      nth_error (tracked_series gdata) i = Some (series_id, sdata) ->
      exists line,
        nth_error lines i = Some line /\
        PyStr.contains ("(ID: `" ++ series_id ++ "`")%string line = true /\
        PyStr.contains ("**" ++ name sdata ++ "**")%string line = true.
Proof.
  intros Hg Hne.
  unfold list_tracked, guild_id_of, bind, ret, get_guild_data. rewrite Hg.
  destruct (tracked_series gdata) as [|item tracked] eqn:Ht; [contradiction|].
  rewrite <- Ht. clear item tracked Ht Hne.
  eexists. split; [reflexivity|]. split; [apply length_map|].
  intros i series_id sdata Hi.
  rewrite nth_error_map, Hi. cbn [option_map fst snd].
  eexists. split; [reflexivity|].
  destruct (tracked_line_text get_role series_id sdata)
    as (role_text & last_seen & ->).
  split.
  - replace ("- **" ++ name sdata ++ "** (ID: `" ++ series_id ++ "`, role: " ++
             role_text ++ ", last seen: `" ++ last_seen ++ "`)")%string
      with (("- **" ++ name sdata ++ "** ") ++ ("(ID: `" ++ series_id ++ "`") ++
            (", role: " ++ role_text ++ ", last seen: `" ++ last_seen ++ "`)"))%string
      by (rewrite !append_assoc; reflexivity).
    apply contains_middle.
  - replace ("- **" ++ name sdata ++ "** (ID: `" ++ series_id ++ "`, role: " ++
             role_text ++ ", last seen: `" ++ last_seen ++ "`)")%string
      with ("- " ++ ("**" ++ name sdata ++ "**") ++
            (" (ID: `" ++ series_id ++ "`, role: " ++
             role_text ++ ", last seen: `" ++ last_seen ++ "`)"))%string
      by (rewrite !append_assoc; reflexivity).
    apply contains_middle.
Qed.

(** ** The permission check *)

(** X20.  The check lets the owner of the guild through whatever the
    roles; in a guild it lets through, besides the owner, exactly the
    members with a role named "Admin", "Moderator" or "Staff", and refuses
    the others with [CheckFailure], never by returning [False]; in a
    direct message it lets through the owner of the application and
    nobody else. *)
Theorem predicate_decides application_owner ctx :
  (forall owner,
     guild_owner ctx = Some (Some owner) -> author_id ctx = owner ->
     predicate application_owner ctx = Returns true) /\
  (forall owner,
     guild_owner ctx = Some owner -> owner <> Some (author_id ctx) ->
     (predicate application_owner ctx = Returns true <->
      exists role_names allowed,
        member_roles ctx = Some role_names /\
        In allowed role_names /\ In allowed ALLOWED_ROLE_NAMES) /\
     (predicate application_owner ctx = Returns true \/
      predicate application_owner ctx = Fails CheckFailure)) /\
  (forall owner,
     guild_owner ctx = None -> application_owner = Some owner ->
     predicate application_owner ctx = Returns (author_id ctx =? owner)).
Proof.
  unfold predicate. split; [|split].
  - intros owner -> <-. now rewrite Z.eqb_refl.
  - intros owner -> Hne.
    assert (Hown : match owner with
                   | Some owner_id => author_id ctx =? owner_id
                   | None => false
                   end = false).
    { destruct owner as [o|]; [|reflexivity].
      apply Z.eqb_neq. intros E. apply Hne. now rewrite E. }
    rewrite Hown.
    destruct (member_roles ctx) as [role_names|].
    + destruct (existsb _ ALLOWED_ROLE_NAMES) eqn:Hex.
      * split; [|now left]. split; [intros _|reflexivity].
        apply existsb_exists in Hex as (allowed & Hin & Hex).
        apply existsb_exists in Hex as (role & Hrole & E).
        apply String.eqb_eq in E. subst role.
        now exists role_names, allowed.
      * split; [|now right]. split; [discriminate|].
        intros (role_names' & allowed & E & Hrole & Hin).
        injection E as <-.
        assert (existsb (fun allowed => existsb (String.eqb allowed) role_names)
                  ALLOWED_ROLE_NAMES = true); [|congruence].
        apply existsb_exists. exists allowed. split; [exact Hin|].
        apply existsb_exists. exists allowed. split; [exact Hrole|].
        apply String.eqb_refl.
    + split; [|now right]. split; [discriminate|].
      intros (role_names & allowed & E & _). discriminate.
  - intros owner -> ->. reflexivity.
Qed.

(** ** The file after a command *)

Lemma load_written d :
  wf_data d = true ->
  load_data (File (JsonText.dumps (dump_data d))) = Ok d.
Proof.
  intros Hwf. unfold load_data.
  rewrite loads_dumps by (now apply json_wf_dump_data).
  now rewrite read_data_dump.
Qed.

Lemma save_data_written env w :
  fst (save_data env w) = Ok tt ->
  disk (snd (save_data env w)) =
  File (JsonText.dumps (dump_data (data (snd (save_data env w))))).
Proof.
  unfold save_data. destruct (file_write env (clock w)); simpl; congruence.
Qed.

(** a change of the state that is saved *)
Lemma saved_in_step {A} (f : Data -> Data) (a : A) env w r :
  wf_data (f (data w)) = true ->
  fst ((modify_data f ;; save_data ;; ret a)%M env w) = Ok r ->
  let w' := snd ((modify_data f ;; save_data ;; ret a)%M env w) in
  load_data (disk w') = Ok (data w').
Proof.
  unfold bind, modify_data, ret, save_data. intros Hwf.
  destruct (file_write env _); simpl; try discriminate.
  intros _. now apply load_written.
Qed.

Lemma get_guild_data_wf guild_id env w :
  wf_data (data w) = true ->
  wf_data (data (snd (get_guild_data guild_id env w))) = true.
Proof.
  intros Hwf. destruct (get_guild_data_inv guild_id env w)
    as (gdata & w1 & -> & _ & _ & _ & _ & _ & Hwf1 & _). now apply Hwf1.
Qed.

(** X22.  When [!track], [!untrack] or [!set_announce_channel] has made
    its change and ends normally, the file holds the state: [load_data]
    gives back the state in memory. *)
Theorem commands_leave_the_file_in_step
    guild_id arg role series_name channel env w :
  wf_data (data w) = true ->
  (forall n s r,
     fst (track_series guild_id arg role series_name env w) = Ok (NowTracking n s r) ->
     let w' := snd (track_series guild_id arg role series_name env w) in
     load_data (disk w') = Ok (data w')) /\
  (forall n s,
     fst (untrack_series (Some guild_id) arg env w) = Ok (StoppedTracking n s) ->
     let w' := snd (untrack_series (Some guild_id) arg env w) in
     load_data (disk w') = Ok (data w')) /\
  (forall reply,
     fst (set_announce_channel (Some guild_id) channel env w) = Ok reply ->
     let w' := snd (set_announce_channel (Some guild_id) channel env w) in
     load_data (disk w') = Ok (data w')).
Proof.
  intros Hwf. pose proof (get_guild_data_wf guild_id env w Hwf) as Hwf1.
  destruct (get_guild_data_inv guild_id env w) as (gdata & w1 & Hget & _).
  rewrite Hget in Hwf1. cbn [snd] in Hwf1.
  split; [|split].
  - assert (E : track_series guild_id arg role series_name env w =
                match dict_get (extract_mangadex_id arg) (tracked_series gdata) with
                | Some existing =>
                    ret (AlreadyTracking (extract_mangadex_id arg)
                           (name existing) (role_id existing))
                | None =>
                    (modify_data
                       (set_tracked (PyStr.of_int guild_id) (extract_mangadex_id arg)
                          {| name := series_name; last_seen_ts := None;
                             role_id := Some role |}) ;;
                     save_data ;;
                     ret (NowTracking series_name (extract_mangadex_id arg) role))%M
                end env w1)
      by (unfold track_series, bind at 1; now rewrite Hget).
    rewrite E. intros n s r.
    destruct (dict_get _ (tracked_series gdata)); [discriminate|].
    apply saved_in_step. now apply wf_data_set_tracked.
  - assert (E : untrack_series (Some guild_id) arg env w =
                match dict_get (extract_mangadex_id arg) (tracked_series gdata) with
                | None => ret (NotTracked (extract_mangadex_id arg))
                | Some removed =>
                    (modify_data
                       (pop_tracked (PyStr.of_int guild_id) (extract_mangadex_id arg)) ;;
                     save_data ;;
                     ret (StoppedTracking (name removed) (extract_mangadex_id arg)))%M
                end env w1)
      by (unfold untrack_series; unfold bind at 1; unfold guild_id_of;
          unfold bind at 1; now rewrite Hget).
    rewrite E. intros n s.
    destruct (dict_get _ (tracked_series gdata)); [|discriminate].
    apply saved_in_step. now apply wf_data_pop_tracked.
  - assert (E : set_announce_channel (Some guild_id) channel env w =
                (modify_data (set_channel (PyStr.of_int guild_id) channel) ;;
                 save_data ;;
                 ret (ChannelSet channel))%M env w1)
      by (unfold set_announce_channel; unfold bind at 1; unfold guild_id_of;
          unfold bind at 1; now rewrite Hget).
    rewrite E. intros reply.
    apply saved_in_step. now apply wf_data_set_channel.
Qed.

(** ** Fetching again *)

Section Again.

Context {rt : Runtime}.

(** with a bound of the kind of the times, the loop keeps the chapters
    after the bound among those it keeps without one *)
Lemma collect_chapters_with_bound bound items all :
  collect_chapters None items = Ok all ->
  Forall (fun c => exists d, parse_iso (c_readableAt c) = Ok d /\
                             same_kind bound d = true) all ->
  collect_chapters (Some bound) items = Ok (filter (published_after bound) all).
Proof.
  revert all; induction items as [|ch rest IH]; simpl; intros all H F.
  - injection H as <-. reflexivity.
  - rbind_inv H as i Hi. rbind_inv H as attr Hattr.
    rbind_inv H as cf Hcf. rbind_inv H as ra Hra.
    rewrite Hi, Hattr; simpl. rewrite Hcf, Hra; simpl.
    destruct (negb (truthy i) || negb (truthy ra)); [now apply IH|].
    rbind_inv H as s Hs. rbind_inv H as d Hd. simpl in H.
    rewrite Hs; simpl. rewrite Hd; simpl.
    rbind_inv H as more Hmore. injection H as <-.
    inversion F as [|? ? (d' & Hd' & Hk) F']; subst. simpl in Hd'.
    rewrite Hd in Hd'. injection Hd' as <-.
    rewrite (IH _ Hmore F'). simpl.
    rewrite (published_after_eq bound _ d) by exact Hd.
    destruct bound, d; simpl in *; try discriminate; unfold dt_ltb; simpl;
      rewrite Z.leb_antisym; now destruct (_ <? _).
Qed.

Lemma filter_filter_implied {A} (f g : A -> bool) (l : list A) :
  (forall x, In x l -> f x = true -> g x = true) ->
  filter f (filter g l) = filter f l.
Proof.
  induction l as [|x l IH]; intros H; simpl; [reflexivity|].
  destruct (g x) eqn:Eg; simpl.
  - rewrite IH; [reflexivity|]. intros y Hy. apply H. now right.
  - destruct (f x) eqn:Ef.
    + rewrite (H x (or_introl eq_refl) Ef) in Eg. discriminate.
    + apply IH. intros y Hy. apply H. now right.
Qed.

(** X23.  Fetching again from the same response with the time of a
    chapter [p] of a batch as the watermark returns the chapters of the
    batch that were published after [p], oldest first, and only them: a
    chapter published at the very time of [p] is not returned again. *)
Theorem refetch_gives_the_later_chapters payload since_ts batch p :
  chapters_of_payload payload since_ts = Ok batch ->
  In p batch ->
  exists dp again,
    parse_iso (c_readableAt p) = Ok dp /\
    chapters_of_payload payload (Some (c_readableAt p)) = Ok again /\
    Permutation again (filter (published_after dp) batch) /\
    StronglySorted (fun a b => chapter_leb a b = true) again /\
    forall c, In c again -> In c batch /\ published_at dp c = false.
Proof.
  intros H Hp.
  destruct (chapters_of_payload_kept _ _ _ H) as (since_dt & items & Hs & Hitems & F).
  rewrite Forall_forall in F.
  destruct (F p Hp) as (Hne & (dp & Hdp & Hafter) & _).
  pose proof H as Hbatch.
  unfold chapters_of_payload in H. rbind_inv H as kept Hkept.
  pose proof (sort_by_key_perm _ _ _ H) as P.
  destruct (kept_chapters_inv _ _ _ _ Hitems Hkept) as (since_dt' & Hs' & Hc).
  rewrite Hs in Hs'. injection Hs' as <-.
  (* the chapters kept without a bound *)
  assert (Hall : exists all,
             collect_chapters None items = Ok all /\
             kept = match since_dt with
                    | Some since => filter (published_after since) all
                    | None => all
                    end /\
             Forall (fun c => exists d, parse_iso (c_readableAt c) = Ok d /\
                                        same_kind dp d = true) all).
  { destruct since_dt as [since|].
    - destruct (collect_chapters_since _ _ _ Hc) as (all & Hall & Hk & Fk).
      exists all. split; [exact Hall|]. split; [exact Hk|].
      eapply Forall_impl; [|exact Fk].
      intros c (d & Hd & Hkind). exists d. split; [exact Hd|].
      eapply same_kind_trans; [|exact Hkind].
      eapply dt_le_ok_same_kind; eauto.
    - exists kept. split; [exact Hc|]. split; [reflexivity|].
      apply Forall_forall. intros c Hin.
      assert (Hcb : In c batch) by (apply (Permutation_in _ (Permutation_sym P)), Hin).
      destruct (F c Hcb) as (_ & (d & Hd & _) & _).
      exists d. split; [exact Hd|].
      now apply (chapters_same_kind payload since_ts batch p c). }
  destruct Hall as (all & Hall & Hk & Fall).
  pose proof (collect_chapters_with_bound dp items all Hall Fall) as Hagain.
  destruct (sort_by_key_total dp (filter (published_after dp) all)) as [again Hsort].
  { apply Forall_forall. intros c Hin. apply filter_In in Hin as [Hin _].
    rewrite Forall_forall in Fall. now apply Fall. }
  exists dp, again.
  assert (Pagain : Permutation again (filter (published_after dp) batch)).
  { rewrite (sort_by_key_perm _ _ _ Hsort).
    rewrite (filter_perm (published_after dp) _ _ P), Hk.
    destruct since_dt as [since|]; [|reflexivity].
    rewrite filter_filter_implied; [reflexivity|].
    intros c Hin Hc'. unfold published_after in *.
    destruct (parse_iso (c_readableAt c)) as [d|]; [|discriminate].
    eapply dt_ltb_trans; [|exact Hc']. now apply dt_le_false_ltb. }
  split; [exact Hdp|]. split; [|split; [exact Pagain|split]].
  - unfold chapters_of_payload.
    rewrite (kept_chapters_items _ (Some (c_readableAt p)) _ Hitems).
    simpl. rewrite Hne, Hdp. simpl. rewrite Hagain. simpl. exact Hsort.
  - eapply sort_by_key_sorted; eauto.
  - intros c Hin.
    apply (Permutation_in _ Pagain) in Hin. apply filter_In in Hin as [Hin Hc'].
    split; [exact Hin|].
    unfold published_after in Hc'. unfold published_at.
    destruct (parse_iso (c_readableAt c)) as [d|]; [|reflexivity].
    apply dt_ltb_not_eqb in Hc'.
    destruct dp, d; simpl in *; auto; now rewrite Z.eqb_sym.
Qed.

(** X24.  A batch that was delivered in full is not sent again: when the
    next request for the series is answered with the same response, the
    step asks the index and does nothing else. *)
Theorem delivered_batch_is_not_sent_again
    gid channel_id series_id sdata ts payload batch latest env env' w :
  tracked_record gid series_id (data w) = Some sdata ->
  last_seen_ts sdata = Some ts ->
  PyStr.nonempty ts = true ->
  session_get env (clock w) series_id = Some payload ->
  chapters_of_payload payload (Some ts) = Ok batch ->
  last_item batch = Some latest ->
  (forall i ch, nth_error batch i = Some ch ->
     channel_send env (S (clock w) + i) channel_id
       (release_message sdata (name sdata) ch) = Sent) ->
  let w1 := snd (process_series gid channel_id series_id sdata env w) in
  session_get env' (clock w1) series_id = Some payload ->
  exists sdata1,
    tracked_record gid series_id (data w1) = Some sdata1 /\
    last_seen_ts sdata1 = Some (c_readableAt latest) /\
    process_series gid channel_id series_id sdata1 env' w1 =
      (Ok tt, record_event (Requested series_id) w1).
Proof.
  intros Htracked Hts Hne Hget Hbatch Hlast Hsent w1 Hget'.
  assert (Hl : PyStr.nonempty (c_readableAt latest) = true)
    by (eapply chapters_nonempty_ts; [exact Hbatch | now apply last_item_in]).
  assert (Hd1 : data w1 =
                set_tracked gid series_id
                  (with_last_seen_ts (Some (c_readableAt latest)) sdata) (data w)).
  { subst w1.
    rewrite process_series_primed by (rewrite Hts; exact Hne).
    rewrite Hget, Hts, Hbatch.
    destruct batch as [|c0 rest] eqn:Eb; [discriminate|].
    rewrite <- Eb in *.
    rewrite send_new_chapters_all_sent
      by (intros i ch Hi; rewrite clock_record; now apply Hsent).
    rewrite Hlast. rewrite Eb at 1. simpl truthy_str. rewrite Hl. reflexivity. }
  exists (with_last_seen_ts (Some (c_readableAt latest)) sdata).
  split; [|split; [reflexivity|]].
  - rewrite Hd1. unfold tracked_record in Htracked.
    destruct (dict_get gid (guilds (data w))) as [gdata|] eqn:Hg; [|discriminate].
    now apply (tracked_record_set_eq _ _ _ _ gdata).
  - rewrite process_series_primed by exact Hl.
    rewrite Hget'. cbn [last_seen_ts with_last_seen_ts].
    now rewrite (refetch_after_batch_is_empty _ _ _ _ Hbatch Hlast).
Qed.

End Again.

(** ** A file that was not written to its end *)

Section Truncated.

Import JsonText.
Local Open Scope string_scope.

(** *** Beginnings of a text *)

Lemma app_cut a b p r :
  a ++ b = p ++ r ->
  (exists c r1, a = p ++ String c r1) \/ (exists p2, p = a ++ p2 /\ b = p2 ++ r).
Proof.
  revert p; induction a as [|x a IH]; intros p H.
  - right. exists p. now rewrite !append_nil_l in *.
  - destruct p as [|y p].
    + left. exists x, a. now rewrite append_nil_l.
    + rewrite !append_cons in H. injection H as -> H.
      destruct (IH p H) as [(c & r1 & ->)|(p2 & -> & ->)].
      * left. exists c, r1. now rewrite append_cons.
      * right. exists p2. now rewrite append_cons.
Qed.

Lemma substring_cut n t :
  (n < String.length t)%nat ->
  exists c q, t = String.substring 0 n t ++ String c q.
Proof.
  revert n; induction t as [|a t IH]; intros n Hn; [simpl in Hn; lia|].
  destruct n as [|n].
  - exists a, t. reflexivity.
  - simpl in Hn. destruct (IH n) as (c & q & E); [lia|].
    exists c, q. simpl. rewrite append_cons. now rewrite <- E.
Qed.

Lemma cut_substring p c q :
  p = String.substring 0 (String.length p) (p ++ String c q).
Proof.
  induction p as [|a p IH]; [reflexivity|].
  rewrite append_cons. simpl. now rewrite <- IH.
Qed.

Lemma cut_length p c q :
  (String.length p < String.length (p ++ String c q))%nat.
Proof. rewrite length_append. simpl. lia. Qed.

(** *** More fuel reads the same *)

Lemma scan_more_fuel fuel :
  (forall s r, scan_value fuel s = Some r ->
               forall fuel', (fuel <= fuel')%nat -> scan_value fuel' s = Some r) /\
  (forall s r, scan_items fuel s = Some r ->
               forall fuel', (fuel <= fuel')%nat -> scan_items fuel' s = Some r) /\
  (forall s r, scan_members fuel s = Some r ->
               forall fuel', (fuel <= fuel')%nat -> scan_members fuel' s = Some r).
Proof.
  induction fuel as [|fuel (IHv & IHi & IHm)];
    [repeat split; intros; discriminate|].
  split; [|split]; intros s r H fuel' Hle;
    (destruct fuel' as [|fuel']; [lia|]);
    assert (Hle' : (fuel <= fuel')%nat) by lia.
  - cbn [scan_value] in *.
    destruct (starts_with quote s); [exact H|].
    destruct (starts_with "[" s).
    { destruct (starts_with "]" _); [exact H|].
      destruct (scan_items fuel _) as [[l rest]|] eqn:E; [|discriminate].
      now rewrite (IHi _ _ E fuel' Hle'). }
    destruct (starts_with "{" s); [|exact H].
    destruct (starts_with "}" _); [exact H|].
    destruct (scan_members fuel _) as [[l rest]|] eqn:E; [|discriminate].
    now rewrite (IHm _ _ E fuel' Hle').
  - cbn [scan_items] in *.
    destruct (scan_value fuel s) as [[v rest]|] eqn:Ev; [|discriminate].
    rewrite (IHv _ _ Ev fuel' Hle').
    destruct (starts_with "]" _); [exact H|].
    destruct (starts_with "," _); [|exact H].
    destruct (scan_items fuel _) as [[l rest']|] eqn:E; [|discriminate].
    now rewrite (IHi _ _ E fuel' Hle').
  - cbn [scan_members] in *.
    destruct (starts_with quote s); [|exact H].
    destruct (scan_string (tail s)) as [[k rest]|]; [|exact H].
    destruct (starts_with ":" _); [|exact H].
    destruct (scan_value fuel _) as [[v rest']|] eqn:Ev; [|discriminate].
    rewrite (IHv _ _ Ev fuel' Hle').
    destruct (starts_with "}" _); [exact H|].
    destruct (starts_with "," _); [|exact H].
    destruct (scan_members fuel _) as [[l rest'']|] eqn:E; [|discriminate].
    now rewrite (IHm _ _ E fuel' Hle').
Qed.

(** the text of a value, with whatever fuel: nothing is read, or the value *)
Lemma scan_value_whole v level rest fuel :
  json_wf v = true -> number_goes_on rest = false ->
  scan_value fuel (dumps_at level v ++ rest) = None \/
  scan_value fuel (dumps_at level v ++ rest) = Some (v, rest).
Proof.
  intros Hwf Hrest.
  destruct (scan_value fuel (dumps_at level v ++ rest)) as [r|] eqn:E; [|now left].
  right.
  pose proof (proj1 (scan_more_fuel fuel) _ _ E (fuel + json_size v)%nat
                ltac:(lia)) as Hmore.
  rewrite (reads_back_all v Hwf _ level rest) in Hmore by (lia || assumption).
  congruence.
Qed.

(** *** Nothing *)

Lemma scan_value_empty fuel : scan_value fuel EmptyString = None.
Proof. now destruct fuel. Qed.

Lemma scan_items_empty fuel : scan_items fuel EmptyString = None.
Proof. destruct fuel as [|fuel]; [reflexivity|]. simpl. now rewrite scan_value_empty. Qed.

Lemma scan_members_empty fuel : scan_members fuel EmptyString = None.
Proof. now destruct fuel. Qed.

(** a beginning of blanks *)
Lemma cut_of_spaces n p r : spaces n = p ++ r -> skip_spaces p = EmptyString.
Proof.
  revert p; induction n as [|n IH]; intros p H.
  - destruct p; [reflexivity | discriminate].
  - destruct p as [|a p]; [reflexivity|].
    simpl in H. rewrite append_cons in H. injection H as <- H.
    simpl. now apply IH.
Qed.

Lemma cut_of_newline_indent level p r :
  newline_indent level = p ++ r -> skip_spaces p = EmptyString.
Proof.
  unfold newline_indent. destruct p as [|a p]; [reflexivity|].
  rewrite append_cons. intros H. injection H as <- H.
  simpl. now apply (cut_of_spaces _ _ _ H).
Qed.

(** *** Strings *)

Lemma scan_string_cut_char ch (k : nat) :
  (k < String.length (escape_char ch))%nat ->
  scan_string (String.substring 0 k (escape_char ch)) = None.
Proof.
  intros Hk.
  assert (H : forallb
                (fun k => Nat.leb (String.length (escape_char ch)) k ||
                          match scan_string (String.substring 0 k (escape_char ch)) with
                          | None => true
                          | Some _ => false
                          end)
                (seq 0 6) = true)
    by (destruct ch as [[] [] [] [] [] [] [] []]; vm_compute; reflexivity).
  rewrite forallb_forall in H.
  assert (Hlen : (String.length (escape_char ch) <= 6)%nat)
    by (destruct ch as [[] [] [] [] [] [] [] []]; vm_compute; lia).
  specialize (H k). rewrite in_seq in H.
  assert (Hin : (0 <= k < 0 + 6)%nat) by lia.
  specialize (H Hin).
  destruct (Nat.leb_spec (String.length (escape_char ch)) k); [lia|].
  simpl in H. now destruct (scan_string _).
Qed.

Lemma scan_string_cut s :
  forall p r, escape s = p ++ r -> scan_string p = None.
Proof.
  induction s as [|ch s IH]; intros p r H.
  - destruct p; [reflexivity | discriminate].
  - cbn [escape] in H.
    destruct (app_cut _ _ _ _ H) as [(c & r1 & E)|(p2 & -> & E)].
    + rewrite (cut_substring p c r1), <- E.
      apply scan_string_cut_char. rewrite E. apply cut_length.
    + rewrite scan_string_escape_char. now rewrite (IH _ _ E).
Qed.

(** a beginning of the text of a string, the closing quote left out *)
Lemma scan_encode_string_cut s p c q :
  encode_string s = p ++ String c q ->
  p = EmptyString \/
  exists p', p = String quote p' /\ scan_string p' = None.
Proof.
  unfold encode_string. destruct p as [|a p]; [now left|].
  rewrite append_cons. intros H. injection H as <- H. right.
  exists p. split; [reflexivity|].
  destruct (app_cut _ _ _ _ H) as [(c' & r1 & E)|(p2 & -> & E)].
  - now apply (scan_string_cut s p (String c' r1)).
  - destruct p2 as [|x p2].
    + rewrite append_nil_r. apply (scan_string_cut s (escape s) EmptyString).
      now rewrite append_nil_r.
    + rewrite append_cons in E. injection E as _ E. destruct p2; discriminate.
Qed.

(** *** Numbers *)

(** what is left after the digits does not depend on the number read *)
Lemma scan_digits_rest s :
  forall acc acc', snd (scan_digits acc s) = snd (scan_digits acc' s).
Proof.
  induction s as [|x s IH]; intros acc acc'; [reflexivity|].
  simpl. destruct (digit_value x); [apply IH | reflexivity].
Qed.

Lemma digits_only_cut p r :
  (forall acc, snd (scan_digits acc (p ++ r)) = EmptyString) ->
  forall acc, snd (scan_digits acc p) = EmptyString.
Proof.
  induction p as [|a p IH]; intros H acc; [reflexivity|].
  pose proof (H acc) as Ha. rewrite append_cons in Ha. cbn [scan_digits] in *.
  destruct (digit_value a) as [d|]; [|discriminate].
  apply IH. intros acc'.
  rewrite (scan_digits_rest _ acc' (10 * acc + d)%Z). exact Ha.
Qed.

Lemma digits_of_digits_only fuel n :
  (n < 10 ^ N.of_nat fuel)%N ->
  forall acc, snd (scan_digits acc (PyStr.digits_of fuel n)) = EmptyString.
Proof.
  intros Hn acc.
  destruct (scan_digits_digits_of fuel n Hn) as [m Hm].
  specialize (Hm acc EmptyString). rewrite append_nil_r in Hm. now rewrite Hm.
Qed.

(** digits alone: no number is read, or one with nothing left over *)
Lemma scan_natural_digits_only p :
  (forall acc, snd (scan_digits acc p) = EmptyString) ->
  match scan_natural p with
  | Some (n, rest) => rest = EmptyString \/ number_goes_on rest = true
  | None => True
  end.
Proof.
  intros H. destruct p as [|a p]; [exact I|].
  unfold scan_natural. pose proof (H 0%Z) as H0. cbn [scan_digits] in H0.
  destruct (digit_value a) as [d|] eqn:Ed; [|exact I].
  destruct (Z.eqb d 0).
  - destruct p as [|b p]; [now left|]. right.
    cbn [scan_digits] in H0. simpl.
    destruct (digit_value b); [reflexivity | discriminate].
  - rewrite (scan_digits_rest p (10 * 0 + d)%Z d) in H0.
    destruct (scan_digits d p) as [n rest]. now left.
Qed.

Lemma scan_number_digits_only sign p :
  (forall acc, snd (scan_digits acc p) = EmptyString) ->
  match (if sign : bool then scan_number (String "-" p) else scan_number p) with
  | Some (n, rest) => rest = EmptyString
  | None => True
  end.
Proof.
  intros H. pose proof (scan_natural_digits_only p H) as Hn.
  destruct sign.
  - unfold scan_number. simpl (Ascii.eqb "-" "-"). cbv iota.
    destruct (scan_natural p) as [[n rest]|]; [|exact I].
    destruct Hn as [->|Hn]; [reflexivity | now rewrite Hn].
  - destruct p as [|a p]; [exact I|].
    unfold scan_number.
    pose proof (H 0%Z) as H0. cbn [scan_digits] in H0.
    destruct (digit_value a) as [d|] eqn:Ed; [|discriminate].
    rewrite (digit_not_minus a d Ed).
    destruct (scan_natural (String a p)) as [[n rest]|]; [|exact I].
    destruct Hn as [->|Hn]; [reflexivity | now rewrite Hn].
Qed.

Lemma of_int_cut n p c q fuel :
  PyStr.of_int n = p ++ String c q ->
  scan_value fuel p = None \/ exists n', scan_value fuel p = Some (JNum n', EmptyString).
Proof.
  intros H. destruct fuel as [|fuel]; [now left|].
  destruct p as [|a p]; [now left|].
  destruct n as [|n|n]; cbn [PyStr.of_int] in H.
  - rewrite append_cons in H. injection H as _ H. destruct p; discriminate.
  - assert (Hd : forall acc, snd (scan_digits acc (String a p)) = EmptyString).
    { apply (digits_only_cut _ (String c q)). rewrite <- H.
      apply digits_of_digits_only, size_nat_bound. }
    pose proof (Hd 0%Z) as H0. cbn [scan_digits] in H0.
    destruct (digit_value a) as [d|] eqn:Ed; [|discriminate].
    rewrite (scan_value_digit fuel a d p Ed).
    pose proof (scan_number_digits_only false (String a p) Hd) as Hn.
    cbv beta iota in Hn.
    destruct (scan_number (String a p)) as [[n' rest]|]; [|now left].
    subst rest. right. now exists n'.
  - rewrite append_cons in H. injection H as <- H.
    assert (Hd : forall acc, snd (scan_digits acc p) = EmptyString).
    { apply (digits_only_cut _ (String c q)). rewrite <- H.
      apply digits_of_digits_only, size_nat_bound. }
    pose proof (scan_number_digits_only true p Hd) as Hn.
    cbv beta iota in Hn.
    cbn [scan_value starts_with tail]. unfold quote. simpl Ascii.eqb. cbv iota.
    destruct (scan_number (String "-" p)) as [[n' rest]|]; [|now left].
    subst rest. right. now exists n'.
Qed.

(** *** Words *)

Lemma cut_cases a t p c q :
  String a t = p ++ String c q ->
  p = EmptyString \/ exists p', p = String a p' /\ t = p' ++ String c q.
Proof.
  destruct p as [|b p]; [now left|].
  rewrite append_cons. intros H. injection H as <- H. right. eauto.
Qed.

Lemma cut_nothing p c q : EmptyString = p ++ String c q -> False.
Proof. destruct p; discriminate. Qed.

Ltac cut_word H :=
  repeat (apply cut_cases in H as [->|(? & -> & H)];
          [left; match goal with |- scan_value ?f _ = None => now destruct f end|]);
  now apply cut_nothing in H.

Lemma cut_fails_null : cut_fails JNull.
Proof. intros level p c q fuel H. cbn [dumps_at] in H. cut_word H. Qed.

Lemma cut_fails_bool b : cut_fails (JBool b).
Proof. intros level p c q fuel H. destruct b; cbn [dumps_at] in H; cut_word H. Qed.

Lemma cut_fails_num n : cut_fails (JNum n).
Proof.
  intros level p c q fuel H. cbn [dumps_at] in H.
  destruct (of_int_cut n p c q fuel H) as [E|[n' E]]; [now left|].
  right. now exists n, n'.
Qed.

Lemma cut_fails_str s : cut_fails (JStr s).
Proof.
  intros level p c q fuel H. cbn [dumps_at] in H. left.
  destruct (scan_encode_string_cut s p c q H) as [->|(p' & -> & E)].
  - apply scan_value_empty.
  - destruct fuel as [|fuel]; [reflexivity|].
    cbn [scan_value starts_with tail]. rewrite Ascii.eqb_refl. now rewrite E.
Qed.

(** *** Containers *)

Lemma blank_not_number p :
  skip_spaces p = EmptyString -> number_goes_on p = false.
Proof.
  destruct p as [|a p]; [reflexivity|]. cbn [skip_spaces number_goes_on].
  destruct (is_space a) eqn:E; [|discriminate]. intros _.
  revert E. destruct a as [[] [] [] [] [] [] [] []]; try discriminate; reflexivity.
Qed.

(** a beginning of the line break and the closing bracket *)
Lemma cut_of_closing level b p c q :
  newline_indent level ++ String b EmptyString = p ++ String c q ->
  skip_spaces p = EmptyString.
Proof.
  intros H. destruct (app_cut _ _ _ _ H) as [(c' & r1 & E)|(p2 & -> & E)].
  - now apply (cut_of_newline_indent level p (String c' r1)).
  - apply cut_cases in E as [->|(p' & _ & E)]; [|now apply cut_nothing in E].
    rewrite skip_spaces_newline_indent. reflexivity.
Qed.

(** a beginning of the text of a value starts as the text does *)
Lemma value_cut_first level v rest p c q :
  dumps_at level v ++ rest = p ++ String c q ->
  skip_spaces p = p /\ starts_with "]" p = false.
Proof.
  intros H. destruct (dumps_at_first level v rest) as (a & s & E & Hc & Hb).
  rewrite E in H. destruct p as [|b p]; [now split|].
  rewrite append_cons in H. injection H as <- _.
  split; [now apply skip_spaces_none | exact Hb].
Qed.

Lemma key_cut_first k rest p c q :
  encode_string k ++ rest = p ++ String c q ->
  skip_spaces p = p /\ starts_with "}" p = false.
Proof.
  unfold encode_string. rewrite append_cons. intros H.
  destruct p as [|b p]; [now split|].
  rewrite append_cons in H. injection H as <- _. now split.
Qed.

Lemma scan_items_cut level after :
  (forall p c q, after = p ++ String c q -> skip_spaces p = EmptyString) ->
  forall xs, Forall cut_fails xs -> forallb json_wf xs = true ->
  forall x p c q fuel,
    cut_fails x -> json_wf x = true ->
    dumps_at level x ++ items_text level xs ++ after = p ++ String c q ->
    scan_items fuel p = None.
Proof.
  intros Hafter xs F.
  induction F as [|y ys Hy _ IH]; intros Hwf x p c q fuel Hx Hwx H;
    (destruct fuel as [|fuel]; [reflexivity|]); cbn [scan_items].
  - cbn [items_text fold_right] in H. rewrite append_nil_l in H.
    destruct (app_cut _ _ _ _ H) as [(c' & r1 & E)|(p2 & -> & E)].
    + destruct (Hx level p c' r1 fuel E) as [->|(n & n' & _ & ->)]; reflexivity.
    + pose proof (Hafter _ _ _ E) as Hb.
      destruct (scan_value_whole x level p2 fuel Hwx (blank_not_number _ Hb))
        as [->| ->]; [reflexivity|].
      now rewrite Hb.
  - simpl in Hwf. apply andb_true_iff in Hwf as [Hwy Hwys].
    change (items_text level (y :: ys))
      with ("," ++ newline_indent level ++ dumps_at level y ++ items_text level ys)
      in H.
    destruct (app_cut _ _ _ _ H) as [(c' & r1 & E)|(p2 & -> & E)].
    + destruct (Hx level p c' r1 fuel E) as [->|(n & n' & _ & ->)]; reflexivity.
    + rewrite !append_assoc, append_cons, append_nil_l in E.
      apply cut_cases in E as [->|(p3 & -> & E)].
      * destruct (scan_value_whole x level EmptyString fuel Hwx eq_refl)
          as [->| ->]; reflexivity.
      * destruct (scan_value_whole x level (String "," p3) fuel Hwx eq_refl)
          as [->| ->]; [reflexivity|].
        rewrite (skip_spaces_none "," _ eq_refl), !starts_with_cons.
        simpl (Ascii.eqb "," _). cbv iota. cbn [tail].
        destruct (app_cut _ _ _ _ E) as [(c' & r1 & E')|(p4 & -> & E')].
        { rewrite (cut_of_newline_indent level p3 _ E').
          now rewrite scan_items_empty. }
        rewrite skip_spaces_newline_indent.
        destruct (value_cut_first _ _ _ _ _ _ E') as [-> _].
        now rewrite (IH Hwys y p4 c q fuel Hy Hwy E').
Qed.

Lemma scan_members_cut level after :
  (forall p c q, after = p ++ String c q -> skip_spaces p = EmptyString) ->
  forall kvs, Forall (fun kv => cut_fails (snd kv)) kvs ->
  forallb (fun kv : string * json => let (_, x) := kv in json_wf x) kvs = true ->
  forall k x p c q fuel,
    cut_fails x -> json_wf x = true ->
    encode_string k ++ ": " ++ dumps_at level x ++ members_text level kvs ++ after =
      p ++ String c q ->
    scan_members fuel p = None.
Proof.
  intros Hafter kvs F.
  induction F as [|[k' y] kvs Hy _ IH]; intros Hwf k x p c q fuel Hx Hwx H;
    (destruct fuel as [|fuel]; [reflexivity|]); cbn [scan_members];
    (destruct (app_cut _ _ _ _ H) as [(c' & r1 & E)|(p2 & -> & E)];
     [destruct (scan_encode_string_cut k p c' r1 E) as [->|(p' & -> & Ep)];
      [reflexivity | cbn [starts_with tail]; rewrite Ascii.eqb_refl; now rewrite Ep]|]);
    destruct (scan_string_encode k p2) as [-> ->];
    rewrite append_cons, append_cons, append_nil_l in E;
    (apply cut_cases in E as [->|(p3 & -> & E)]; [reflexivity|]);
    rewrite (skip_spaces_none ":" _ eq_refl), !starts_with_cons;
    simpl (Ascii.eqb ":" _); cbv iota; cbn [tail];
    (apply cut_cases in E as [->|(p4 & -> & E)];
     [now rewrite scan_value_empty|]);
    change (skip_spaces (String " " p4)) with (skip_spaces p4).
  - cbn [members_text fold_right] in E. rewrite append_nil_l in E.
    destruct (value_cut_first _ _ _ _ _ _ E) as [-> _].
    destruct (app_cut _ _ _ _ E) as [(c' & r1 & E')|(p5 & -> & E')].
    + destruct (Hx level p4 c' r1 fuel E') as [->|(n & n' & _ & ->)]; reflexivity.
    + pose proof (Hafter _ _ _ E') as Hb.
      destruct (scan_value_whole x level p5 fuel Hwx (blank_not_number _ Hb))
        as [->| ->]; [reflexivity|].
      now rewrite Hb.
  - simpl in Hwf. apply andb_true_iff in Hwf as [Hwy Hwkvs]. simpl in Hy.
    change (members_text level ((k', y) :: kvs))
      with ("," ++ newline_indent level ++ encode_string k' ++ ": " ++
            dumps_at level y ++ members_text level kvs) in E.
    destruct (value_cut_first _ _ _ _ _ _ E) as [-> _].
    destruct (app_cut _ _ _ _ E) as [(c' & r1 & E')|(p5 & -> & E')].
    + destruct (Hx level p4 c' r1 fuel E') as [->|(n & n' & _ & ->)]; reflexivity.
    + rewrite !append_assoc, append_cons, append_nil_l in E'.
      apply cut_cases in E' as [->|(p6 & -> & E')].
      * destruct (scan_value_whole x level EmptyString fuel Hwx eq_refl)
          as [->| ->]; reflexivity.
      * destruct (scan_value_whole x level (String "," p6) fuel Hwx eq_refl)
          as [->| ->]; [reflexivity|].
        rewrite (skip_spaces_none "," _ eq_refl), !starts_with_cons.
        simpl (Ascii.eqb "," _). cbv iota. cbn [tail].
        destruct (app_cut _ _ _ _ E') as [(c' & r1 & E'')|(p7 & -> & E'')].
        { rewrite (cut_of_newline_indent level p6 _ E'').
          now rewrite scan_members_empty. }
        rewrite skip_spaces_newline_indent.
        destruct (key_cut_first _ _ _ _ _ E'') as [-> _].
        now rewrite (IH Hwkvs k' y p7 c q fuel Hy Hwy E'').
Qed.

Lemma Forall_of_wf (P : json -> Prop) xs :
  Forall (fun v => json_wf v = true -> P v) xs ->
  forallb json_wf xs = true -> Forall P xs.
Proof.
  induction 1 as [|x xs Hx _ IH]; simpl; intros H; constructor;
    apply andb_true_iff in H as [H1 H2]; auto.
Qed.

Lemma Forall_of_wf_members (P : json -> Prop) (kvs : list (string * json)) :
  Forall (fun kv => json_wf (snd kv) = true -> P (snd kv)) kvs ->
  forallb (fun kv : string * json => let (_, x) := kv in json_wf x) kvs = true ->
  Forall (fun kv => P (snd kv)) kvs.
Proof.
  induction 1 as [|[k x] kvs Hx _ IH]; simpl; intros H; constructor;
    apply andb_true_iff in H as [H1 H2]; auto.
Qed.

(** no beginning of the text of a value is read as a document, a number
    that was cut short apart *)
Lemma cut_fails_all v : json_wf v = true -> cut_fails v.
Proof.
  induction v as [| b | n | s | l IH | fields IH] using json_induction; intros Hwf.
  - apply cut_fails_null.
  - apply cut_fails_bool.
  - apply cut_fails_num.
  - apply cut_fails_str.
  - intros level p c q fuel H. left.
    destruct fuel as [|fuel]; [reflexivity|].
    destruct l as [|x xs].
    + cbn [dumps_at] in H.
      apply cut_cases in H as [->|(p1 & -> & H)]; [reflexivity|].
      apply cut_cases in H as [->|(p2 & -> & H)]; [|now apply cut_nothing in H].
      cbn. now rewrite scan_items_empty.
    + simpl in Hwf. apply andb_true_iff in Hwf as [Hwx Hwxs].
      inversion IH as [|? ? Hx Hxs]; subst.
      cbn [dumps_at] in H.
      change (fold_right _ EmptyString xs) with (items_text (S level) xs) in H.
      rewrite append_cons, append_nil_l in H.
      apply cut_cases in H as [->|(p1 & -> & H)]; [reflexivity|].
      cbn [scan_value]. rewrite !starts_with_cons.
      unfold quote at 1. simpl (Ascii.eqb "[" _). cbv iota. cbn [tail].
      destruct (app_cut _ _ _ _ H) as [(c' & r1 & E)|(p2 & -> & E)].
      { rewrite (cut_of_newline_indent (S level) p1 _ E). cbn [starts_with].
        now rewrite scan_items_empty. }
      rewrite skip_spaces_newline_indent.
      destruct (value_cut_first _ _ _ _ _ _ E) as [-> ->].
      now rewrite (scan_items_cut (S level) (newline_indent level ++ "]")
                     (cut_of_closing level "]") xs (Forall_of_wf _ _ Hxs Hwxs) Hwxs
                     x p2 c q fuel (Hx Hwx) Hwx E).
  - intros level p c q fuel H. left.
    destruct fuel as [|fuel]; [reflexivity|].
    destruct fields as [|[k x] kvs].
    + cbn [dumps_at] in H.
      apply cut_cases in H as [->|(p1 & -> & H)]; [reflexivity|].
      apply cut_cases in H as [->|(p2 & -> & H)]; [|now apply cut_nothing in H].
      cbn. now rewrite scan_members_empty.
    + simpl in Hwf. apply andb_true_iff in Hwf as [_ Hwf].
      apply andb_true_iff in Hwf as [Hwx Hwxs].
      inversion IH as [|? ? Hx Hxs]; subst. simpl in Hx.
      cbn [dumps_at] in H.
      change (fold_right _ EmptyString kvs) with (members_text (S level) kvs) in H.
      rewrite append_cons, append_nil_l in H.
      apply cut_cases in H as [->|(p1 & -> & H)]; [reflexivity|].
      cbn [scan_value]. rewrite !starts_with_cons.
      unfold quote at 1. simpl (Ascii.eqb "{" _). cbv iota. cbn [tail].
      destruct (app_cut _ _ _ _ H) as [(c' & r1 & E)|(p2 & -> & E)].
      { rewrite (cut_of_newline_indent (S level) p1 _ E). cbn [starts_with].
        now rewrite scan_members_empty. }
      rewrite skip_spaces_newline_indent.
      destruct (key_cut_first _ _ _ _ _ E) as [-> ->].
      now rewrite (scan_members_cut (S level) (newline_indent level ++ "}")
                     (cut_of_closing level "}") kvs
                     (Forall_of_wf_members _ _ Hxs Hwxs) Hwxs
                     k x p2 c q fuel (Hx Hwx) Hwx E).
Qed.

(** a beginning of the text of a list or of a dictionary is no document *)
Lemma loads_cut v p c q :
  json_wf v = true ->
  (forall n, v <> JNum n) ->
  dumps v = p ++ String c q ->
  loads p = None.
Proof.
  intros Hwf Hv H. unfold loads, dumps in *.
  assert (E : dumps_at 0 v ++ EmptyString = p ++ String c q)
    by now rewrite append_nil_r.
  destruct (value_cut_first _ _ _ _ _ _ E) as [-> _].
  destruct (cut_fails_all v Hwf 0%nat p c q (S (String.length p)) H)
    as [->|(n & _ & Hn & _)]; [reflexivity|].
  now elim (Hv n).
Qed.

End Truncated.

(** X25.  A write of the file that stops before the end of the text
    raises [OSError] and leaves a file that [load_data] cannot read: the
    next start of the program ends with the [ValueError] of [json.load]. *)
Theorem interrupted_write_leaves_unreadable_file env w written :
  wf_data (data w) = true ->
  file_write env (clock w) = WriteFailed written ->
  (written < String.length (JsonText.dumps (dump_data (data w))))%nat ->
  fst (save_data env w) = Raise OSError /\
  load_data (disk (snd (save_data env w))) = Raise ValueError.
Proof.
  intros Hwf Hw Hn. unfold save_data. rewrite Hw. cbn [fst snd].
  split; [reflexivity|].
  destruct (substring_cut _ _ Hn) as (c & q & E).
  simpl. rewrite (loads_cut (dump_data (data w)) _ c q); auto.
  - now apply json_wf_dump_data.
  - discriminate.
Qed.

Lemma interrupted_write_leaves_unreadable_file_witness :
  fst (save_data (Sample.cut_off [1] 40) (Example.world_of Example.one_guild)) =
    Raise OSError /\
  load_data (disk (snd (save_data (Sample.cut_off [1] 40)
                          (Example.world_of Example.one_guild)))) =
    Raise ValueError.
Proof.
  apply (interrupted_write_leaves_unreadable_file
           (Sample.cut_off [1] 40) (Example.world_of Example.one_guild) 40);
    [reflexivity | reflexivity | vm_compute; lia].
Defined.

(** ** How a command ends *)

Lemma raises_only_get_guild_data guild_id :
  raises_only_at_write (get_guild_data guild_id).
Proof.
  intros env w. unfold get_guild_data.
  destruct (dict_get _ _); cbn [fst snd]; (split; [|discriminate]);
    exists []; simpl; now rewrite app_nil_r.
Qed.

Lemma raises_only_guild_id_of guild_id :
  raises_only_at_write (guild_id_of (Some guild_id)).
Proof.
  intros env w. cbn [guild_id_of fst snd]. split; [|discriminate].
  exists []. now rewrite app_nil_r.
Qed.

(** X26.  Up to the sending of its answer.  In a guild a command ends
    with an exception only when its write of the file fails: the exception
    is the [OSError] of that write, raised at once; [!list_tracked] and
    [!test_release], which do not write, always come to their answer.  In
    a direct message, where the check lets the owner of the application
    through, [!untrack], [!set_announce_channel] and [!list_tracked] end
    at once with the [AttributeError] of [ctx.guild.id], before any
    effect, and [!test_release] answers that it must be run in a
    server. *)
Theorem only_a_failed_write_ends_a_command
    guild_id arg role series_name channel get_role guild :
  raises_only_at_write (track_series guild_id arg role series_name) /\
  raises_only_at_write (untrack_series (Some guild_id) arg) /\
  raises_only_at_write (set_announce_channel (Some guild_id) channel) /\
  (forall env w,
     exists reply, fst (list_tracked get_role (Some guild_id) env w) = Ok reply) /\
  (forall env w, exists reply, fst (test_release guild env w) = Ok reply) /\
  (forall env w, untrack_series None arg env w = (Raise AttributeError, w)) /\
  (forall env w,
     set_announce_channel None channel env w = (Raise AttributeError, w)) /\
  (forall env w, list_tracked get_role None env w = (Raise AttributeError, w)) /\
  (forall env w, test_release None env w = (Ok NotInServer, w)).
Proof.
  split; [|split; [|split; [|split; [|split; [|repeat split]]]]].
  - unfold track_series.
    apply raises_only_bind; [apply raises_only_get_guild_data|].
    intros gdata. destruct (dict_get _ _); [apply raises_only_ret|].
    apply raises_only_bind; [apply raises_only_modify_data|]. intros _.
    apply raises_only_bind; [apply raises_only_save_data|]. intros _.
    apply raises_only_ret.
  - unfold untrack_series.
    apply raises_only_bind; [apply raises_only_guild_id_of|]. intros g.
    apply raises_only_bind; [apply raises_only_get_guild_data|].
    intros gdata. destruct (dict_get _ _); [|apply raises_only_ret].
    apply raises_only_bind; [apply raises_only_modify_data|]. intros _.
    apply raises_only_bind; [apply raises_only_save_data|]. intros _.
    apply raises_only_ret.
  - unfold set_announce_channel.
    apply raises_only_bind; [apply raises_only_guild_id_of|]. intros g.
    apply raises_only_bind; [apply raises_only_get_guild_data|]. intros _.
    apply raises_only_bind; [apply raises_only_modify_data|]. intros _.
    apply raises_only_bind; [apply raises_only_save_data|]. intros _.
    apply raises_only_ret.
  - intros env w. unfold list_tracked, guild_id_of, bind, ret.
    destruct (get_guild_data_inv guild_id env w) as (gdata & w1 & -> & _).
    destruct (tracked_series gdata); simpl; eauto.
  - intros env w. destruct guild as [g|]; [|simpl; eauto].
    unfold test_release, bind, ret, get_channel, send.
    destruct (get_guild_data_inv g env w) as (gdata & w1 & -> & _).
    destruct (announce_channel_id gdata) as [c|]; [|simpl; eauto].
    destruct (c =? 0); [simpl; eauto|].
    destruct (find_channel env c); cbn [negb]; [|simpl; eauto].
    destruct (tracked_series gdata) as [|[sid sdata] rest]; [simpl; eauto|].
    destruct (channel_send env (clock w1) c _); simpl; eauto.
Qed.

(** ** Instances *)

Lemma full_delivery_commits_latest_witness :
  let r := process_series (rt:=Example.runtime) "1" 50 "S1"
             (Example.series "Series One" (Some Example.may_1) 7)
             (Example.calm [1] Example.two_new)
             (Example.world_of Example.one_guild) in
  fst r = Ok tt /\
  delivered (log (snd r)) =
    delivered (log (Example.world_of Example.one_guild)) ++
    map (fun ch =>
           (50, release_message (rt:=Example.runtime)
                  (Example.series "Series One" (Some Example.may_1) 7)
                  (name (Example.series "Series One" (Some Example.may_1) 7)) ch))
        Sample.two_new_sorted /\
  watermark "1" "S1" (data (snd r)) =
    Some (c_readableAt (Example.chapter_of "b" "2024-05-03T00:00:00+00:00" "11")) /\
  write_attempts (log (snd r)) =
    write_attempts (log (Example.world_of Example.one_guild)) /\
  disk (snd r) = disk (Example.world_of Example.one_guild).
Proof.
  apply (full_delivery_commits_latest (rt:=Example.runtime) "1" 50 "S1"
           (Example.series "Series One" (Some Example.may_1) 7) Example.may_1
           Example.two_new Sample.two_new_sorted
           (Example.chapter_of "b" "2024-05-03T00:00:00+00:00" "11")
           (Example.calm [1] Example.two_new) (Example.world_of Example.one_guild));
    reflexivity.
Defined.

Lemma guild_requests_each_series_once_witness :
  let r := process_guild (rt:=Example.runtime) 1
             (Example.calm [1] Example.two_new)
             (Example.world_of Example.one_guild) in
  exists l,
    log (snd r) = log (Example.world_of Example.one_guild) ++ l /\
    (exists rest, dict_keys (tracked_series Sample.guild_one) = requests l ++ rest) /\
    (fst r = Ok tt -> requests l = dict_keys (tracked_series Sample.guild_one)) /\
    Forall (fun c => c = 50) (send_channels l).
Proof.
  apply (guild_requests_each_series_once (rt:=Example.runtime) 1
           (Example.calm [1] Example.two_new) (Example.world_of Example.one_guild)
           Sample.guild_one 50);
    [reflexivity | reflexivity | discriminate | reflexivity].
Defined.

Lemma idle_guild_is_passed_over_witness :
  let r := process_guild (rt:=Example.runtime) 1
             (Example.calm [1] Example.two_new)
             (Example.world_of Sample.no_channel) in
  fst r = Ok tt /\
  log (snd r) = log (Example.world_of Sample.no_channel) /\
  disk (snd r) = disk (Example.world_of Sample.no_channel) /\
  forall g s,
    tracked_record g s (data (snd r)) =
    tracked_record g s (data (Example.world_of Sample.no_channel)).
Proof.
  apply (idle_guild_is_passed_over (rt:=Example.runtime) 1
           (Example.calm [1] Example.two_new) (Example.world_of Sample.no_channel)).
  simpl. exact I.
Defined.

Lemma failed_fetch_skips_the_series_witness :
  process_series (rt:=Example.runtime) "1" 50 "S1"
    (Example.series "Series One" (Some Example.may_1) 7)
    (Sample.offline [1]) (Example.world_of Example.one_guild) =
  (Ok tt, record_event (Requested "S1") (Example.world_of Example.one_guild)).
Proof.
  apply (proj1 (failed_fetch_skips_the_series (rt:=Example.runtime) "1" 50 "S1"
                  (Example.series "Series One" (Some Example.may_1) 7) []
                  (Sample.offline [1]) (Example.world_of Example.one_guild)
                  ClientError eq_refl)).
Defined.

Lemma unreadable_watermark_blocks_series_witness :
  process_series (rt:=Example.runtime) "1" 50 "S1" Sample.stuck
    (Example.calm [1] Example.two_new) (Example.world_of Example.one_guild) =
  (Ok tt, record_event (Requested "S1") (Example.world_of Example.one_guild)).
Proof.
  apply (unreadable_watermark_blocks_series (rt:=Example.runtime) "1" 50 "S1"
           Sample.stuck "soon" ValueError); reflexivity.
Defined.

Lemma runs_keep_the_settings_witness :
  exists new,
    settings (data (run_cycles (rt:=Example.runtime)
                      [Example.calm [1; 2] Example.two_new]
                      (Example.world_of Example.one_guild))) =
    settings (data (Example.world_of Example.one_guild)) ++
    map (fun gid => (gid, None, [])) new.
Proof.
  apply (runs_keep_the_settings (rt:=Example.runtime)
           [Example.calm [1; 2] Example.two_new] (Example.world_of Example.one_guild)).
  reflexivity.
Defined.

Lemma untrack_series_removes_witness :
  tracked_record "1" "S1"
    (data (snd (untrack_series (Some 1) "S1" (Example.calm [1] Example.two_new)
                  (Example.world_of Example.one_guild)))) = None.
Proof.
  destruct (untrack_series_removes 1 "S1" (Example.calm [1] Example.two_new)
              (Example.world_of Example.one_guild) eq_refl) as [_ H].
  apply (H (Example.series "Series One" (Some Example.may_1) 7) eq_refl).
Defined.

Lemma track_then_untrack_witness :
  data (snd (untrack_series (Some 1) Sample.title_id (Example.calm [1] Example.two_new)
               (snd (track_series 1 Sample.title_url 9 "A name"
                       (Example.calm [1] Example.two_new)
                       (Example.world_of Example.one_guild))))) =
  data (Example.world_of Example.one_guild).
Proof.
  apply (track_then_untrack 1 Sample.title_url Sample.title_id 9 "A name"
           (Example.calm [1] Example.two_new) (Example.calm [1] Example.two_new)
           (Example.world_of Example.one_guild) Sample.guild_one);
    reflexivity.
Defined.

Lemma retrack_starts_without_watermark_witness :
  tracked_record "1" "S1"
    (data (snd (track_series 1 "S1" 9 "Series One again"
                  (Example.calm [1] Example.two_new)
                  (snd (untrack_series (Some 1) "S1" (Example.calm [1] Example.two_new)
                          (Example.world_of Example.one_guild)))))) =
  Some {| name := "Series One again"; last_seen_ts := None; role_id := Some 9 |}.
Proof.
  apply (retrack_starts_without_watermark 1 "S1" 9 "Series One again"
           (Example.calm [1] Example.two_new) (Example.calm [1] Example.two_new)
           (Example.world_of Example.one_guild)
           (Example.series "Series One" (Some Example.may_1) 7));
    reflexivity.
Defined.

Lemma list_tracked_lists_every_series_witness :
  exists lines,
    list_tracked (fun _ => None) (Some 1) (Example.calm [1] Example.two_new)
      (Example.world_of Example.one_guild) =
    (Ok (TrackedSeries lines), Example.world_of Example.one_guild) /\
    List.length lines = List.length (tracked_series Sample.guild_one) /\
    forall i series_id sdata,
      nth_error (tracked_series Sample.guild_one) i = Some (series_id, sdata) ->
      exists line,
        nth_error lines i = Some line /\
        PyStr.contains ("(ID: `" ++ series_id ++ "`")%string line = true /\
        PyStr.contains ("**" ++ name sdata ++ "**")%string line = true.
Proof.
  apply (list_tracked_lists_every_series (fun _ => None) 1
           (Example.calm [1] Example.two_new) (Example.world_of Example.one_guild)
           Sample.guild_one); [reflexivity | discriminate].
Defined.

Lemma commands_leave_the_file_in_step_witness :
  let w' := snd (untrack_series (Some 1) "S1" (Example.calm [1] Example.two_new)
                   (Example.world_of Example.one_guild)) in
  load_data (disk w') = Ok (data w').
Proof.
  destruct (commands_leave_the_file_in_step 1 "S1" 9 "Series One" 60
              (Example.calm [1] Example.two_new)
              (Example.world_of Example.one_guild) eq_refl) as (_ & H & _).
  apply (H "Series One"%string "S1"%string). reflexivity.
Defined.

Lemma refetch_gives_the_later_chapters_witness :
  exists dp again,
    parse_iso (rt:=Example.runtime)
      (c_readableAt (Example.chapter_of "a" "2024-05-02T00:00:00+00:00" "10")) = Ok dp /\
    chapters_of_payload (rt:=Example.runtime) Example.unordered
      (Some (c_readableAt (Example.chapter_of "a" "2024-05-02T00:00:00+00:00" "10")))
    = Ok again /\
    Permutation again
      (filter (published_after (rt:=Example.runtime) dp)
         [Example.chapter_of "a" "2024-05-02T00:00:00+00:00" "10";
          Example.chapter_of "b" "2024-05-03T00:00:00+00:00" "11";
          Example.chapter_of "c" "2024-05-04T00:00:00+00:00" "12"]) /\
    StronglySorted (fun a b => chapter_leb (rt:=Example.runtime) a b = true) again /\
    forall c, In c again ->
      In c [Example.chapter_of "a" "2024-05-02T00:00:00+00:00" "10";
            Example.chapter_of "b" "2024-05-03T00:00:00+00:00" "11";
            Example.chapter_of "c" "2024-05-04T00:00:00+00:00" "12"] /\
      published_at (rt:=Example.runtime) dp c = false.
Proof.
  apply (refetch_gives_the_later_chapters (rt:=Example.runtime) Example.unordered
           (Some Example.may_1)).
  - reflexivity.
  - simpl. auto.
Defined.

Lemma delivered_batch_is_not_sent_again_witness :
  let w1 := snd (process_series (rt:=Example.runtime) "1" 50 "S1"
                   (Example.series "Series One" (Some Example.may_1) 7)
                   (Example.calm [1] Example.two_new)
                   (Example.world_of Example.one_guild)) in
  exists sdata1,
    tracked_record "1" "S1" (data w1) = Some sdata1 /\
    last_seen_ts sdata1 =
      Some (c_readableAt (Example.chapter_of "b" "2024-05-03T00:00:00+00:00" "11")) /\
    process_series (rt:=Example.runtime) "1" 50 "S1" sdata1
      (Example.calm [1] Example.two_new) w1 =
    (Ok tt, record_event (Requested "S1") w1).
Proof.
  apply (delivered_batch_is_not_sent_again (rt:=Example.runtime) "1" 50 "S1"
           (Example.series "Series One" (Some Example.may_1) 7) Example.may_1
           Example.two_new Sample.two_new_sorted
           (Example.chapter_of "b" "2024-05-03T00:00:00+00:00" "11")
           (Example.calm [1] Example.two_new) (Example.calm [1] Example.two_new)
           (Example.world_of Example.one_guild));
    reflexivity.
Defined.

Lemma predicate_decides_witness :
  predicate None (Sample.member ["Staff"%string]) = Returns true /\
  predicate None (Sample.member ["staff"%string]) = Fails CheckFailure.
Proof.
  split.
  - destruct (predicate_decides None (Sample.member ["Staff"%string])) as (_ & H & _).
    destruct (H (Some 1) eq_refl ltac:(discriminate)) as [[_ Hin] _].
    apply Hin. exists ["Staff"%string], "Staff"%string. simpl. tauto.
  - destruct (predicate_decides None (Sample.member ["staff"%string])) as (_ & H & _).
    destruct (H (Some 1) eq_refl ltac:(discriminate)) as [_ [Hr|Hf]];
      [vm_compute in Hr; discriminate | exact Hf].
Defined.
